(** * CS573: narrative similarity and price co-movement of two firms

    A shallow embedding of the Python sources of the repository
    (vectorizer.py, db.py, firm_sim_by_period.py, comovement_new.py,
    pdf_reader.py) together with the properties their specification states,
    followed by the modules that call them or feed them (pipeline.py,
    similarity_lineplot.py, heatmap_updated.py, download_data.py,
    scraper.py) and further properties read off the code.

    Conventions of the embedding.
    - A Python call that may raise is a function into [result]: [Ok v] is a
      normal return, [Raise e] an exception of kind [e].
    - A method that mutates [self] returns the new object; when it raises,
      the object is the one it was called on.
    - float64 / float32 values are idealised as real numbers ([R]): no
      rounding, no overflow, where only the shape and the order of the
      results are at stake.  The cosine similarity itself, whose value the
      specification bounds, is also computed in IEEE binary64 ([Binary64],
      [FirmSim64]), with rounding to nearest even, overflow, the
      infinities and NaN.  A missing cell of a table is [None] of an
      [option]; where the code works on NaN and the infinities themselves
      (comovement_new.py) they are values of their own.
    - Python [str] is [string]; each [ascii] is one code point below 256. *)

From Stdlib Require Import String Ascii List Bool Arith ZArith Lia.
From Stdlib Require Import Permutation Sorted Reals Lra.
From Stdlib Require SpecFloat.
Import ListNotations.

Set Implicit Arguments.

(* ================================================================== *)
(** * Python exceptions and fallible calls *)

Module Py.

(** Exception kinds met in the sources and in the libraries they call.
    [KeyboardInterrupt] and [SystemExit] derive from [BaseException]
    only, the others from [Exception]. *)
Inductive exn : Type :=
  | ImportError (msg : string)
  | RuntimeError (msg : string)
  | ValueError (msg : string)
  | KeyError (msg : string)
  | OSError (msg : string)
  | DatabaseError (msg : string)
  | KeyboardInterrupt
  | SystemExit
  | OtherException (name msg : string).

(** [isinstance(e, Exception)]: what an [except Exception] clause catches. *)
Definition is_Exception (e : exn) : bool :=
  match e with
  | KeyboardInterrupt | SystemExit => false
  | _ => true
  end.

Inductive result (A : Type) : Type :=
  | Ok (a : A)
  | Raise (e : exn).

Arguments Ok {A} a.
Arguments Raise {A} e.

Definition bind {A B : Type} (m : result A) (k : A -> result B) : result B :=
  match m with
  | Ok a => k a
  | Raise e => Raise e
  end.

(** [try: body except Exception as e: handler(e)]. *)
Definition try_except {A : Type} (body : result A) (handler : exn -> result A)
  : result A :=
  match body with
  | Ok a => Ok a
  | Raise e => if is_Exception e then handler e else Raise e
  end.

End Py.

Import Py.

Declare Scope py_scope.
Delimit Scope py_scope with py.
Notation "x <- m ;; k" := (Py.bind m (fun x => k))
  (at level 61, m at next level, right associativity) : py_scope.
Notation "'raise' e" := (Py.Raise e) (at level 10, only parsing) : py_scope.
Open Scope py_scope.

(* ================================================================== *)
(** * Small list utilities shared by the modules *)

Section ListUtil.
Context {A : Type}.

(** Insertion into a list kept ordered by [le]; equal keys keep their
    arrival order, so [isort] is a stable sort. *)
Fixpoint insert_by (le : A -> A -> bool) (x : A) (l : list A) : list A :=
  match l with
  | [] => [x]
  | y :: l' => if le x y then x :: l else y :: insert_by le x l'
  end.

Definition isort (le : A -> A -> bool) (l : list A) : list A :=
  fold_right (insert_by le) [] l.

(** [zip] of four iterables: stops with the shortest. *)
Fixpoint zip4 {B C D : Type} (la : list A) (lb : list B) (lc : list C)
         (ld : list D) : list (A * B * C * D) :=
  match la, lb, lc, ld with
  | a :: la', b :: lb', c :: lc', d :: ld' =>
      (a, b, c, d) :: zip4 la' lb' lc' ld'
  | _, _, _, _ => []
  end.

End ListUtil.

(* ================================================================== *)
(** * Python string methods, on code points below 256

    [str.lower] and [str.upper] as Python maps the letters of ASCII and
    of Latin-1.  The capitals of the code points 181 and 255 lie above
    255: [upper] leaves these two as they are. *)

Module Str.

Definition lower_char (c : ascii) : ascii :=
  let n := nat_of_ascii c in
  if ((65 <=? n) && (n <=? 90))
     || ((192 <=? n) && (n <=? 222) && negb (n =? 215))%nat
  then ascii_of_nat (n + 32) else c.

(** [str.lower] *)
Fixpoint lower (s : string) : string :=
  match s with
  | EmptyString => EmptyString
  | String c s' => String (lower_char c) (lower s')
  end.

Definition upper_char (c : ascii) : ascii :=
  let n := nat_of_ascii c in
  if ((97 <=? n) && (n <=? 122))
     || ((224 <=? n) && (n <=? 254) && negb (n =? 247))%nat
  then ascii_of_nat (n - 32) else c.

(** [str.upper]; the capital of the code point 223 is [SS]. *)
Fixpoint upper (s : string) : string :=
  match s with
  | EmptyString => EmptyString
  | String c s' =>
      if (nat_of_ascii c =? 223)%nat
      then String "S" (String "S" (upper s'))
      else String (upper_char c) (upper s')
  end.

End Str.

(* ================================================================== *)
(** * vectorizer.py *)

Module Vectorizer.

Local Open Scope Z_scope.

(** A 2-D float array as the list of its rows. *)
Definition matrix := list (list R).

(** ** The scikit-learn TF-IDF vectorizer, as far as the wrapper uses it

    The library is not part of the repository.  Its analyzer (lower-casing,
    tokenisation, removal of the English stop words) and the weight it
    gives a vocabulary term in a document are parameters; the vocabulary
    it learns, which fixes the number of columns, is modelled in full. *)
Section Sklearn.

Variable analyze : string -> list string.
  (** [tfidf_weight corpus vocabulary doc term]: the normalised tf-idf
      weight of [term] in [doc], for idf statistics learnt on [corpus]. *)
Variable tfidf_weight :
  list (list string) -> list string -> list string -> string -> R.

Record TfidfVectorizer : Type := mkSk {
    sk_max_features : Z;
    sk_corpus : list (list string);
    sk_vocabulary : option (list string)
  }.

Definition count_term (t : string) (docs : list (list string)) : nat :=
  length (filter (String.eqb t) (concat docs)).

(** Distinct terms of the corpus, in alphabetical order. *)
Definition corpus_terms (docs : list (list string)) : list string :=
  isort String.leb (nodup string_dec (concat docs)).

(** [max_features]: keep the [n] terms with the highest corpus
    frequency; the vocabulary stays in alphabetical order. *)
Definition limit_features (n : nat) (docs : list (list string))
           (terms : list string) : list string :=
  isort String.leb
    (firstn n
       (isort (fun s t => (count_term t docs <=? count_term s docs)%nat)
              terms)).

Definition sk_fit (v : TfidfVectorizer) (texts : list string)
  : result TfidfVectorizer :=
  if sk_max_features v <=? 0 then
    raise (ValueError "max_features must be a positive integer")
  else
    let docs := map analyze texts in
    let terms := corpus_terms docs in
    match terms with
    | [] => raise (ValueError "empty vocabulary")
    | _ =>
        Ok (mkSk (sk_max_features v) docs
              (Some (limit_features (Z.to_nat (sk_max_features v))
                       docs terms)))
    end.

Definition sk_transform (v : TfidfVectorizer) (texts : list string)
  : result matrix :=
  match sk_vocabulary v with
  | None => raise (OtherException "NotFittedError" "not fitted")
  | Some vocab =>
      Ok (map (fun text =>
                 map (tfidf_weight (sk_corpus v) vocab (analyze text))
                     vocab)
              texts)
  end.

(** ** TF-IDF fallback *)

(** [RuntimeError("Vectorizer must be fitted before transform()")],
    the specification's [NotFitted]. *)
Definition NotFitted : exn :=
  RuntimeError "Vectorizer must be fitted before transform()".

Record TfidfVectorizerWrapper : Type := mkTfidf {
    _max_features : Z;
    _vectorizer : TfidfVectorizer;
    tfidf_fitted : bool
  }.

(** [__init__(self, max_features=512)] *)
Definition Tfidf_init (max_features : Z) : TfidfVectorizerWrapper :=
  mkTfidf max_features (mkSk max_features [] None) false.

Definition default_max_features : Z := 512.

(** [self._vectorizer.fit(texts); self._fitted = True] *)
Definition Tfidf_fit (self : TfidfVectorizerWrapper) (texts : list string)
  : result TfidfVectorizerWrapper :=
  v <- sk_fit (_vectorizer self) texts ;;
  Ok (mkTfidf (_max_features self) v true).

Definition Tfidf_transform (self : TfidfVectorizerWrapper)
           (texts : list string) : result matrix :=
  if negb (tfidf_fitted self) then raise NotFitted
  else sk_transform (_vectorizer self) texts.

Definition Tfidf_dim (self : TfidfVectorizerWrapper) : Z :=
  _max_features self.

(** ** Finance-domain embeddings

    The sentence-transformers runtime is external: importing it,
    loading a model and moving it to a device may each raise. *)

Record Model : Type := mkModel {
    get_sentence_embedding_dimension : Z;
    (** [encode(texts, batch_size, normalize_embeddings)]; like the
        other calls into the library it may raise *)
    encode : list string -> Z -> bool -> result matrix
  }.

Record Runtime : Type := mkRuntime {
    (** [from sentence_transformers import SentenceTransformer] *)
    import_sentence_transformers : result unit;
    (** [SentenceTransformer(model_name)] *)
    SentenceTransformer : string -> result Model;
    (** [model.to(device)] *)
    model_to : Model -> string -> result Model
  }.

Record FinanceEmbeddingVectorizer : Type := mkFinance {
    model : Model;
    _dim : Z;
    _normalize : bool;
    _batch_size : Z;
    finance_fitted : bool
  }.

(** Truth value of an [Optional[str]]. *)
Definition truthy (s : option string) : bool :=
  match s with
  | Some (String _ _) => true
  | _ => false
  end.

(** [if device: try: self.model = self.model.to(device)
    except Exception: pass] *)
Definition move_to_device (rt : Runtime) (m : Model)
           (device : option string) : result Model :=
  match device with
  | Some d =>
      if truthy device
      then try_except (model_to rt m d) (fun _ => Ok m)
      else Ok m
  | None => Ok m
  end.

Definition Finance_init (rt : Runtime) (model_name : string)
           (device : option string) (normalize : bool) (batch_size : Z)
  : result FinanceEmbeddingVectorizer :=
  _ <- try_except (import_sentence_transformers rt)
         (fun _ => raise (ImportError
            "sentence-transformers (or torch) not available.")) ;;
  m <- SentenceTransformer rt model_name ;;
  m2 <- move_to_device rt m device ;;
  Ok (mkFinance m2 (get_sentence_embedding_dimension m2)
                normalize batch_size true).

Definition Finance_fit (self : FinanceEmbeddingVectorizer)
           (texts : list string) : result FinanceEmbeddingVectorizer :=
  Ok (mkFinance (model self) (_dim self) (_normalize self)
                (_batch_size self) true).

Definition Finance_transform (self : FinanceEmbeddingVectorizer)
           (texts : list string) : result matrix :=
  if negb (finance_fitted self) then raise NotFitted
  else
    match texts with
    | [] => Ok []                (* np.empty((0, self._dim)) *)
    | _ => encode (model self) texts (_batch_size self) (_normalize self)
    end.

Definition Finance_dim (self : FinanceEmbeddingVectorizer) : Z :=
  _dim self.

(** ** The interface and the factory *)

Inductive BaseVectorizer : Type :=
  | Tfidf (v : TfidfVectorizerWrapper)
  | Finance (v : FinanceEmbeddingVectorizer).

Definition fit (self : BaseVectorizer) (texts : list string)
  : result BaseVectorizer :=
  match self with
  | Tfidf v => v' <- Tfidf_fit v texts ;; Ok (Tfidf v')
  | Finance v => v' <- Finance_fit v texts ;; Ok (Finance v')
  end.

Definition transform (self : BaseVectorizer) (texts : list string)
  : result matrix :=
  match self with
  | Tfidf v => Tfidf_transform v texts
  | Finance v => Finance_transform v texts
  end.

Definition dim (self : BaseVectorizer) : Z :=
  match self with
  | Tfidf v => Tfidf_dim v
  | Finance v => Finance_dim v
  end.

Definition get_vectorizer (rt : Runtime) (prefer_finance : bool)
           (tfidf_dim : Z) (finance_model : string)
           (device : option string) (normalize : bool) (batch_size : Z)
  : result BaseVectorizer :=
  if prefer_finance then
    try_except
      (v <- Finance_init rt finance_model device normalize batch_size ;;
       Ok (Finance v))
      (fun e => raise e)
  else Ok (Tfidf (Tfidf_init tfidf_dim)).

End Sklearn.

(** ** A concrete analyzer

    Lower-cased runs of at least two word characters (letters, digits,
    underscore), without the words of a stop list: the default analyzer of
    the library on ASCII text. *)
Definition is_word_char (c : ascii) : bool :=
  let n := nat_of_ascii c in
  (((48 <=? n) && (n <=? 57)) || ((65 <=? n) && (n <=? 90))
   || ((97 <=? n) && (n <=? 122)) || (n =? 95))%nat.

Definition flush (cur : string) : list string :=
  if (2 <=? String.length cur)%nat then [cur] else [].

Fixpoint tokens (s : string) (cur : string) : list string :=
  match s with
  | EmptyString => flush cur
  | String c s' =>
      if is_word_char c
      then tokens s' (cur ++ String (Str.lower_char c) EmptyString)
      else flush cur ++ tokens s' EmptyString
  end.

Definition word_analyzer (stop_words : list string) (text : string)
  : list string :=
  filter (fun t => negb (existsb (String.eqb t) stop_words))
         (tokens text EmptyString).

(** A few of the English stop words. *)
Definition english_sample : list string := ["the"; "and"; "of"]%string.

(** A model whose [encode] returns, with one row of the model's
    dimension per text. *)
Definition model_well_formed (m : Model) : Prop :=
  forall texts batch normalize,
  exists rows,
    encode m texts batch normalize = Ok rows
    /\ length rows = length texts
    /\ forall row, In row rows ->
         Z.of_nat (length row) = get_sentence_embedding_dimension m.

(** A runtime in which the import of sentence-transformers fails. *)
Definition broken_runtime : Runtime :=
  mkRuntime (Raise (OSError "DLL load failed"))
            (fun _ => Raise (OSError "no model"))
            (fun m _ => Ok m).

End Vectorizer.

(* ================================================================== *)
(** * db.py *)

Module Store.

Local Open Scope Z_scope.

(** A numpy array: its shape and its elements in row-major order. *)
Record ndarray : Type := mkArray {
    shape : list nat;
    data : list R
  }.

Definition ndim (a : ndarray) : nat := length (shape a).

(** [a.shape[k]] *)
Definition shape_at (a : ndarray) (k : nat) : nat := nth k (shape a) 0%nat.

(** Iterating a 2-D array yields its [n] rows of [d] elements each;
    [tolist] turns a row into a list of floats. *)
Fixpoint iter_rows (n d : nat) (elems : list R) : list (list R) :=
  match n with
  | O => []
  | S n' => firstn d elems :: iter_rows n' d (skipn d elems)
  end.

Definition rows_of (a : ndarray) : list (list R) :=
  iter_rows (shape_at a 0) (shape_at a 1) (data a).

(** One row of the table [document_embeddings]. *)
Record Row : Type := mkRow {
    ticker : string;
    doc_id : string;
    content : string;
    period : string;
    embedding : list R
  }.

(** The store: the dimension fixed at construction and the committed
    rows of the table, oldest first. *)
Record VectorStore : Type := mkStore {
    embed_dim : Z;
    table : list Row
  }.

(** [ValueError("Expected embeddings shape (N, dim), got ...")], the
    specification's [DimensionMismatch]. *)
Definition DimensionMismatch : exn :=
  ValueError "Expected embeddings shape (N, embed_dim)".

(** The rows the loop inserts: one per tuple of
    [zip(doc_ids, contents, period, embeddings)]. *)
Definition statements (ticker : string) (doc_ids contents period : list string)
           (embeddings : ndarray) : list Row :=
  map (fun '(doc_id, text, period, emb) =>
         mkRow ticker doc_id text period emb)
      (zip4 doc_ids contents period (rows_of embeddings)).

(** The shape [(N, embed_dim)] of the docstring. *)
Definition has_shape_N_dim (self : VectorStore) (embeddings : ndarray)
  : Prop :=
  exists n d, shape embeddings = [n; d] /\ Z.of_nat d = embed_dim self.

Section Database.

(** The database server is external: whether it takes an [INSERT] of a
    row (constraints, encoding, column type) is a parameter. *)
Variable db_accepts : Row -> bool.

(** The statements run by the cursor inside one transaction: the rows
    executed so far are pending until the block ends. *)
Fixpoint execute_all (pending : list Row) (rows : list Row)
  : result (list Row) :=
  match rows with
  | [] => Ok pending
  | r :: rest =>
      if db_accepts r then execute_all (pending ++ [r]) rest
      else raise (DatabaseError "INSERT refused")
  end.

Definition shape_ok (self : VectorStore) (embeddings : ndarray) : bool :=
  (ndim embeddings =? 2)%nat
  && (Z.of_nat (shape_at embeddings 1) =? embed_dim self).

(** [insert_documents]: the outcome of the call and the store after it.
    [with self._conn] commits when the block ends normally and rolls
    back when it raises. *)
Definition insert_documents (self : VectorStore) (ticker : string)
           (doc_ids contents period : list string) (embeddings : ndarray)
  : result unit * VectorStore :=
  if negb (ndim embeddings =? 2)%nat
     || negb (Z.of_nat (shape_at embeddings 1) =? embed_dim self)
  then (raise DimensionMismatch, self)
  else
    match execute_all []
            (statements ticker doc_ids contents period embeddings) with
    | Ok pending =>
        (Ok tt, mkStore (embed_dim self) (table self ++ pending))
    | Raise e => (Raise e, self)
    end.

End Database.

End Store.

(* ================================================================== *)
(** * firm_sim_by_period.py *)

Module FirmSim.

Local Open Scope R_scope.

Definition vector := list R.

(** ** numpy and scikit-learn operations used by [main] *)

Definition dot (a b : vector) : R :=
  fold_right Rplus 0 (map (fun p => fst p * snd p) (combine a b)).

Definition l2_norm (a : vector) : R := sqrt (dot a a).

(** [sklearn.preprocessing.normalize]: a row is divided by its Euclidean
    norm; a norm below ten times the machine epsilon of float64
    ([2 ^ -52]) is replaced by one, so a zero row stays. *)
Definition normalize (a : vector) : vector :=
  let n := l2_norm a in
  let n' := if Rlt_dec n (10 * / 2 ^ 52) then 1 else n in
  map (fun x => x / n') a.

(** [cosine_similarity(a.reshape(1,-1), b.reshape(1,-1))[0,0]]: the two
    rows must have the same number of features, at least one; the value
    is the dot product of the normalised rows. *)
Definition cosine_similarity (a b : vector) : result R :=
  if (length a =? 0)%nat then
    raise (ValueError "Found array with 0 feature(s)")
  else if negb (length a =? length b)%nat then
    raise (ValueError "Incompatible dimension for X and Y matrices")
  else Ok (dot (normalize a) (normalize b)).

(** [np.vstack] of 1-D arrays: they must all have the same length. *)
Definition vstack (vs : list vector) : result (list vector) :=
  match vs with
  | [] => raise (ValueError "need at least one array to concatenate")
  | v :: rest =>
      if forallb (fun w => (length w =? length v)%nat) rest then Ok vs
      else raise (ValueError "all the input array dimensions must match")
  end.

Definition vadd (a b : vector) : vector :=
  map (fun p => fst p + snd p) (combine a b).

(** [m.mean(axis=0)] of a matrix with at least one row. *)
Definition mean_axis0 (m : list vector) : vector :=
  match m with
  | [] => []
  | v :: rest =>
      map (fun s => s / INR (length m)) (fold_left vadd rest v)
  end.

(** ** The two tables read by [main] *)

(** transcripts_clean.csv: [period] may be missing. *)
Record MetaRow : Type := mkMeta {
    source_file : string;
    meta_ticker : string;
    meta_period : option string
  }.

(** document_embeddings.csv: the [embedding] cell, when present, is the
    literal of a list of floats, held here as the list [parse_emb]
    reads from it. *)
Record DocRow : Type := mkDoc {
    doc_id : string;
    embedding : option (list R);
    doc_ticker : string
  }.

(** A row of [merged]: [ticker_x] is the ticker of the metadata side. *)
Record MergedRow : Type := mkMerged {
    period : option string;
    ticker_x : string;
    merged_embedding : option (list R)
  }.

Record SimilarityRecord : Type := mkSim {
    sim_period : string;
    ticker1 : string;
    ticker2 : string;
    sim_value : R
  }.

(** [meta.merge(docs, left_on=..., right_on=..., how="inner")]: the rows
    of the left table in their order, each paired with every matching
    row of the right table. *)
Definition merge (meta : list MetaRow) (docs : list DocRow)
  : list MergedRow :=
  flat_map (fun m =>
    flat_map (fun d =>
      if String.eqb (Str.lower (source_file m)) (Str.lower (doc_id d))
      then [mkMerged (meta_period m) (meta_ticker m) (embedding d)]
      else [])
    docs)
  meta.

(** [merged[merged["embedding"].notna()]] *)
Definition notna_embedding (rows : list MergedRow) : list MergedRow :=
  filter (fun r => match merged_embedding r with
                   | Some _ => true | None => false end) rows.

(** The column [vec]. *)
Definition vec (r : MergedRow) : vector :=
  match merged_embedding r with Some v => v | None => [] end.

Definition period_is (p : string) (r : MergedRow) : bool :=
  match period r with
  | Some q => String.eqb p q
  | None => false
  end.

(** [merged.groupby("period")]: one group per distinct period that is not
    missing, in ascending order of the key; a group keeps its rows in
    table order. *)
Definition group_keys (rows : list MergedRow) : list string :=
  isort String.leb
    (nodup string_dec
       (flat_map (fun r => match period r with
                           | Some p => [p] | None => [] end) rows)).

Definition groupby_period (rows : list MergedRow)
  : list (string * list MergedRow) :=
  map (fun p => (p, filter (period_is p) rows)) (group_keys rows).

Definition has_ticker (t : string) (sub : list MergedRow) : bool :=
  existsb (fun r => String.eqb (ticker_x r) t) sub.

(** [{"KO", "PEP"}.issubset(tickers)] *)
Definition qualifies (sub : list MergedRow) : bool :=
  has_ticker "KO" sub && has_ticker "PEP" sub.

(** [np.vstack(sub[sub["ticker_x"] == t]["vec"].values).mean(axis=0)] *)
Definition firm_vec (t : string) (sub : list MergedRow) : result vector :=
  m <- vstack (map vec (filter (fun r => String.eqb (ticker_x r) t) sub)) ;;
  Ok (mean_axis0 m).

(** The body of the loop for one group: [None] is [continue]. *)
Definition period_record (p : string) (sub : list MergedRow)
  : result (option SimilarityRecord) :=
  if negb (qualifies sub) then Ok None
  else
    ko <- firm_vec "KO" sub ;;
    pep <- firm_vec "PEP" sub ;;
    sim <- cosine_similarity ko pep ;;
    Ok (Some (mkSim p "KO" "PEP" sim)).

Fixpoint loop (groups : list (string * list MergedRow))
         (rows : list SimilarityRecord) : result (list SimilarityRecord) :=
  match groups with
  | [] => Ok rows
  | (p, sub) :: rest =>
      r <- period_record p sub ;;
      match r with
      | None => loop rest rows
      | Some rec => loop rest (rows ++ [rec])
      end
  end.

(** [pd.DataFrame(rows).sort_values("period")]: a frame built from no
    row has no column to sort by. *)
Definition sort_values_period (rows : list SimilarityRecord)
  : result (list SimilarityRecord) :=
  match rows with
  | [] => raise (KeyError "period")
  | _ => Ok (isort (fun r s => String.leb (sim_period r) (sim_period s))
                   rows)
  end.

(** [main]: the rows written to the output file. *)
Definition main (meta : list MetaRow) (docs : list DocRow)
  : result (list SimilarityRecord) :=
  let merged := notna_embedding (merge meta docs) in
  rows <- loop (groupby_period merged) [] ;;
  sort_values_period rows.

(** The records a run puts in the output file: none when it raises. *)
Definition emitted (out : result (list SimilarityRecord))
  : list SimilarityRecord :=
  match out with Ok rows => rows | Raise _ => [] end.

(** Every embedding of the export has [d] entries: the dimension is fixed
    for a run of the pipeline. *)
Definition fixed_dimension (d : nat) (docs : list DocRow) : Prop :=
  forall doc v, In doc docs -> embedding doc = Some v -> length v = d.

(** Entity [t] has a document vector in period [p]: a transcript of [t]
    in [p] whose file name, case apart, is the id of a stored embedding. *)
Definition has_vector (meta : list MetaRow) (docs : list DocRow)
           (t p : string) : Prop :=
  exists m doc v,
    In m meta /\ In doc docs
    /\ Str.lower (source_file m) = Str.lower (doc_id doc)
    /\ meta_ticker m = t /\ meta_period m = Some p
    /\ embedding doc = Some v.

(** The scenario of the specification: KO reports in both quarters, PEP
    in the second only; file names differ in case between the tables. *)
Definition sample_meta : list MetaRow :=
  [mkMeta "KO_Q1.pdf" "KO" (Some "2020Q1"%string);
   mkMeta "KO_Q2.pdf" "KO" (Some "2020Q2"%string);
   mkMeta "PEP_Q2.pdf" "PEP" (Some "2020Q2"%string)].

Definition sample_docs : list DocRow :=
  [mkDoc "ko_q1.pdf" (Some [1; 0]) "KO";
   mkDoc "ko_q2.pdf" (Some [1; 1]) "KO";
   mkDoc "pep_q2.pdf" (Some [0; 1]) "PEP"].

End FirmSim.

(* ================================================================== *)
(** * The similarity in IEEE 754 binary64

    What [cosine_similarity] returns is a float64.  For statements about
    the value itself the arithmetic below is that of binary64, with
    rounding to nearest even, overflow to the infinities and one NaN: the
    operations of the Standard Library's [SpecFloat] at 53 bits of
    precision. *)

Module Binary64.
Import SpecFloat.

Definition prec : Z := 53.
Definition emax : Z := 1024.

Definition float : Type := spec_float.

Definition add : float -> float -> float := SFadd prec emax.
Definition mul : float -> float -> float := SFmul prec emax.
Definition div : float -> float -> float := SFdiv prec emax.
Definition sqrt : float -> float := SFsqrt prec emax.
Definition ltb : float -> float -> bool := SFltb.
Definition leb : float -> float -> bool := SFleb.

(** The float nearest to [m * 2 ^ e]. *)
Definition of_scaled (m e : Z) : float :=
  binary_normalize prec emax m e false.

Definition zero : float := S754_zero false.
Definition one : float := of_scaled 1 0.

(** [np.finfo(np.float64).eps] *)
Definition eps : float := of_scaled 1 (-52).


(** Neither an infinity nor NaN. *)
Definition is_finite (x : float) : bool :=
  match x with
  | S754_zero _ | S754_finite _ _ _ => true
  | _ => false
  end.

Definition is_nan (x : float) : bool :=
  match x with S754_nan => true | _ => false end.



End Binary64.

Module FirmSim64.

Definition vector := list Binary64.float.

(** The sum of the products, taken from the first feature on. *)
Definition dot (a b : vector) : Binary64.float :=
  fold_left (fun acc p => Binary64.add acc (Binary64.mul (fst p) (snd p)))
            (combine a b) Binary64.zero.

(** [row_norms]: the square root of the sum of the squares. *)
Definition l2_norm (a : vector) : Binary64.float :=
  Binary64.sqrt (dot a a).

(** [_handle_zeros_in_scale]: a norm below [10 * eps] is replaced by 1. *)
Definition handle_zeros_in_scale (n : Binary64.float) : Binary64.float :=
  if Binary64.ltb n (Binary64.mul (Binary64.of_scaled 10 0) Binary64.eps)
  then Binary64.one
  else n.

(** [sklearn.preprocessing.normalize] of one row. *)
Definition normalize (a : vector) : vector :=
  let n := handle_zeros_in_scale (l2_norm a) in
  map (fun x => Binary64.div x n) a.

(** [check_array] on one row: no NaN, no infinity, at least one feature. *)
Definition check_array (a : vector) : result unit :=
  if existsb Binary64.is_nan a then
    raise (ValueError "Input contains NaN.")
  else if negb (forallb Binary64.is_finite a) then
    raise (ValueError "Input contains infinity or a value too large for dtype('float64').")
  else if (length a =? 0)%nat then
    raise (ValueError "Found array with 0 feature(s)")
  else Ok tt.

(** [cosine_similarity(a.reshape(1,-1), b.reshape(1,-1))[0,0]]: both rows
    are checked, the first one first, then their dimensions are compared. *)
Definition cosine_similarity (a b : vector) : result Binary64.float :=
  _ <- check_array a ;;
  _ <- check_array b ;;
  if negb (length a =? length b)%nat then
    raise (ValueError "Incompatible dimension for X and Y matrices")
  else Ok (dot (normalize a) (normalize b)).



(** Every entry is a number: no infinity, no NaN. *)
Definition finite_vector (a : vector) : Prop :=
  forall x, In x a -> Binary64.is_finite x = true.







End FirmSim64.

(* ================================================================== *)
(** * comovement_new.py *)

Module Comovement.

Local Open Scope R_scope.

(** ** float64 with its special values

    Finite values are real numbers (no rounding, no overflow, one zero);
    the infinities and NaN are kept, since the code clips and drops them
    on purpose. *)
Inductive float64 : Type :=
| Finite (x : R)
| PosInf
| NegInf
| NaN.

Inductive sign : Type := Neg | Zero | Pos.

Definition sign_of (x : R) : sign :=
  match total_order_T x 0 with
  | inleft (left _) => Neg
  | inleft (right _) => Zero
  | inright _ => Pos
  end.

Definition fneg (a : float64) : float64 :=
  match a with
  | Finite x => Finite (- x)
  | PosInf => NegInf
  | NegInf => PosInf
  | NaN => NaN
  end.

Definition fadd (a b : float64) : float64 :=
  match a, b with
  | NaN, _ | _, NaN => NaN
  | Finite x, Finite y => Finite (x + y)
  | PosInf, NegInf | NegInf, PosInf => NaN
  | PosInf, _ | _, PosInf => PosInf
  | NegInf, _ | _, NegInf => NegInf
  end.

Definition fsub (a b : float64) : float64 := fadd a (fneg b).

(** An infinity of the sign of [s]; NaN for no sign. *)
Definition inf_of (s : sign) : float64 :=
  match s with Pos => PosInf | Neg => NegInf | Zero => NaN end.

Definition fsign (a : float64) : option sign :=
  match a with
  | Finite x => Some (sign_of x)
  | PosInf => Some Pos
  | NegInf => Some Neg
  | NaN => None
  end.

Definition sign_mul (s t : sign) : sign :=
  match s, t with
  | Zero, _ | _, Zero => Zero
  | Pos, Pos | Neg, Neg => Pos
  | _, _ => Neg
  end.

Definition fmul (a b : float64) : float64 :=
  match a, b with
  | Finite x, Finite y => Finite (x * y)
  | _, _ =>
      match fsign a, fsign b with
      | Some s, Some t => inf_of (sign_mul s t)
      | _, _ => NaN
      end
  end.

Definition fdiv (a b : float64) : float64 :=
  match a, b with
  | NaN, _ | _, NaN => NaN
  | Finite x, Finite y =>
      match sign_of y with
      | Zero => inf_of (sign_of x)            (* x/0: an infinity, 0/0: NaN *)
      | _ => Finite (x / y)
      end
  | Finite _, _ => Finite 0
  | _, Finite y =>
      match sign_of y, a with
      | Neg, _ => fneg a
      | _, _ => a
      end
  | _, _ => NaN                               (* inf/inf *)
  end.

(** [np.log] *)
Definition flog (a : float64) : float64 :=
  match a with
  | Finite x =>
      match sign_of x with
      | Pos => Finite (ln x)
      | Zero => NegInf
      | Neg => NaN
      end
  | PosInf => PosInf
  | _ => NaN
  end.

(** [np.tanh] *)
Definition ftanh (a : float64) : float64 :=
  match a with
  | Finite x => Finite (tanh x)
  | PosInf => Finite 1
  | NegInf => Finite (-1)
  | NaN => NaN
  end.

Definition isna (a : float64) : bool :=
  match a with NaN => true | _ => false end.

Definition notna (a : float64) : bool := negb (isna a).

(** A value of [Series.clip(lower, upper)]; NaN stays NaN. *)
Definition clip (lower upper : R) (a : float64) : float64 :=
  match a with
  | NaN => NaN
  | PosInf => Finite upper
  | NegInf => Finite lower
  | Finite x =>
      if Rlt_dec x lower then Finite lower
      else if Rlt_dec upper x then Finite upper
      else Finite x
  end.

(** ** Series and frames *)

(** A pandas Series: index labels (dates, as day numbers) with values. *)
Definition Series := list (Z * float64).

Definition index (s : Series) : list Z := map fst s.

(** A frame with the two columns [a] and [b]. *)
Definition Frame := list (Z * float64 * float64).

Definition frame_index (df : Frame) : list Z := map (fun r => fst (fst r)) df.

(** ** Math helpers *)

Definition fisher_z1 (r : float64) : float64 :=
  let r' := clip (-0.999999) 0.999999 r in
  fmul (Finite 0.5)
       (flog (fdiv (fadd (Finite 1) r') (fsub (Finite 1) r'))).

Definition fisher_z (series : Series) : Series :=
  map (fun p => (fst p, fisher_z1 (snd p))) series.

Definition fisher_inv (z : float64) : float64 := ftanh z.

(** The same transform without the clip, for comparison. *)
Definition fisher_z_unclipped (r : float64) : float64 :=
  fmul (Finite 0.5)
       (flog (fdiv (fadd (Finite 1) r) (fsub (Finite 1) r))).

(** ** Log returns *)

Fixpoint diff_from (prev : float64) (s : Series) : Series :=
  match s with
  | [] => []
  | (d, v) :: s' => (d, fsub v prev) :: diff_from v s'
  end.

(** [Series.diff()]: no value at the first label. *)
Definition diff (s : Series) : Series :=
  match s with
  | [] => []
  | (d, v) :: s' => (d, NaN) :: diff_from v s'
  end.

(** [np.log(px).diff()] *)
Definition to_log_returns (px : Series) : Series :=
  diff (map (fun p => (fst p, flog (snd p))) px).

(** ** Rolling correlation *)

(** The value at label [d]; a label the series lacks reads as NaN. *)
Fixpoint get (s : Series) (d : Z) : float64 :=
  match s with
  | [] => NaN
  | (d', v) :: s' => if Z.eqb d d' then v else get s' d
  end.

Fixpoint has_dup (l : list Z) : bool :=
  match l with
  | [] => false
  | x :: l' => existsb (Z.eqb x) l' || has_dup l'
  end.

Definition same_index (a b : Series) : bool :=
  if list_eq_dec Z.eq_dec (index a) (index b) then true else false.

(** The labels of both indexes, each once, in ascending order. *)
Definition union_index (a b : Series) : list Z :=
  isort Z.leb (nodup Z.eq_dec (index a ++ index b)).

(** [pd.concat([a, b], axis=1)]: an outer join on the index.  Equal
    indexes are taken as they are; otherwise both series are re-indexed on
    the ascending union of their labels, which pandas refuses when a
    label is repeated. *)
Definition concat_axis1 (a b : Series) : result Frame :=
  if same_index a b then
    Ok (map (fun p => (fst (fst p), snd (fst p), snd (snd p))) (combine a b))
  else if has_dup (index a) || has_dup (index b) then
    raise (OtherException "InvalidIndexError"
             "Reindexing only valid with uniquely valued Index objects")
  else
    Ok (map (fun d => (d, get a d, get b d)) (union_index a b)).

(** [df.dropna()] *)
Definition dropna (df : Frame) : Frame :=
  filter (fun r => notna (snd (fst r)) && notna (snd r)) df.

(** [series.dropna()] *)
Definition dropna_series (s : Series) : Series :=
  filter (fun p => notna (snd p)) s.

Definition finite_value (a : float64) : option R :=
  match a with Finite x => Some x | _ => None end.

Fixpoint all_finite (l : list float64) : option (list R) :=
  match l with
  | [] => Some []
  | a :: l' =>
      match finite_value a, all_finite l' with
      | Some x, Some xs => Some (x :: xs)
      | _, _ => None
      end
  end.

Definition Rsum (l : list R) : R := fold_right Rplus 0 l.

Definition mean (l : list R) : R := Rsum l / INR (length l).

(** Pearson correlation of one window, as pandas computes it from rolling
    means with one degree of freedom removed. *)
Definition pearson (xs ys : list R) : float64 :=
  let n := INR (length xs) in
  let k := fdiv (Finite n) (Finite (n - 1)) in
  let prod := map (fun p => fst p * snd p) (combine xs ys) in
  let cov := fmul (Finite (mean prod - mean xs * mean ys)) k in
  let var l := fmul (Finite (mean (map (fun x => x * x) l)
                              - mean l * mean l)) k in
  match fmul (var xs) (var ys) with
  | Finite v => fdiv cov (Finite (sqrt v))
  | _ => NaN
  end.

(** The rows of the window that ends at position [i]. *)
Definition window_rows (df : Frame) (w i : nat) : Frame :=
  firstn w (skipn (i + 1 - w) df).

(** [df["a"].rolling(window).corr(df["b"])] at position [i]:
    NaN until [window] observations are there ([min_periods = window]). *)
Definition rolling_at (df : Frame) (w i : nat) : float64 :=
  if (i + 1 <? w)%nat then NaN
  else
    let rows := window_rows df w i in
    match all_finite (map (fun r => snd (fst r)) rows),
          all_finite (map snd rows) with
    | Some xs, Some ys =>
        match xs with
        | [] => NaN
        | _ => pearson xs ys
        end
    | _, _ => NaN
    end.

Definition rolling_corr (df : Frame) (window : Z) : result Series :=
  if (window <? 0)%Z then
    raise (ValueError "window must be an integer 0 or greater")
  else
    Ok (combine (frame_index df)
                (map (rolling_at df (Z.to_nat window))
                     (seq 0 (length df)))).

(** [ValueError("Not enough overlapping data for a ...-day window ...")],
    the specification's [InsufficientOverlap]. *)
Definition InsufficientOverlap : exn :=
  ValueError "Not enough overlapping data for the window".

(** The frame [df] of [compute_rolling_corr]. *)
Definition overlap_frame (ret_a ret_b : Series) : result Frame :=
  df <- concat_axis1 ret_a ret_b ;;
  Ok (dropna df).

Definition compute_rolling_corr (ret_a ret_b : Series) (window : Z)
  : result Series :=
  df <- overlap_frame ret_a ret_b ;;
  if (Z.of_nat (length df) <? window)%Z then raise InsufficientOverlap
  else
    rho <- rolling_corr df window ;;
    Ok (dropna_series rho).

(** The number of observations the two series share: labels of [ret_a]
    at which both series hold a value. *)
Definition overlap_count (ret_a ret_b : Series) : nat :=
  length (filter (fun p => notna (snd p) && notna (get ret_b (fst p)))
                 ret_a).

(** Two short return series: the first day has no return (the [diff] of
    the first price), three days are shared. *)
Definition sample_returns_a : Series :=
  [(1%Z, NaN); (2%Z, Finite 1); (3%Z, Finite 2); (4%Z, Finite 4)].

Definition sample_returns_b : Series :=
  [(1%Z, NaN); (2%Z, Finite 2); (3%Z, Finite 1); (4%Z, Finite 3);
   (5%Z, Finite 5)].

End Comovement.

(* ================================================================== *)
(** * pdf_reader.py *)

Module PdfReader.

Local Open Scope string_scope.
Local Open Scope nat_scope.

Record Document : Type := mkDocument {
  ticker : string;
  doc_id : string;
  text : string;
  period : string
}.

(** ** The directory tree

    A PDF file is the list of what [extract_text()] gives for each of its
    pages: [None] where the library finds no text.  Files that the PDF
    library cannot open are outside the model. *)
Record File : Type := mkFile {
  file_name : string;
  pages : list (option string)
}.

Record Entry : Type := mkEntry {
  name : string;
  is_dir : bool;
  files : list File
}.

(** ** String operations of Python used by the module *)

Definition code (c : ascii) : nat := nat_of_ascii c.

(** [str.isspace] on one character, for code points below 256. *)
Definition is_space (c : ascii) : bool :=
  let n := code c in
  ((9 <=? n) && (n <=? 13)) || ((28 <=? n) && (n <=? 32))
  || (n =? 133) || (n =? 160).

(** [\d] of the [re] module, for code points below 256. *)
Definition is_digit (c : ascii) : bool :=
  let n := code c in (48 <=? n) && (n <=? 57).

(** The class [[1-4]]. *)
Definition is_quarter_digit (c : ascii) : bool :=
  let n := code c in (49 <=? n) && (n <=? 52).

Fixpoint lstrip (s : string) : string :=
  match s with
  | EmptyString => EmptyString
  | String c s' => if is_space c then lstrip s' else s
  end.

Fixpoint rstrip (s : string) : string :=
  match s with
  | EmptyString => EmptyString
  | String c s' =>
      match rstrip s' with
      | EmptyString => if is_space c then EmptyString else String c EmptyString
      | t => String c t
      end
  end.

(** [str.strip()] *)
Definition strip (s : string) : string := rstrip (lstrip s).

(** [name.endswith(suffix)] *)
Definition endswith (s suffix : string) : bool :=
  let n := String.length s in
  let k := String.length suffix in
  (k <=? n) && String.eqb (substring (n - k) k s) suffix.

(** The pattern [Q[1-4] \d{4}] anchored at the start of [s]: the text it
    matches there. *)
Definition match_here (s : string) : option string :=
  match s with
  | String q (String c (String sp (String d1 (String d2
      (String d3 (String d4 _)))))) =>
      if Ascii.eqb q "Q" && is_quarter_digit c && Ascii.eqb sp " "
         && is_digit d1 && is_digit d2 && is_digit d3 && is_digit d4
      then Some (String q (String c (String sp (String d1 (String d2
                   (String d3 (String d4 EmptyString)))))))
      else None
  | _ => None
  end.

(** [re.search(r'(Q[1-4] \d{4})', text)]: the match that starts first. *)
Fixpoint search (s : string) : option string :=
  match match_here s with
  | Some m => Some m
  | None =>
      match s with
      | EmptyString => None
      | String _ s' => search s'
      end
  end.

(** ** The module's functions *)

Definition newline : string := String (ascii_of_nat 10) EmptyString.

(** [page.extract_text() or ""] for every page, joined by newlines. *)
Definition extract_text_from_pdf (f : File) : string :=
  String.concat newline
    (map (fun p => match p with Some t => t | None => "" end) (pages f)).

Definition period_of (text : string) : string :=
  match search text with
  | Some m => m
  | None => ""
  end.

(** [sorted(ticker_dir.glob("*.pdf"))] *)
Definition glob_pdf (d : Entry) : list File :=
  isort (fun f g => String.leb (file_name f) (file_name g))
        (filter (fun f => endswith (file_name f) ".pdf") (files d)).

(** What the loop yields for one file. *)
Definition document_of (ticker : string) (f : File) : list Document :=
  let text := extract_text_from_pdf f in
  match strip text with
  | EmptyString => []
  | _ => [mkDocument ticker (file_name f) text (period_of text)]
  end.

(** [iter_documents(root_dir)], with the generator read to its end;
    [root] lists the entries of the root directory. *)
Definition iter_documents (root : list Entry) : list Document :=
  flat_map
    (fun d =>
       if negb (is_dir d) then []
       else flat_map (document_of (Str.upper (name d))) (glob_pdf d))
    (isort (fun d e => String.leb (name d) (name e)) root).

(** ** The specification's words *)

(** A text made of whitespace only (the empty text included). *)
Fixpoint whitespace_only (s : string) : bool :=
  match s with
  | EmptyString => true
  | String c s' => is_space c && whitespace_only s'
  end.

(** A quarter label: [Q], a digit from 1 to 4, a space, four digits. *)
Definition is_period_label (m : string) : Prop :=
  exists c d1 d2 d3 d4,
    m = String "Q" (String c (String " " (String d1 (String d2
          (String d3 (String d4 EmptyString))))))
    /\ is_quarter_digit c = true
    /\ is_digit d1 = true /\ is_digit d2 = true
    /\ is_digit d3 = true /\ is_digit d4 = true.

(** [m] occurs in [s] after [pre]. *)
Definition occurs_at (pre m s : string) : Prop :=
  exists post, s = pre ++ m ++ post.

(** [m] is the first substring of [s] that is a quarter label. *)
Definition first_period_label (s m : string) : Prop :=
  exists pre,
    occurs_at pre m s /\ is_period_label m
    /\ forall pre' m', occurs_at pre' m' s -> is_period_label m' ->
         String.length pre <= String.length pre'.

Definition no_period_label (s : string) : Prop :=
  forall pre m, occurs_at pre m s -> ~ is_period_label m.

(** A small tree: two entity directories and a stray file. *)
Definition sample_transcript : File :=
  mkFile "call.pdf"
         [Some "PepsiCo Q2 2021 results"; None; Some "Outlook for Q3 2021"].

Definition sample_root : list Entry :=
  [mkEntry "pep" true [sample_transcript];
   mkEntry "ko" true
     [mkFile "scan.pdf" [None; Some "  "];
      mkFile "notes.txt" [Some "Q1 2020"];
      mkFile "call.pdf" [Some "Coca-Cola earnings call"]];
   mkEntry "README.md" false []].

End PdfReader.

(* ================================================================== *)
(** * pipeline.py *)

Module Pipeline.

(** ** Python and numpy operations used by the module *)

Definition IndexError (msg : string) : exn := OtherException "IndexError" msg.

(** [f(x) for x in l], stopping at the first call that raises. *)
Fixpoint traverse {A B : Type} (f : A -> result B) (l : list A)
  : result (list B) :=
  match l with
  | [] => Ok []
  | x :: l' => y <- f x ;; ys <- traverse f l' ;; Ok (y :: ys)
  end.

(** [l[i]] for an index that is not negative. *)
Definition getitem {A : Type} (l : list A) (i : nat) : result A :=
  match nth_error l i with
  | Some x => Ok x
  | None => raise (IndexError "list index out of range")
  end.

(** The element at index [i], as a list of one element at most. *)
Definition select {A : Type} (l : list A) (i : nat) : list A :=
  match nth_error l i with Some x => [x] | None => [] end.

(** [enumerate(l)] *)
Definition enumerate {A : Type} (l : list A) : list (nat * A) :=
  combine (seq 0 (length l)) l.

(** The number of elements in one entry of the first axis. *)
Definition block_size (a : Store.ndarray) : nat :=
  fold_right Nat.mul 1 (tl (Store.shape a)).

(** [a[i]], flattened. *)
Definition block (a : Store.ndarray) (i : nat) : list R :=
  firstn (block_size a) (skipn (i * block_size a) (Store.data a)).

(** [a[indices, :]] for a list of indices that are not negative: the
    array needs two axes at least, and every index must be within the
    first. *)
Definition take_rows (a : Store.ndarray) (indices : list nat)
  : result Store.ndarray :=
  match Store.shape a with
  | n :: d :: rest =>
      if forallb (fun i => i <? n) indices
      then Ok (Store.mkArray (length indices :: d :: rest)
                 (flat_map (block a) indices))
      else raise (IndexError "index is out of bounds for axis 0")
  | _ => raise (IndexError "too many indices for array")
  end.

(** A numpy array holds as many elements as its shape says. *)
Definition well_formed (a : Store.ndarray) : Prop :=
  length (Store.data a) = fold_right Nat.mul 1 (Store.shape a).

(** ** The dictionary [ticker_to_indices]

    A [defaultdict(list)], as the list of its items in insertion order. *)
Fixpoint append_index (t : string) (idx : nat)
         (groups : list (string * list nat)) : list (string * list nat) :=
  match groups with
  | [] => [(t, [idx])]
  | (t', l) :: rest =>
      if String.eqb t t' then (t', l ++ [idx]) :: rest
      else (t', l) :: append_index t idx rest
  end.

Definition ticker_to_indices (docs : list PdfReader.Document)
  : list (string * list nat) :=
  fold_left (fun groups p => append_index (PdfReader.ticker (snd p)) (fst p)
                                          groups)
            (enumerate docs) [].

Section Steps.

Variable analyze : string -> list string.
Variable tfidf_weight :
  list (list string) -> list string -> list string -> string -> R.
Variable db_accepts : Store.Row -> bool.

(** [build_corpus]: [data_dir] lists the entries of [DATA_DIR]. *)
Definition build_corpus (data_dir : list PdfReader.Entry)
  : list PdfReader.Document :=
  PdfReader.iter_documents data_dir.

(** [fit_vectorizer]; [tfidf_fallback_dim] is [TFIDF_FALLBACK_DIM] of the
    configuration, the other arguments of the factory are its defaults. *)
Definition fit_vectorizer (rt : Vectorizer.Runtime) (tfidf_fallback_dim : Z)
           (docs : list PdfReader.Document)
  : result Vectorizer.BaseVectorizer :=
  let texts := map PdfReader.text docs in
  vec <- Vectorizer.get_vectorizer rt true tfidf_fallback_dim
           "FinLang/finance-embeddings-investopedia" None true 32 ;;
  Vectorizer.fit analyze vec texts.

Definition embed_documents (vec : Vectorizer.BaseVectorizer)
           (docs : list PdfReader.Document) : result Vectorizer.matrix :=
  let texts := map PdfReader.text docs in
  Vectorizer.transform analyze tfidf_weight vec texts.

(** The body of the loop of [store_embeddings] for one ticker: the
    arguments of the call to [insert_documents]. *)
Definition group_batch (docs : list PdfReader.Document)
           (embeddings : Store.ndarray) (indices : list nat)
  : result (list PdfReader.Document * Store.ndarray) :=
  sub_docs <- traverse (getitem docs) indices ;;
  sub_embeddings <- take_rows embeddings indices ;;
  Ok (sub_docs, sub_embeddings).

Fixpoint store_groups (store : Store.VectorStore)
         (groups : list (string * list nat))
         (docs : list PdfReader.Document) (embeddings : Store.ndarray)
  : result unit * Store.VectorStore :=
  match groups with
  | [] => (Ok tt, store)
  | (ticker, indices) :: rest =>
      match group_batch docs embeddings indices with
      | Raise e => (Raise e, store)
      | Ok (sub_docs, sub_embeddings) =>
          match Store.insert_documents db_accepts store ticker
                  (map PdfReader.doc_id sub_docs)
                  (map PdfReader.text sub_docs)
                  (map PdfReader.period sub_docs)
                  sub_embeddings with
          | (Ok _, store') => store_groups store' rest docs embeddings
          | (Raise e, store') => (Raise e, store')
          end
      end
  end.

(** [store_embeddings]: the outcome and the store after it. *)
Definition store_embeddings (store : Store.VectorStore)
           (docs : list PdfReader.Document) (embeddings : Store.ndarray)
  : result unit * Store.VectorStore :=
  store_groups store (ticker_to_indices docs) docs embeddings.

(** The rows one ticker contributes when its batch can be built. *)
Definition group_rows (docs : list PdfReader.Document)
           (embeddings : Store.ndarray) (g : string * list nat)
  : list Store.Row :=
  match group_batch docs embeddings (snd g) with
  | Ok (sub_docs, sub_embeddings) =>
      Store.statements (fst g) (map PdfReader.doc_id sub_docs)
        (map PdfReader.text sub_docs) (map PdfReader.period sub_docs)
        sub_embeddings
  | Raise _ => []
  end.

End Steps.

(** The row that pairs a document with its embedding. *)
Definition document_row (doc : PdfReader.Document) (emb : list R)
  : Store.Row :=
  Store.mkRow (PdfReader.ticker doc) (PdfReader.doc_id doc)
              (PdfReader.text doc) (PdfReader.period doc) emb.

(** One row per document, each with the row of the matrix at the
    document's position. *)
Definition document_rows (docs : list PdfReader.Document)
           (embeddings : Store.ndarray) : list Store.Row :=
  map (fun p => document_row (fst p) (snd p))
      (combine docs (Store.rows_of embeddings)).

(** Three documents of two tickers, interleaved, and their embeddings. *)
Definition sample_docs : list PdfReader.Document :=
  [PdfReader.mkDocument "KO" "k1.pdf" "first" "Q1 2020";
   PdfReader.mkDocument "PEP" "p1.pdf" "second" "Q1 2020";
   PdfReader.mkDocument "KO" "k2.pdf" "third" "Q2 2020"].

Definition sample_embeddings : Store.ndarray :=
  Store.mkArray [3; 2] [1; 0; 0; 1; 1; 1]%R.

(** A model of dimension 2 and a runtime that loads it. *)
Definition sample_model : Vectorizer.Model :=
  Vectorizer.mkModel 2 (fun texts _ _ => Ok (map (fun _ => [1; 0]%R) texts)).

Definition sample_runtime : Vectorizer.Runtime :=
  Vectorizer.mkRuntime (Ok tt) (fun _ => Ok sample_model)
                       (fun m _ => Ok m).

End Pipeline.

(* ================================================================== *)
(** * similarity_lineplot.py *)

Module Lineplot.
Import FirmSim.

Local Open Scope R_scope.

(** [avg_vec(ticker)] of the loop, for the rows [group] of one period. *)
Definition avg_vec (group : list MergedRow) (ticker : string)
  : result vector :=
  m <- vstack (map vec (filter (fun r => String.eqb (ticker_x r) ticker)
                               group)) ;;
  Ok (mean_axis0 m).

(** The body of the loop for one period; a row is the pair of its
    [period] and its [similarity]. *)
Definition period_row (p : string) (group : list MergedRow)
  : result (option (string * R)) :=
  if negb (has_ticker "KO" group && has_ticker "PEP" group) then Ok None
  else
    ko_vec <- avg_vec group "KO" ;;
    pep_vec <- avg_vec group "PEP" ;;
    sim <- cosine_similarity ko_vec pep_vec ;;
    Ok (Some (p, sim)).

Fixpoint loop (groups : list (string * list MergedRow))
         (rows : list (string * R)) : result (list (string * R)) :=
  match groups with
  | [] => Ok rows
  | (p, group) :: rest =>
      r <- period_row p group ;;
      match r with
      | None => loop rest rows
      | Some row => loop rest (rows ++ [row])
      end
  end.

(** [compute_similarity_timeseries]: the rows of the frame returned. *)
Definition compute_similarity_timeseries (meta : list MetaRow)
           (docs : list DocRow) : result (list (string * R)) :=
  let merged := notna_embedding (merge meta docs) in
  rows <- loop (groupby_period merged) [] ;;
  match rows with
  | [] => raise (KeyError "period")
  | _ => Ok (isort (fun r s => String.leb (fst r) (fst s)) rows)
  end.

(** The row of the series for a record of firm_sim_by_period.py. *)
Definition series_point (r : SimilarityRecord) : string * R :=
  (sim_period r, sim_value r).

End Lineplot.

(* ================================================================== *)
(** * heatmap_updated.py *)

Module Heatmap.
Import FirmSim.

Local Open Scope R_scope.

(** [(merged["period"] == period) & merged["embedding"].notna()] *)
Definition in_period (p : string) (r : MergedRow) : bool :=
  period_is p r
  && match merged_embedding r with Some _ => true | None => false end.

(** The keys of [sub.groupby("ticker_x")], ascending. *)
Definition ticker_keys (sub : list MergedRow) : list string :=
  isort String.leb (nodup string_dec (map ticker_x sub)).

(** [firm_vectors[f]] *)
Fixpoint lookup (firm_vectors : list (string * vector)) (f : string)
  : result vector :=
  match firm_vectors with
  | [] => raise (KeyError f)
  | (t, v) :: rest => if String.eqb f t then Ok v else lookup rest f
  end.

(** One step of the loop over the groups. *)
Definition firm_vector (sub : list MergedRow) (ticker : string)
  : result (string * vector) :=
  mat <- vstack (map vec (filter (fun r => String.eqb (ticker_x r) ticker)
                                 sub)) ;;
  Ok (ticker, mean_axis0 mat).

(** [build_firm_vectors_for_period]: the firms and the rows of [vecs]. *)
Definition build_firm_vectors_for_period (meta : list MetaRow)
           (docs : list DocRow) (period : string)
  : result (list string * list vector) :=
  let merged := merge meta docs in
  let sub := filter (in_period period) merged in
  match sub with
  | [] => raise (ValueError "No documents found for period")
  | _ =>
      firm_vectors <- Pipeline.traverse (firm_vector sub) (ticker_keys sub) ;;
      let firms := isort String.leb (map fst firm_vectors) in
      rows <- Pipeline.traverse (lookup firm_vectors) firms ;;
      vecs <- vstack rows ;;
      Ok (firms, vecs)
  end.

(** [cosine_similarity(X, Y)] of two matrices given by their rows: both
    need a row and a feature at least, and the same number of features. *)
Definition width (X : list vector) : nat :=
  match X with [] => 0 | v :: _ => length v end.

Definition cosine_similarity_matrix (X Y : list vector)
  : result (list (list R)) :=
  match X, Y with
  | [], _ | _, [] =>
      raise (ValueError "Found array with 0 sample(s)")
  | _, _ =>
      if (width X =? 0)%nat || (width Y =? 0)%nat then
        raise (ValueError "Found array with 0 feature(s)")
      else if negb (width X =? width Y)%nat then
        raise (ValueError "Incompatible dimension for X and Y matrices")
      else
        Ok (map (fun x => map (fun y => dot (normalize x) (normalize y)) Y)
                X)
  end.

(** What [plot_firm_similarity_heatmap] draws: the labels of the axes and
    the matrix of the cells. *)
Definition heatmap_cells (meta : list MetaRow) (docs : list DocRow)
           (period : string) : result (list string * list (list R)) :=
  fv <- build_firm_vectors_for_period meta docs period ;;
  sim_mat <- cosine_similarity_matrix (snd fv) (snd fv) ;;
  Ok (fst fv, sim_mat).

(** The entry [m[i, j]]. *)
Definition cell (m : list (list R)) (i j : nat) : option R :=
  match nth_error m i with
  | Some row => nth_error row j
  | None => None
  end.

(** The similarity of the two firms of a group: the cosine of the means
    of their vectors. *)
Definition group_similarity (sub : list MergedRow) : R :=
  dot (normalize (mean_axis0
                    (map vec (filter (fun r => String.eqb (ticker_x r) "KO")
                                     sub))))
      (normalize (mean_axis0
                    (map vec (filter (fun r => String.eqb (ticker_x r) "PEP")
                                     sub)))).

(** The mean vector of a firm among the rows of a period. *)
Definition firm_mean (sub : list MergedRow) (t : string) : vector :=
  mean_axis0 (map vec (filter (fun r => String.eqb (ticker_x r) t) sub)).

(** The record [main] of firm_sim_by_period.py writes for a group with
    both firms. *)
Definition group_record (g : string * list MergedRow) : SimilarityRecord :=
  mkSim (fst g) "KO" "PEP" (group_similarity (snd g)).

End Heatmap.

(* ================================================================== *)
(** * db.py: the invariant of the table *)

Module StoreInvariant.

(** Every row of the table holds an embedding of the dimension of the
    store: what the column type [VECTOR(embed_dim)] asks for. *)
Definition rows_have_dimension (self : Store.VectorStore) : Prop :=
  forall r, In r (Store.table self) ->
    Z.of_nat (length (Store.embedding r)) = Store.embed_dim self.

End StoreInvariant.

(* ================================================================== *)
(** * vectorizer.py: sample runtimes *)

Module VectorizerSamples.
Import Vectorizer.

(** A model of dimension 3 that encodes every text as the same row. *)
Definition unit_model : Model :=
  mkModel 3 (fun texts _ _ => Ok (map (fun _ => [1; 0; 0]%R) texts)).

(** A runtime that loads [unit_model] and moves it to any device. *)
Definition plain_runtime : Runtime :=
  mkRuntime (Ok tt) (fun _ => Ok unit_model) (fun m _ => Ok m).

End VectorizerSamples.

(* ================================================================== *)
(** * comovement_new.py: loaders, aggregation and [main] *)

Module ComovementMain.
Import Comovement.

Local Open Scope R_scope.

(** ** Configuration *)

Definition ROLLING_WINDOW : Z := 120.
Definition FILTER_START_DATE : string := "".
Definition FILTER_END_DATE : string := "".

(** [f"{Path(FILE_A).stem}-{Path(FILE_B).stem}"] *)
Definition co_mov_tickers : string := "KO-PEP".

Definition FileNotFoundError (msg : string) : exn :=
  OtherException "FileNotFoundError" msg.

(** ** [detect_period_column] *)

Definition candidates : list string :=
  ["period"; "Period"; "PERIOD"; "quarter"; "Quarter"; "QUARTER"]%string.

(** [c in df.columns] *)
Definition has_column (columns : list string) (c : string) : bool :=
  existsb (String.eqb c) columns.

Definition detect_period_column (columns : list string) : result string :=
  match find (has_column columns) candidates with
  | Some c => Ok c
  | None =>
      match columns with
      | c :: _ => Ok c
      | [] => raise (Pipeline.IndexError
                       "index 0 is out of bounds for axis 0 with size 0")
      end
  end.

(** ** Price files

    What [pd.read_csv] makes of a file is given: the columns by name, each
    parsed as dates, as numbers, or left as text (a [Date] column with a
    cell that is no date stays text).  All columns of a frame have the
    same number of cells. *)
Inductive column : Type :=
| Dates (values : list Z)
| Numeric (values : list float64)
| Object (values : list string).

Definition DataFrame := list (string * column).

Fixpoint column_of (df : DataFrame) (name : string) : option column :=
  match df with
  | [] => None
  | (n, c) :: df' => if String.eqb name n then Some c else column_of df' name
  end.

(** [df[name].astype("float64")]: only numbers are converted. *)
Definition astype_float64 (c : column) : result (list float64) :=
  match c with
  | Numeric values => Ok values
  | Dates _ =>
      raise (OtherException "TypeError"
               "Cannot cast DatetimeArray to dtype float64")
  | Object _ => raise (ValueError "could not convert string to float")
  end.

(** The price column: the first of [Adj Close], [AdjClose], [Close] the
    frame has. *)
Definition price_column (df : DataFrame) (name : string)
  : result (list float64) :=
  match column_of df "Adj Close", column_of df "AdjClose",
        column_of df "Close" with
  | Some c, _, _ => astype_float64 c
  | None, Some c, _ => astype_float64 c
  | None, None, Some c => astype_float64 c
  | None, None, None =>
      raise (ValueError (name ++ ": expected 'Adj Close' or 'Close' column."))
  end.

(** [Series.sort_index()]: ascending labels.  Rows of equal label keep
    their order here; pandas makes no promise for them. *)
Definition sort_index (s : Series) : Series :=
  isort (fun p q => Z.leb (fst p) (fst q)) s.

Section Loader.

(** [pd.to_datetime] of a string of the configuration. *)
Variable to_datetime : string -> result Z.

(** [if bound: px = px[keep px.index bound]] *)
Definition date_filter (bound : string) (keep : Z -> Z -> bool) (px : Series)
  : result Series :=
  match bound with
  | EmptyString => Ok px
  | _ => t <- to_datetime bound ;;
         Ok (filter (fun p => keep (fst p) t) px)
  end.

(** [load_price_series_from_csv]: [file] is the parsed file at [path], or
    [None] when there is none; [name] is [path.name]; the two bounds are
    [FILTER_START_DATE] and [FILTER_END_DATE]. *)
Definition load_price_series_from_csv (name : string)
           (file : option DataFrame) (filter_start filter_end : string)
  : result Series :=
  match file with
  | None => raise (FileNotFoundError ("Price file not found: " ++ name))
  | Some df =>
      match column_of df "Date" with
      | Some (Dates dates) =>
          values <- price_column df name ;;
          let px := sort_index (combine dates values) in
          px <- date_filter filter_start (fun d t => Z.leb t d) px ;;
          px <- date_filter filter_end (fun d t => Z.leb d t) px ;;
          match px with
          | [] => raise (ValueError
                           (name ++ ": no prices after date filtering."))
          | _ => Ok px
          end
      | Some _ =>
          raise (ValueError "Date: values cannot be parsed as dates")
      | None =>
          raise (ValueError
                   "Missing column provided to 'parse_dates': 'Date'")
      end
  end.

End Loader.

(** ** Aggregation by quarter *)

(** [sum] of floats. *)
Definition fsum (l : list float64) : float64 :=
  fold_right fadd (Finite 0) l.

(** The [mean] of a group: NaN cells are skipped. *)
Definition fmean (l : list float64) : float64 :=
  match filter notna l with
  | [] => NaN
  | xs => fdiv (fsum xs) (Finite (INR (length xs)))
  end.

(** A row of [agg]. *)
Record AggRow : Type := mkAgg {
    agg_quarter : string;
    agg_rho : float64;
    agg_z : float64
  }.

(** A row of [grouped]. *)
Record Grouped : Type := mkGrouped {
    quarter : string;
    rho_mean : float64;
    z_mean : float64;
    n_windows : nat;
    rho_from_mean_z : float64
  }.

Definition in_quarter (q : string) (r : AggRow) : bool :=
  String.eqb (agg_quarter r) q.

(** [agg.groupby("quarter").agg(...).reset_index()] with the column
    [rho_from_mean_z] added: one row per quarter, in ascending order. *)
Definition group_row (agg : list AggRow) (q : string) : Grouped :=
  let rows := filter (in_quarter q) agg in
  let z := fmean (map agg_z rows) in
  mkGrouped q (fmean (map agg_rho rows)) z (length rows) (fisher_inv z).

Definition quarter_keys (agg : list AggRow) : list string :=
  isort String.leb (nodup string_dec (map agg_quarter agg)).

Definition group_by_quarter (agg : list AggRow) : list Grouped :=
  map (group_row agg) (quarter_keys agg).

(** The input CSV: the names of its columns and its rows, a cell per
    column, as text. *)
Record BaseCsv : Type := mkBaseCsv {
    base_columns : list string;
    base_rows : list (list string)
  }.

Fixpoint position (c : string) (columns : list string) : nat :=
  match columns with
  | [] => O
  | x :: columns' => if String.eqb c x then O else S (position c columns')
  end.

(** [row[c]], as [astype(str)] shows it: [nan] for a missing cell. *)
Definition cell_of (columns : list string) (c : string) (row : list string)
  : string :=
  nth (position c columns) row "nan"%string.

(** A row of the output CSV; the statistics are missing for a period
    [grouped] does not have. *)
Record OutRow : Type := mkOut {
    out_base : list string;
    out_stats : option Grouped;
    out_co_mov_tickers : string;
    out_rolling_window_days : Z
  }.

(** [base.merge(grouped, left_on=period_col, right_on="quarter",
    how="left")]: the rows of [base] in their order, each once per row of
    [grouped] with its label, or once with missing cells. *)
Definition merge_left (left_on : list string -> string)
           (base : list (list string)) (grouped : list Grouped)
  : list (list string * option Grouped) :=
  flat_map (fun b =>
              match filter (fun g => String.eqb (left_on b) (quarter g))
                           grouped with
              | [] => [(b, None)]
              | gs => map (fun g => (b, Some g)) gs
              end)
           base.

Section Main.

(** [pd.Period(d, freq="Q")] as a string, such as [2019Q3]. *)
Variable quarter_label : Z -> string.

(** [to_quarter_label] *)
Definition to_quarter_label (dts : list Z) : list string :=
  map quarter_label dts.

(** [pd.DataFrame({"quarter": qlab, "rho": rho_series.values,
    "z": z_series.values})] *)
Definition agg_frame (qlab : list string) (rho_series z_series : Series)
  : list AggRow :=
  map (fun t => mkAgg (fst (fst t)) (snd (fst t)) (snd t))
      (combine (combine qlab (map snd rho_series)) (map snd z_series)).

(** Steps 4 of [main]: from the rolling correlations to [grouped]. *)
Definition aggregate (rho_series : Series) : list Grouped :=
  let z_series := fisher_z rho_series in
  let qlab := to_quarter_label (index rho_series) in
  group_by_quarter (agg_frame qlab rho_series z_series).

Variable to_datetime : string -> result Z.

(** [main]: the rows written to the output CSV.  [in_csv], [file_a] and
    [file_b] are the input CSV and the two price files as read, [None]
    for a file that does not exist. *)
Definition main (in_csv : option BaseCsv) (file_a file_b : option DataFrame)
  : result (list OutRow) :=
  match in_csv with
  | None => raise (FileNotFoundError "Input CSV not found")
  | Some base =>
      period_col <- detect_period_column (base_columns base) ;;
      px_a <- load_price_series_from_csv to_datetime "KO.csv" file_a
                FILTER_START_DATE FILTER_END_DATE ;;
      px_b <- load_price_series_from_csv to_datetime "PEP.csv" file_b
                FILTER_START_DATE FILTER_END_DATE ;;
      let ret_a := to_log_returns px_a in
      let ret_b := to_log_returns px_b in
      rho_series <- compute_rolling_corr ret_a ret_b ROLLING_WINDOW ;;
      let grouped := aggregate rho_series in
      Ok (map (fun p => mkOut (fst p) (snd p) co_mov_tickers ROLLING_WINDOW)
              (merge_left (cell_of (base_columns base) period_col)
                          (base_rows base) grouped))
  end.

End Main.

(** ** Notions the properties are stated with *)

(** A row is dated no later than another. *)
Definition date_le (p q : Z * float64) : Prop := (fst p <= fst q)%Z.

(** Every price of the series is a positive number. *)
Definition positive_prices (px : Series) : Prop :=
  forall d v, In (d, v) px -> exists x, v = Finite x /\ 0 < x.

(** The windows that [grouped] counts, all quarters together. *)
Definition total_windows (grouped : list Grouped) : nat :=
  list_sum (map n_windows grouped).

(** No value of the series is NaN. *)
Definition no_nan (s : Series) : Prop :=
  forall d v, In (d, v) s -> v <> NaN.

(** ** Sample data *)

(** [n] trading days at a constant price. *)
Definition flat_file (n : nat) : DataFrame :=
  [("Date", Dates (map Z.of_nat (seq 0 n)));
   ("Close", Numeric (map (fun _ => Finite 1) (seq 0 n)))]%string.

(** Four trading days of two price files. *)
Definition sample_file_a : DataFrame :=
  [("Date", Dates [3; 1; 2; 4]%Z);
   ("Close", Numeric [Finite 9; Finite 9; Finite 9; Finite 9]);
   ("Adj Close", Numeric [Finite 4; Finite 1; Finite 2; Finite 8])]%string.

Definition sample_prices_a : Series :=
  [(1%Z, Finite 1); (2%Z, Finite 2); (3%Z, Finite 4); (4%Z, Finite 8)].

Definition sample_prices_b : Series :=
  [(1%Z, Finite 3); (2%Z, Finite 3); (3%Z, Finite 6); (4%Z, Finite 2)].

(** Two windows that end in one quarter and one in the next. *)
Definition sample_rho : Series :=
  [(1%Z, Finite 1); (2%Z, Finite 0); (3%Z, PosInf)].

Definition sample_quarter_label (d : Z) : string :=
  if (d <? 3)%Z then "2019Q3" else "2019Q4".

Definition sample_base : BaseCsv :=
  mkBaseCsv ["similarity"; "period"]%string
            [["0.5"; "2019Q4"]; ["0.1"; "2018Q1"]; ["0.7"; "2019Q3"]]%string.

End ComovementMain.

(* ================================================================== *)
(** * pdf_reader.py: a document page by page *)

Module PdfPages.
Import PdfReader.

Local Open Scope string_scope.

(** [page.extract_text() or ""] *)
Definition page_text (p : option string) : string :=
  match p with Some t => t | None => "" end.

(** The page holds a character that is not whitespace. *)
Definition page_has_text (p : option string) : bool :=
  negb (whitespace_only (page_text p)).

(** The first quarter label of the first page that has one. *)
Fixpoint first_page_label (pages : list (option string)) : string :=
  match pages with
  | [] => ""
  | p :: pages' =>
      match search (page_text p) with
      | Some m => m
      | None => first_page_label pages'
      end
  end.

(** A transcript whose label is broken by the end of a page. *)
Definition broken_label : File :=
  mkFile "ko.pdf"
         [Some "Results for Q2"; Some "2021 and outlook Q3 2021"; None].

End PdfPages.

(* ================================================================== *)
(** * download_data.py *)

Module Download.

Local Open Scope string_scope.
Local Open Scope nat_scope.

(** ** Configuration *)

Definition TICKERS : list string := ["KO"; "PEP"].
Definition OVERWRITE : bool := false.
Definition MAX_RETRIES : nat := 5.
Definition BACKOFF_BASE_SEC : nat := 1.

Definition price_columns : list string :=
  ["Open"; "High"; "Low"; "Close"; "Adj Close"; "Volume"].

(** ** Frames, as far as the module looks at them

    The labels of the columns in their order, the number of rows, and
    the entry [source] of [attrs]. *)
Record Frame : Type := mkFrame {
    columns : list string;
    n_rows : nat;
    attrs_source : option string
  }.

(** [df.empty]: an axis of length 0. *)
Definition empty (df : Frame) : bool :=
  (n_rows df =? 0) || (length (columns df) =? 0).

(** [c in df.columns] *)
Definition has_column (df : Frame) (c : string) : bool :=
  existsb (String.eqb c) (columns df).

(** [df[labels]]: the columns of each label in turn (every column of a
    label that is repeated); a label the frame lacks is a [KeyError]. *)
Definition select (df : Frame) (labels : list string) : result Frame :=
  if forallb (has_column df) labels then
    Ok (mkFrame (flat_map (fun c => filter (String.eqb c) (columns df))
                          labels)
                (n_rows df) (attrs_source df))
  else raise (KeyError "not in index").

(** ** The services the module calls *)

Record Services : Type := mkServices {
    (** [import yfinance as yf] *)
    import_yfinance : result unit;
    (** [yf.download(...)], at the call number [k] of the run *)
    yf_download : nat -> result Frame;
    (** [from pandas_datareader import data as pdr] *)
    import_pandas_datareader : result unit;
    (** [pdr.DataReader(sym, "stooq", ...)] *)
    stooq_reader : result Frame
  }.

(** ** [fetch_yahoo] *)

(** The body of the [try] at one pass of the loop: the frame returned,
    or the error kept in [last_err]. *)
Definition attempt (downloaded : result Frame) : result Frame :=
  df <- downloaded ;;
  if negb (empty df) then select df price_columns
  else raise (RuntimeError "Empty dataframe from Yahoo.").

(** The loop over [range(MAX_RETRIES)] from pass [k] on, [passes] passes
    being left; the second component lists the calls of [time.sleep],
    in seconds.  The text of [last_err] only serves the final message. *)
Fixpoint retry (download : nat -> result Frame) (k passes : nat)
         (slept : list nat) : result Frame * list nat :=
  match passes with
  | O => (raise (RuntimeError "Yahoo failed after retries."), slept)
  | S passes' =>
      match attempt (download k) with
      | Ok df => (Ok df, slept)
      | Raise e =>
          if is_Exception e
          then retry download (S k) passes'
                     (slept ++ [BACKOFF_BASE_SEC * 2 ^ k])
          else (Raise e, slept)
      end
  end.

Definition fetch_yahoo (w : Services) : result Frame * list nat :=
  match import_yfinance w with
  | Ok _ => retry (yf_download w) 0 MAX_RETRIES []
  | Raise e => (Raise e, [])
  end.

(** ** [fetch_stooq] *)

Definition is_upper (c : ascii) : bool :=
  let n := nat_of_ascii c in (65 <=? n) && (n <=? 90).

Definition is_lower (c : ascii) : bool :=
  let n := nat_of_ascii c in (97 <=? n) && (n <=? 122).

(** [str.title], on ASCII letters: a letter is upper-cased after a
    character that is no letter, and lower-cased after a letter. *)
Fixpoint title_from (previous_is_cased : bool) (s : string) : string :=
  match s with
  | EmptyString => EmptyString
  | String c s' =>
      String (if previous_is_cased then Str.lower_char c
              else Str.upper_char c)
             (title_from (is_upper c || is_lower c) s')
  end.

Definition title (s : string) : string := title_from false s.

(** [df[new] = df[old]]: the column is added at the end, or written
    over where it is; with [old] repeated the right-hand side is a frame
    and pandas refuses. *)
Definition assign_column (df : Frame) (new old : string) : result Frame :=
  match filter (String.eqb old) (columns df) with
  | [] => raise (KeyError old)
  | [_] =>
      Ok (mkFrame (if has_column df new then columns df
                   else columns df ++ [new])
                  (n_rows df) (attrs_source df))
  | _ => raise (ValueError
                  "Cannot set a DataFrame with multiple columns to the single column")
  end.

Definition fetch_stooq (w : Services) : result Frame :=
  _ <- import_pandas_datareader w ;;
  df <- stooq_reader w ;;
  if empty df then raise (RuntimeError "Empty dataframe from Stooq.")
  else
    let df := mkFrame (map title (columns df)) (n_rows df)
                      (attrs_source df) in
    if negb (forallb (has_column df)
                     ["Open"; "High"; "Low"; "Close"; "Volume"])
    then raise (RuntimeError "Stooq returned missing column")
    else
      df <- assign_column df "Adj Close" "Close" ;;
      select df price_columns.

(** ** [load_prices] *)

Definition load_prices (w : Services) : result Frame * list nat :=
  match fetch_yahoo w with
  | (Ok df, slept) => (Ok df, slept)
  | (Raise yerr, slept) =>
      if is_Exception yerr then
        (try_except
           (df <- fetch_stooq w ;;
            Ok (mkFrame (columns df) (n_rows df) (Some "stooq")))
           (fun serr =>
              raise (RuntimeError "Failed to load from Yahoo and Stooq.")),
         slept)
      else (Raise yerr, slept)
  end.

(** ** [main], for one ticker *)

Inductive Outcome : Type :=
| Skipped                         (* already saved *)
| WarnedEmpty                     (* "returned empty data. Skipping save." *)
| Saved (df : Frame).

(** One pass of the loop of [main]; [saved] tells whether both files of
    the ticker exist already. *)
Definition process_ticker (w : Services) (saved : bool) : result Outcome :=
  if negb OVERWRITE && saved then Ok Skipped
  else
    df <- fst (load_prices w) ;;
    if empty df then Ok WarnedEmpty
    else
      match filter (fun c => negb (has_column df c)) price_columns with
      | [] => Ok (Saved df)
      | _ => raise (RuntimeError "missing columns")
      end.

(** ** Sample services *)

Definition yahoo_frame : Frame :=
  mkFrame ["Adj Close"; "Close"; "High"; "Low"; "Open"; "Volume"] 10 None.

(** Yahoo is rate-limited twice, then answers. *)
Definition flaky_yahoo : Services :=
  mkServices (Ok tt)
             (fun k => if k <? 2
                       then Raise (OtherException "YFRateLimitError"
                                                  "Too Many Requests")
                       else Ok yahoo_frame)
             (Ok tt) (Raise (OSError "no route to host")).

(** Yahoo is down; Stooq answers with lower-case labels. *)
Definition yahoo_down : Services :=
  mkServices (Ok tt) (fun _ => Ok (mkFrame [] 0 None)) (Ok tt)
             (Ok (mkFrame ["open"; "high"; "low"; "close"; "volume"] 7 None)).

End Download.

(* ================================================================== *)
(** * data/scraping_scripts/scraper.py: the name of a downloaded file *)

Module Scraper.

Local Open Scope string_scope.

(** ** String methods *)

(** [s.replace(ch, new)] for a pattern of one character. *)
Fixpoint replace_char (ch new : ascii) (s : string) : string :=
  match s with
  | EmptyString => EmptyString
  | String c s' =>
      String (if Ascii.eqb c ch then new else c) (replace_char ch new s')
  end.

Fixpoint lstrip_chars (chars : list ascii) (s : string) : string :=
  match s with
  | EmptyString => EmptyString
  | String c s' =>
      if existsb (Ascii.eqb c) chars then lstrip_chars chars s' else s
  end.

Fixpoint rstrip_chars (chars : list ascii) (s : string) : string :=
  match s with
  | EmptyString => EmptyString
  | String c s' =>
      match rstrip_chars chars s' with
      | EmptyString =>
          if existsb (Ascii.eqb c) chars then EmptyString
          else String c EmptyString
      | t => String c t
      end
  end.

(** [s.strip(chars)] *)
Definition strip_chars (chars : list ascii) (s : string) : string :=
  rstrip_chars chars (lstrip_chars chars s).

(** [s.startswith("/")] and [s.endswith("/")] *)
Definition starts_with_sep (s : string) : bool :=
  match s with
  | String c _ => Ascii.eqb c "/"
  | EmptyString => false
  end.

Fixpoint ends_with_sep (s : string) : bool :=
  match s with
  | EmptyString => false
  | String c EmptyString => Ascii.eqb c "/"
  | String _ s' => ends_with_sep s'
  end.

(** [os.path.join(a, b)] of [posixpath]. *)
Definition path_join (a b : string) : string :=
  if starts_with_sep b then b
  else
    match a with
    | EmptyString => b
    | _ => if ends_with_sep a then a ++ b else a ++ "/" ++ b
    end.

(** The characters of a string, and the truth value of a string. *)
Fixpoint chars_of (s : string) : list ascii :=
  match s with
  | EmptyString => []
  | String c s' => c :: chars_of s'
  end.

Definition nonempty (s : string) : bool :=
  match s with EmptyString => false | _ => true end.

(** ** [get_sanitized_filename] *)

(** [invalid_chars]: the characters a file name may not hold on
    Windows, the slash, the space and the comma. *)
Definition invalid_chars : list ascii :=
  ["<"; ">"; ":"; "\"; ascii_of_nat 34; "/"; "|"; "?"; "*"; " "; ","]%char.

(** The loop [for ch in invalid_chars: fname = fname.replace(ch, '_')],
    then [fname.strip()]. *)
Definition sanitize (fname : string) : string :=
  PdfReader.strip
    (fold_left (fun name ch => replace_char ch "_" name) invalid_chars fname).

Section Libraries.

(** Group 1 of the first match of the pattern for [filename*=] in the
    header (case ignored), and of the pattern for [filename=]. *)
Variable search_filename_star : string -> option string.
Variable search_filename : string -> option string.
(** [urllib.parse.unquote], [urlparse(url).path], [os.path.basename]. *)
Variable unquote : string -> string.
Variable url_path : string -> string.
Variable basename : string -> string.

(** The name taken from the [Content-Disposition] header, if any. *)
Definition header_filename (cd : option string) : option string :=
  match cd with
  | Some h =>
      if nonempty h then
        match search_filename_star h with
        | Some g =>
            Some (unquote (strip_chars [ascii_of_nat 34] (PdfReader.strip g)))
        | None =>
            match search_filename h with
            | Some g => Some (PdfReader.strip g)
            | None => None
            end
        end
      else None
  | None => None
  end.

(** [fname] before it is sanitized. *)
Definition raw_filename (url : string) (cd : option string) : string :=
  match header_filename cd with
  | Some (String c s) => String c s
  | _ =>
      match basename (unquote (url_path url)) with
      | EmptyString => "downloaded_file"
      | name => name
      end
  end.

(** [get_sanitized_filename(url, response, parent_folder)], with [cd] the
    header [content-disposition] of the response. *)
Definition get_sanitized_filename (url : string) (cd : option string)
           (parent_folder : string) : string :=
  path_join parent_folder (sanitize (raw_filename url cd)).

End Libraries.

End Scraper.

(* ================================================================== *)
(** * Properties *)

Unset Implicit Arguments.

(** ** Lists *)

Section ListFacts.
Context {A : Type}.

Lemma insert_by_length (le : A -> A -> bool) x l :
  length (insert_by le x l) = S (length l).
Proof.
  induction l as [|y l IH]; simpl; [reflexivity|].
  destruct (le x y); simpl; [reflexivity | now rewrite IH].
Qed.

Lemma isort_length (le : A -> A -> bool) l : length (isort le l) = length l.
Proof.
  induction l as [|x l IH]; simpl; [reflexivity|].
  now rewrite insert_by_length, IH.
Qed.

Lemma insert_by_In (le : A -> A -> bool) x l y :
  In y (insert_by le x l) <-> y = x \/ In y l.
Proof.
  induction l as [|z l IH]; simpl.
  - intuition congruence.
  - destruct (le x z); simpl; [intuition congruence|].
    rewrite IH. intuition congruence.
Qed.

Lemma isort_In (le : A -> A -> bool) l y : In y (isort le l) <-> In y l.
Proof.
  induction l as [|x l IH]; simpl; [tauto|].
  rewrite insert_by_In, IH. intuition congruence.
Qed.

Lemma insert_by_NoDup (le : A -> A -> bool) x l :
  ~ In x l -> NoDup l -> NoDup (insert_by le x l).
Proof.
  induction l as [|y l IH]; simpl; intros Hx Hl.
  - constructor; [tauto | constructor].
  - destruct (le x y).
    + constructor; [simpl; tauto | assumption].
    + inversion Hl as [|? ? Hy Hl']; subst.
      constructor.
      * rewrite insert_by_In. intros [->|H]; [apply Hx; now left | tauto].
      * apply IH; [tauto | assumption].
Qed.

Lemma isort_NoDup (le : A -> A -> bool) l : NoDup l -> NoDup (isort le l).
Proof.
  induction 1 as [|x l Hx Hl IH]; simpl; [constructor|].
  apply insert_by_NoDup; [now rewrite isort_In | assumption].
Qed.

Lemma insert_by_Permutation (le : A -> A -> bool) x l :
  Permutation (insert_by le x l) (x :: l).
Proof.
  induction l as [|y l IH]; simpl; [apply Permutation_refl|].
  destruct (le x y); [apply Permutation_refl|].
  apply perm_trans with (y :: x :: l); [now apply perm_skip | apply perm_swap].
Qed.

Lemma isort_Permutation (le : A -> A -> bool) l :
  Permutation (isort le l) l.
Proof.
  induction l as [|x l IH]; simpl; [apply perm_nil|].
  apply perm_trans with (x :: isort le l);
    [apply insert_by_Permutation | now apply perm_skip].
Qed.

Lemma NoDup_map_filter {B : Type} (f : A -> B) (P : A -> bool) l :
  NoDup (map f l) -> NoDup (map f (filter P l)).
Proof.
  induction l as [|x l IH]; simpl; intros H; [constructor|].
  inversion H as [|? ? Hx Hl]; subst.
  destruct (P x); simpl; [|now apply IH].
  constructor; [|now apply IH].
  intros Hin. apply Hx. apply in_map_iff in Hin as (y & E & Hy).
  apply filter_In in Hy as [Hy _]. rewrite <- E. now apply in_map.
Qed.

Lemma isort_nil_inv (le : A -> A -> bool) l : isort le l = [] -> l = [].
Proof.
  intros H. apply (f_equal (@length A)) in H.
  rewrite isort_length in H. now destruct l.
Qed.

End ListFacts.

(** ** vectorizer.py *)

Module VectorizerFacts.
Import Vectorizer.

Local Open Scope Z_scope.

Section Widths.

Variable analyze : string -> list string.
Variable tfidf_weight :
  list (list string) -> list string -> list string -> string -> R.

Lemma limit_features_length n docs terms :
  length (limit_features n docs terms) = Nat.min n (length terms).
Proof.
  unfold limit_features.
  now rewrite isort_length, length_firstn, isort_length.
Qed.

(** A fit that returns has learnt a vocabulary and set the flag. *)
Lemma Tfidf_fit_ok self corpus self' :
  Tfidf_fit analyze self corpus = Ok self' ->
  tfidf_fitted self' = true
  /\ _max_features self' = _max_features self
  /\ 0 < sk_max_features (_vectorizer self)
  /\ sk_vocabulary (_vectorizer self')
     = Some (limit_features (Z.to_nat (sk_max_features (_vectorizer self)))
               (map analyze corpus) (corpus_terms (map analyze corpus))).
Proof.
  unfold Tfidf_fit, sk_fit. intros H.
  destruct (sk_max_features (_vectorizer self) <=? 0) eqn:Hmf;
    simpl in H; [discriminate|].
  apply Z.leb_gt in Hmf.
  destruct (corpus_terms (map analyze corpus)) eqn:Ht; simpl in H;
    [discriminate|].
  inversion H; subst; simpl. auto.
Qed.

(** The width of what the fallback returns is the size of the vocabulary:
    the cap when the corpus has that many distinct terms, fewer
    otherwise. *)
Lemma Tfidf_transform_width self corpus self' texts :
  Tfidf_fit analyze self corpus = Ok self' ->
  exists m,
    Tfidf_transform analyze tfidf_weight self' texts = Ok m
    /\ length m = length texts
    /\ forall row, In row m ->
         length row
         = Nat.min (Z.to_nat (sk_max_features (_vectorizer self)))
                   (length (corpus_terms (map analyze corpus))).
Proof.
  intros H. destruct (Tfidf_fit_ok _ _ _ H) as (Hf & _ & _ & Hv).
  unfold Tfidf_transform, sk_transform. rewrite Hf, Hv. simpl.
  eexists; split; [reflexivity|]. split.
  - now rewrite length_map.
  - intros row Hin. apply in_map_iff in Hin as (t & <- & _).
    now rewrite length_map, limit_features_length.
Qed.

(** The pretrained variant hands back what the model encodes. *)
Lemma Finance_transform_width rt name device normalize batch self texts :
  Finance_init rt name device normalize batch = Ok self ->
  model_well_formed (model self) ->
  exists m,
    Finance_transform self texts = Ok m
    /\ length m = length texts
    /\ forall row, In row m -> Z.of_nat (length row) = Finance_dim self.
Proof.
  unfold Finance_init. intros H Hwf.
  destruct (try_except _ _); simpl in H; [|discriminate].
  destruct (SentenceTransformer rt name); simpl in H; [|discriminate].
  destruct (move_to_device rt a0 device); simpl in H; [|discriminate].
  inversion H; subst; clear H. unfold Finance_transform, Finance_dim. simpl.
  simpl in Hwf.
  destruct texts as [|t ts].
  - exists []. simpl. intuition.
  - apply Hwf.
Qed.

(** Whichever variant the handle holds, a fitted vectorizer returns one
    row per text. *)
Lemma transform_row_per_text self corpus self' texts :
  (forall v, self = Finance v -> model_well_formed (model v)) ->
  fit analyze self corpus = Ok self' ->
  exists m,
    transform analyze tfidf_weight self' texts = Ok m
    /\ length m = length texts.
Proof.
  intros Hwf Hfit. destruct self as [v|v]; simpl in Hfit.
  - destruct (Tfidf_fit analyze v corpus) as [v'|] eqn:E; simpl in Hfit;
      [|discriminate].
    inversion Hfit; subst self'. simpl.
    destruct (Tfidf_transform_width v corpus v' texts E) as (m & Hm & Hl & _).
    now exists m.
  - inversion Hfit; subst self'. simpl. unfold Finance_transform. simpl.
    destruct texts as [|t ts]; [now exists []|].
    destruct (Hwf v eq_refl (t :: ts) (_batch_size v) (_normalize v))
      as (rows & Hrows & Hlen & _).
    now exists rows.
Qed.

End Widths.

(** C1.  With the preference flag set, an error raised while the
    pretrained variant is constructed is the error the factory raises; the
    factory does not return the TF-IDF instance in its place. *)
Theorem get_vectorizer_reraises :
  forall rt tfidf_dim finance_model device normalize batch_size e,
    Finance_init rt finance_model device normalize batch_size = Raise e ->
    get_vectorizer rt true tfidf_dim finance_model device normalize
                   batch_size = Raise e
    /\ forall v, get_vectorizer rt true tfidf_dim finance_model device
                   normalize batch_size <> Ok v.
Proof.
  intros rt tfidf_dim finance_model device normalize batch_size e H.
  assert (G : get_vectorizer rt true tfidf_dim finance_model device
                normalize batch_size = Raise e).
  { unfold get_vectorizer. rewrite H. simpl.
    now destruct (is_Exception e). }
  split; [exact G | intros v; rewrite G; discriminate].
Qed.

Lemma get_vectorizer_reraises_witness :
  get_vectorizer broken_runtime true 512 "FinLang/finance-embeddings-investopedia"
                 None true 32
  = Raise (ImportError "sentence-transformers (or torch) not available.").
Proof.
  apply (get_vectorizer_reraises broken_runtime 512
           "FinLang/finance-embeddings-investopedia" None true 32).
  reflexivity.
Defined.

(** Without the preference flag the factory builds the fallback, and
    cannot fail. *)
Lemma get_vectorizer_fallback rt tfidf_dim finance_model device normalize
      batch_size :
  get_vectorizer rt false tfidf_dim finance_model device normalize batch_size
  = Ok (Tfidf (Tfidf_init tfidf_dim)).
Proof. reflexivity. Qed.

(** C9.  A fallback vectorizer that has not been fitted (a fresh one in
    particular) raises NotFitted on transform; once a fit has returned,
    transform returns a matrix. *)
Theorem transform_requires_fit :
  forall analyze tfidf_weight,
    (forall max_features texts,
        Tfidf_transform analyze tfidf_weight (Tfidf_init max_features) texts
        = Raise NotFitted)
    /\ (forall self texts,
           tfidf_fitted self = false ->
           Tfidf_transform analyze tfidf_weight self texts = Raise NotFitted)
    /\ (forall self corpus self' texts,
           Tfidf_fit analyze self corpus = Ok self' ->
           exists m,
             Tfidf_transform analyze tfidf_weight self' texts = Ok m
             /\ Tfidf_transform analyze tfidf_weight self' texts
                <> Raise NotFitted).
Proof.
  intros analyze w. split; [reflexivity|]. split.
  - intros self texts H. unfold Tfidf_transform. now rewrite H.
  - intros self corpus self' texts H.
    destruct (Tfidf_transform_width analyze w self corpus self' texts H)
      as (m & Hm & _).
    exists m. split; [exact Hm | rewrite Hm; discriminate].
Qed.

Lemma transform_requires_fit_witness :
  Tfidf_transform (word_analyzer english_sample) (fun _ _ _ _ => 0%R)
                  (Tfidf_init 512) ["alpha beta"%string]
  = Raise NotFitted
  /\ exists self m,
       Tfidf_fit (word_analyzer english_sample) (Tfidf_init 512)
                 ["alpha beta"%string] = Ok self
       /\ Tfidf_transform (word_analyzer english_sample) (fun _ _ _ _ => 0%R)
                          self ["gamma"%string] = Ok m.
Proof.
  destruct (transform_requires_fit (word_analyzer english_sample)
              (fun _ _ _ _ => 0%R)) as (H1 & H2 & H3).
  split.
  - apply H2. reflexivity.
  - destruct (H3 (Tfidf_init 512) ["alpha beta"%string]
                (mkTfidf 512 (mkSk 512 [["alpha"; "beta"]%string]
                                (Some ["alpha"; "beta"]%string)) true)
                ["gamma"%string] eq_refl) as (m & Hm & _).
    eexists; exists m. split; [reflexivity | exact Hm].
Defined.

(** C3, at its failing input.  A fallback vectorizer built with the
    default cap of 512 and fitted on a corpus of two distinct terms
    returns rows of width 2, while its [dim] stays 512. *)
Theorem tfidf_width_differs_from_dim :
  forall tfidf_weight,
    exists self m,
      Tfidf_fit (word_analyzer english_sample)
                (Tfidf_init default_max_features) ["alpha beta"%string]
      = Ok self
      /\ Tfidf_transform (word_analyzer english_sample) tfidf_weight self
                         ["alpha beta"%string] = Ok m
      /\ map (@length R) m = [2%nat]
      /\ Tfidf_dim self = 512.
Proof.
  intros w.
  eexists; eexists. split; [reflexivity|]. split; [reflexivity|].
  split; reflexivity.
Qed.

End VectorizerFacts.

(** ** db.py *)

Module StoreFacts.
Import Store.

Local Open Scope Z_scope.

Lemma zip4_length {A B C D : Type} (la : list A) (lb : list B) (lc : list C)
      (ld : list D) :
  length (zip4 la lb lc ld)
  = Nat.min (Nat.min (length la) (length lb))
            (Nat.min (length lc) (length ld)).
Proof.
  revert lb lc ld.
  induction la as [|a la IH]; intros [|b lb] [|c lc] [|d ld]; simpl;
    try reflexivity; try lia.
  rewrite IH. reflexivity.
Qed.

Lemma iter_rows_length n d elems : length (iter_rows n d elems) = n.
Proof.
  revert elems. induction n as [|n IH]; intros elems; simpl;
    [reflexivity | now rewrite IH].
Qed.

Lemma rows_of_length a : length (rows_of a) = shape_at a 0.
Proof. apply iter_rows_length. Qed.

Lemma statements_length ticker doc_ids contents period embeddings :
  length (statements ticker doc_ids contents period embeddings)
  = Nat.min (Nat.min (length doc_ids) (length contents))
            (Nat.min (length period) (shape_at embeddings 0)).
Proof.
  unfold statements. now rewrite length_map, zip4_length, rows_of_length.
Qed.

(** The test of the code is the shape [(N, embed_dim)] of the docstring. *)
Lemma shape_ok_spec self embeddings :
  shape_ok self embeddings = true <-> has_shape_N_dim self embeddings.
Proof.
  unfold shape_ok, has_shape_N_dim, ndim, shape_at.
  rewrite andb_true_iff, Nat.eqb_eq, Z.eqb_eq. split.
  - intros [Hn Hd].
    destruct (shape embeddings) as [|n [|d [|x l]]]; simpl in *;
      try discriminate.
    now exists n, d.
  - intros (n & d & -> & Hd). simpl. auto.
Qed.

Section Transactions.

Variable db_accepts : Row -> bool.

Lemma execute_all_accepted pending rows :
  forallb db_accepts rows = true ->
  execute_all db_accepts pending rows = Ok (pending ++ rows).
Proof.
  revert pending. induction rows as [|r rows IH]; intros pending H; simpl.
  - now rewrite app_nil_r.
  - simpl in H. apply andb_true_iff in H as [Hr Hrows].
    rewrite Hr, IH by assumption. now rewrite <- app_assoc.
Qed.

Lemma execute_all_refused pending rows :
  forallb db_accepts rows = false ->
  execute_all db_accepts pending rows = Raise (DatabaseError "INSERT refused").
Proof.
  revert pending. induction rows as [|r rows IH]; intros pending H; simpl in *.
  - discriminate.
  - destruct (db_accepts r); simpl in H; [now apply IH | reflexivity].
Qed.

(** Whatever makes the call raise, the table is as it was before. *)
Lemma insert_documents_atomic self ticker doc_ids contents period embeddings e :
  fst (insert_documents db_accepts self ticker doc_ids contents period
                        embeddings) = Raise e ->
  snd (insert_documents db_accepts self ticker doc_ids contents period
                        embeddings) = self.
Proof.
  unfold insert_documents.
  destruct (negb _ || negb _); [reflexivity|].
  destruct (execute_all _ _ _); simpl; [discriminate | reflexivity].
Qed.

Lemma insert_documents_commits self ticker doc_ids contents period embeddings :
  shape_ok self embeddings = true ->
  forallb db_accepts (statements ticker doc_ids contents period embeddings)
  = true ->
  insert_documents db_accepts self ticker doc_ids contents period embeddings
  = (Ok tt,
     mkStore (embed_dim self)
       (table self ++ statements ticker doc_ids contents period embeddings)).
Proof.
  unfold shape_ok, insert_documents. intros Hs Ha.
  apply andb_true_iff in Hs as [-> ->]. simpl.
  now rewrite execute_all_accepted.
Qed.

End Transactions.

(** Two documents of one ticker, inserted into an empty table. *)
Example insert_documents_sample :
  insert_documents (fun _ => true) (mkStore 2 []) "KO"
                   ["a.pdf"; "b.pdf"]%string ["text"; "more"]%string
                   ["Q1 2020"; "Q2 2020"]%string
                   (mkArray [2%nat; 2%nat] [1; 0; 0; 1]%R)
  = (Ok tt,
     mkStore 2 [mkRow "KO" "a.pdf" "text" "Q1 2020" [1; 0]%R;
                mkRow "KO" "b.pdf" "more" "Q2 2020" [0; 1]%R]).
Proof. reflexivity. Qed.

(** A statement the database refuses undoes the ones before it. *)
Example insert_documents_rollback :
  insert_documents (fun r => negb (String.eqb (Store.doc_id r) "b.pdf"))
                   (mkStore 2 []) "KO"
                   ["a.pdf"; "b.pdf"]%string ["text"; "more"]%string
                   ["Q1 2020"; "Q2 2020"]%string
                   (mkArray [2%nat; 2%nat] [1; 0; 0; 1]%R)
  = (Raise (DatabaseError "INSERT refused"), mkStore 2 []).
Proof. reflexivity. Qed.

(** C4.  An embeddings batch whose shape is not (N, configured dimension)
    makes the call raise DimensionMismatch and leaves the table as it was;
    a batch of that shape, with one id, one content and one period per
    row and statements the database takes, appends its N rows in the one
    call. *)
Theorem insert_documents_validates_shape :
  forall db_accepts self ticker doc_ids contents period embeddings,
    (~ has_shape_N_dim self embeddings ->
       insert_documents db_accepts self ticker doc_ids contents period
                        embeddings
       = (Raise DimensionMismatch, self))
    /\ (has_shape_N_dim self embeddings ->
        length doc_ids = shape_at embeddings 0 ->
        length contents = shape_at embeddings 0 ->
        length period = shape_at embeddings 0 ->
        forallb db_accepts
                (statements ticker doc_ids contents period embeddings)
        = true ->
        exists rows,
          insert_documents db_accepts self ticker doc_ids contents period
                           embeddings
          = (Ok tt, mkStore (embed_dim self) (table self ++ rows))
          /\ length rows = shape_at embeddings 0).
Proof.
  intros db_accepts self ticker doc_ids contents period embeddings. split.
  - intros Hshape. rewrite <- shape_ok_spec in Hshape.
    apply not_true_is_false in Hshape.
    unfold shape_ok in Hshape. unfold insert_documents.
    rewrite <- negb_andb, Hshape. reflexivity.
  - intros Hshape H1 H2 H3 Ha. apply shape_ok_spec in Hshape.
    exists (statements ticker doc_ids contents period embeddings). split.
    + now apply insert_documents_commits.
    + rewrite statements_length. lia.
Qed.

Lemma insert_documents_validates_shape_witness :
  insert_documents (fun _ => true) (mkStore 2 []) "KO" ["a.pdf"%string]
                   ["text"%string] ["Q1 2020"%string]
                   (mkArray [1%nat; 3%nat] [1; 0; 0]%R)
  = (Raise DimensionMismatch, mkStore 2 [])
  /\ exists rows,
       insert_documents (fun _ => true) (mkStore 2 []) "KO"
                        ["a.pdf"; "b.pdf"]%string ["text"; "more"]%string
                        ["Q1 2020"; "Q2 2020"]%string
                        (mkArray [2%nat; 2%nat] [1; 0; 0; 1]%R)
       = (Ok tt, mkStore 2 ([] ++ rows))
       /\ length rows = 2%nat.
Proof.
  split.
  - apply (insert_documents_validates_shape (fun _ => true) (mkStore 2 [])
             "KO"%string ["a.pdf"%string] ["text"%string] ["Q1 2020"%string]
             (mkArray [1%nat; 3%nat] [1; 0; 0]%R)).
    intros (n & d & Hs & Hd). simpl in Hs, Hd.
    inversion Hs; subst. discriminate.
  - apply (insert_documents_validates_shape (fun _ => true) (mkStore 2 [])
             "KO"%string ["a.pdf"; "b.pdf"]%string ["text"; "more"]%string
             ["Q1 2020"; "Q2 2020"]%string
             (mkArray [2%nat; 2%nat] [1; 0; 0; 1]%R));
      try reflexivity.
    exists 2%nat, 2%nat. split; reflexivity.
Defined.

(** C10.  No check compares the lengths of the parallel sequences: for a
    batch of the configured shape whose statements the database takes, the
    call returns normally and appends as many rows as the shortest of the
    ids, the contents, the periods and the embedding rows. *)
Theorem insert_documents_truncates :
  forall db_accepts self ticker doc_ids contents period embeddings,
    has_shape_N_dim self embeddings ->
    forallb db_accepts (statements ticker doc_ids contents period embeddings)
    = true ->
    exists rows,
      insert_documents db_accepts self ticker doc_ids contents period
                       embeddings
      = (Ok tt, mkStore (embed_dim self) (table self ++ rows))
      /\ length rows
         = Nat.min (Nat.min (length doc_ids) (length contents))
                   (Nat.min (length period) (shape_at embeddings 0)).
Proof.
  intros db_accepts self ticker doc_ids contents period embeddings Hs Ha.
  apply shape_ok_spec in Hs.
  exists (statements ticker doc_ids contents period embeddings). split.
  - now apply insert_documents_commits.
  - apply statements_length.
Qed.

Lemma insert_documents_truncates_witness :
  exists rows,
    insert_documents (fun _ => true) (mkStore 2 []) "KO" ["a.pdf"%string]
                     ["text"; "more"]%string
                     ["Q1 2020"; "Q2 2020"; "Q3 2020"]%string
                     (mkArray [3%nat; 2%nat] [1; 0; 0; 1; 1; 1]%R)
    = (Ok tt, mkStore 2 ([] ++ rows))
    /\ length rows = 1%nat.
Proof.
  apply (insert_documents_truncates (fun _ => true) (mkStore 2 [])
           "KO"%string
           ["a.pdf"%string] ["text"; "more"]%string
           ["Q1 2020"; "Q2 2020"; "Q3 2020"]%string
           (mkArray [3%nat; 2%nat] [1; 0; 0; 1; 1; 1]%R)).
  - exists 3%nat, 2%nat. split; reflexivity.
  - reflexivity.
Defined.

End StoreFacts.

(** ** firm_sim_by_period.py *)

Module FirmSimFacts.
Import FirmSim.

Local Open Scope R_scope.

(** *** Dot products *)

Lemma dot_nil_l b : dot [] b = 0.
Proof. reflexivity. Qed.

Lemma dot_nil_r a : dot a [] = 0.
Proof. destruct a; reflexivity. Qed.

Lemma dot_cons x a y b : dot (x :: a) (y :: b) = x * y + dot a b.
Proof. reflexivity. Qed.

Lemma dot_comm a b : dot a b = dot b a.
Proof.
  revert b. induction a as [|x a IH]; intros [|y b];
    rewrite ?dot_nil_l, ?dot_nil_r, ?dot_cons; try reflexivity.
  rewrite IH. ring.
Qed.

Lemma cosine_similarity_ok a b :
  length a = length b -> (0 < length a)%nat ->
  cosine_similarity a b = Ok (dot (normalize a) (normalize b)).
Proof.
  intros Hlen Hpos. unfold cosine_similarity. rewrite <- Hlen.
  destruct (length a =? 0)%nat eqn:E0;
    [apply Nat.eqb_eq in E0; lia|].
  now rewrite Nat.eqb_refl.
Qed.

(** *** The loop over the periods *)

Lemma vadd_length a b : length (vadd a b) = Nat.min (length a) (length b).
Proof. unfold vadd. now rewrite length_map, length_combine. Qed.

Lemma fold_vadd_length d rest v :
  length v = d -> (forall w, In w rest -> length w = d) ->
  length (fold_left vadd rest v) = d.
Proof.
  revert v. induction rest as [|w rest IH]; intros v Hv Hrest; simpl;
    [assumption|].
  apply IH.
  - rewrite vadd_length, Hv, (Hrest w) by now left. apply Nat.min_id.
  - intros u Hu. apply Hrest. now right.
Qed.

Lemma mean_axis0_length d m :
  m <> [] -> (forall v, In v m -> length v = d) ->
  length (mean_axis0 m) = d.
Proof.
  destruct m as [|v rest]; [congruence|]. intros _ H. unfold mean_axis0.
  rewrite length_map. apply fold_vadd_length.
  - apply H. now left.
  - intros w Hw. apply H. now right.
Qed.

Lemma vstack_uniform d vs :
  vs <> [] -> (forall v, In v vs -> length v = d) -> vstack vs = Ok vs.
Proof.
  destruct vs as [|v rest]; [congruence|]. intros _ H. unfold vstack.
  replace (forallb (fun w => (length w =? length v)%nat) rest) with true;
    [reflexivity|].
  symmetry. apply forallb_forall. intros w Hw. apply Nat.eqb_eq.
  rewrite (H v), (H w); [reflexivity | now right | now left].
Qed.

Lemma firm_vec_uniform d t sub :
  has_ticker t sub = true ->
  (forall r, In r sub -> length (vec r) = d) ->
  exists v, firm_vec t sub = Ok v /\ length v = d.
Proof.
  intros Ht Hd. unfold firm_vec.
  set (vs := map vec (filter (fun r => String.eqb (ticker_x r) t) sub)).
  assert (Hne : vs <> []).
  { unfold has_ticker in Ht. apply existsb_exists in Ht as (r & Hr & Hrt).
    assert (Hin : In (vec r) vs).
    { apply in_map, filter_In. now split. }
    intros E. rewrite E in Hin. exact Hin. }
  assert (Hall : forall v, In v vs -> length v = d).
  { intros v Hv. apply in_map_iff in Hv as (r & <- & Hr).
    apply filter_In in Hr as [Hr _]. now apply Hd. }
  rewrite (vstack_uniform d vs Hne Hall). simpl.
  eexists; split; [reflexivity|]. now apply mean_axis0_length.
Qed.

Lemma period_record_skip p sub :
  qualifies sub = false -> period_record p sub = Ok None.
Proof. unfold period_record, qualifies. now intros ->. Qed.

Lemma period_record_emit d p sub :
  (0 < d)%nat -> (forall r, In r sub -> length (vec r) = d) ->
  qualifies sub = true ->
  exists s, period_record p sub = Ok (Some (mkSim p "KO" "PEP" s)).
Proof.
  intros Hd Hsub Hq. unfold period_record. rewrite Hq. simpl.
  unfold qualifies in Hq. apply andb_true_iff in Hq as [Hko Hpep].
  destruct (firm_vec_uniform d "KO" sub Hko Hsub) as (ko & -> & Lko).
  destruct (firm_vec_uniform d "PEP" sub Hpep Hsub) as (pep & -> & Lpep).
  simpl.
  rewrite (cosine_similarity_ok ko pep) by (congruence || lia).
  simpl. now eexists.
Qed.

Lemma loop_periods d groups :
  (0 < d)%nat ->
  (forall p sub r, In (p, sub) groups -> In r sub -> length (vec r) = d) ->
  forall acc, exists recs,
    loop groups acc = Ok (acc ++ recs)
    /\ map sim_period recs
       = map fst (filter (fun g => qualifies (snd g)) groups).
Proof.
  intros Hd. induction groups as [|[p sub] groups IH]; intros Hg acc.
  - exists []. simpl. now rewrite app_nil_r.
  - assert (Hsub : forall r, In r sub -> length (vec r) = d).
    { intros r. apply (Hg p sub). now left. }
    assert (Hrest : forall q s r, In (q, s) groups -> In r s ->
                                  length (vec r) = d).
    { intros q s r Hin. apply (Hg q s). now right. }
    simpl. destruct (qualifies sub) eqn:Hq.
    + destruct (period_record_emit d p sub Hd Hsub Hq) as (s & ->). simpl.
      destruct (IH Hrest (acc ++ [mkSim p "KO" "PEP" s]))
        as (recs & -> & Hp).
      exists (mkSim p "KO" "PEP" s :: recs). split.
      * now rewrite <- app_assoc.
      * simpl. now rewrite Hp.
    + rewrite (period_record_skip p sub Hq). simpl.
      destruct (IH Hrest acc) as (recs & -> & Hp).
      exists recs. now split.
Qed.

(** *** The join *)

Lemma merged_vec_dim d meta docs r :
  fixed_dimension d docs ->
  In r (notna_embedding (merge meta docs)) -> length (vec r) = d.
Proof.
  intros Hd Hr. unfold notna_embedding in Hr.
  apply filter_In in Hr as [Hr Hn]. unfold merge in Hr.
  apply in_flat_map in Hr as (m & _ & Hr).
  apply in_flat_map in Hr as (doc & Hdoc & Hr).
  destruct (String.eqb _ _); [|contradiction].
  destruct Hr as [<-|[]]. unfold vec. simpl in *.
  destruct (embedding doc) as [v|] eqn:E; [|discriminate].
  now apply (Hd doc v).
Qed.

Lemma groupby_period_group rows p sub :
  In (p, sub) (groupby_period rows) ->
  sub = filter (period_is p) rows /\ In p (group_keys rows).
Proof.
  unfold groupby_period. intros H.
  apply in_map_iff in H as (q & E & Hq). inversion E; subst. now split.
Qed.


(** The records of a run, for tables with embeddings of one dimension:
    those of the periods whose group holds both tickers. *)
Lemma main_periods d meta docs :
  (0 < d)%nat -> fixed_dimension d docs ->
  exists recs,
    main meta docs = sort_values_period recs
    /\ map sim_period recs
       = map fst (filter (fun g => qualifies (snd g))
                    (groupby_period (notna_embedding (merge meta docs)))).
Proof.
  intros Hd Hdocs. unfold main.
  destruct (loop_periods d
              (groupby_period (notna_embedding (merge meta docs))) Hd)
    with (acc := @nil SimilarityRecord) as (recs & -> & Hp).
  - intros p sub r Hg Hr. apply groupby_period_group in Hg as [-> _].
    apply filter_In in Hr as [Hr _].
    now apply (merged_vec_dim d meta docs).
  - exists recs. simpl. now split.
Qed.

(** A row of the joined table, in terms of the two tables read. *)
Lemma merged_In meta docs r :
  In r (notna_embedding (merge meta docs)) <->
  exists m doc v,
    In m meta /\ In doc docs
    /\ Str.lower (source_file m) = Str.lower (doc_id doc)
    /\ embedding doc = Some v
    /\ r = mkMerged (meta_period m) (meta_ticker m) (Some v).
Proof.
  unfold notna_embedding, merge. rewrite filter_In, in_flat_map. split.
  - intros [(m & Hm & Hin) Hv].
    apply in_flat_map in Hin as (doc & Hdoc & Hin).
    destruct (String.eqb_spec (Str.lower (source_file m))
                              (Str.lower (doc_id doc))) as [E|_];
      [|contradiction].
    destruct Hin as [<-|[]]. simpl in Hv.
    destruct (embedding doc) as [v|] eqn:Ev; [|discriminate].
    exists m, doc, v. auto.
  - intros (m & doc & v & Hm & Hdoc & E & Ev & ->). split.
    + exists m. split; [assumption|]. apply in_flat_map.
      exists doc. split; [assumption|].
      rewrite E, String.eqb_refl, Ev. now left.
    + reflexivity.
Qed.

(** The test of the loop on a group is the presence of a document vector
    of the entity in the period. *)
Lemma has_ticker_group meta docs t p :
  has_ticker t (filter (period_is p) (notna_embedding (merge meta docs)))
  = true
  <-> has_vector meta docs t p.
Proof.
  unfold has_ticker, has_vector. rewrite existsb_exists. split.
  - intros (r & Hr & Ht). apply filter_In in Hr as [Hr Hp].
    apply merged_In in Hr as (m & doc & v & Hm & Hdoc & E & Ev & ->).
    simpl in Ht. unfold period_is in Hp. simpl in Hp.
    apply String.eqb_eq in Ht.
    destruct (meta_period m) as [q|] eqn:Eq; [|discriminate].
    apply String.eqb_eq in Hp. subst q.
    exists m, doc, v. auto 6.
  - intros (m & doc & v & Hm & Hdoc & E & Ht & Hp & Ev).
    exists (mkMerged (meta_period m) (meta_ticker m) (Some v)). split.
    + apply filter_In. split.
      * apply merged_In. exists m, doc, v. auto 6.
      * unfold period_is. simpl. rewrite Hp. apply String.eqb_refl.
    + simpl. rewrite Ht. apply String.eqb_refl.
Qed.




(** One record at most bears a given period. *)
Lemma main_periods_NoDup d meta docs :
  (0 < d)%nat -> fixed_dimension d docs ->
  NoDup (map sim_period (emitted (main meta docs))).
Proof.
  intros Hd Hdocs.
  destruct (main_periods d meta docs Hd Hdocs) as (recs & -> & Hp).
  assert (Hnd : NoDup (map sim_period recs)).
  { rewrite Hp. apply NoDup_map_filter. unfold groupby_period.
    rewrite map_map. simpl. rewrite map_id. unfold group_keys.
    apply isort_NoDup, NoDup_nodup. }
  unfold sort_values_period. destruct recs as [|x recs]; [constructor|].
  unfold emitted.
  apply (Permutation_NoDup (l := map sim_period (x :: recs)));
    [|exact Hnd].
  apply Permutation_map, Permutation_sym, isort_Permutation.
Qed.


Lemma sample_docs_dimension : fixed_dimension 2 sample_docs.
Proof.
  intros doc v Hin Hv. unfold sample_docs in Hin. simpl in Hin.
  destruct Hin as [<-|[<-|[<-|[]]]]; simpl in Hv; inversion Hv; reflexivity.
Qed.

(** The groups of the sample tables. *)
Example sample_groups :
  groupby_period (notna_embedding (merge sample_meta sample_docs))
  = [("2020Q1"%string,
      [mkMerged (Some "2020Q1"%string) "KO" (Some [1; 0])]);
     ("2020Q2"%string,
      [mkMerged (Some "2020Q2"%string) "KO" (Some [1; 1]);
       mkMerged (Some "2020Q2"%string) "PEP" (Some [0; 1])])].
Proof. reflexivity. Qed.

Lemma sample_has_vector t p m doc v :
  In m sample_meta -> In doc sample_docs ->
  Str.lower (source_file m) = Str.lower (doc_id doc) ->
  meta_ticker m = t -> meta_period m = Some p -> embedding doc = Some v ->
  has_vector sample_meta sample_docs t p.
Proof. intros. exists m, doc, v. auto 6. Qed.


End FirmSimFacts.

(** ** The similarity in binary64 *)

(** *** Rounding *)

Module Binary64Facts.
Import SpecFloat Binary64.

Local Open Scope Z_scope.

(** **** Digits *)

Lemma digits2_pos_size p : digits2_pos p = Pos.size p.
Proof. induction p; simpl; now rewrite ?IHp. Qed.

Lemma Zdigits2_log2 m : 0 < m -> Zdigits2 m = Z.log2 m + 1.
Proof.
  destruct m as [|p|p]; try lia. intros _. simpl.
  rewrite digits2_pos_size. destruct p; simpl; lia.
Qed.






(** A number of [d] digits is at least [2 ^ (d - 1)]. *)
Lemma Zdigits2_lower m : 0 < m -> 2 ^ (Zdigits2 m - 1) <= m.
Proof.
  intros H. rewrite Zdigits2_log2 by lia.
  replace (Z.log2 m + 1 - 1) with (Z.log2 m) by lia.
  now apply Z.log2_spec.
Qed.

(** **** Shifting to the right *)













(** **** The operations *)














End Binary64Facts.

(** *** The similarity of two rows *)

Module FirmSim64Facts.
Import SpecFloat Binary64 FirmSim64.

Local Open Scope Z_scope.




(** **** The checks on the input *)


Lemma check_array_not_finite a :
  ~ finite_vector a -> exists msg, check_array a = Raise (ValueError msg).
Proof.
  intros F. unfold check_array.
  destruct (existsb is_nan a); [eauto|].
  destruct (forallb is_finite a) eqn:A; [|cbn [negb]; eauto].
  exfalso. apply F. intros x Hx.
  exact (proj1 (forallb_forall _ _) A x Hx).
Qed.

Lemma check_array_cases a :
  check_array a = Ok tt \/ exists msg, check_array a = Raise (ValueError msg).
Proof.
  unfold check_array.
  destruct (existsb is_nan a); [eauto|].
  destruct (forallb is_finite a); cbn [negb]; [|eauto].
  destruct (length a =? 0)%nat; eauto.
Qed.


(** **** Zero vectors *)






(** **** The norm of a finite row *)








(** A pair with a NaN or an infinity in either row is refused. *)
Lemma cosine_similarity_not_finite a b :
  ~ finite_vector a \/ ~ finite_vector b ->
  exists msg, cosine_similarity a b = Raise (ValueError msg).
Proof.
  intros F. unfold cosine_similarity.
  destruct (check_array_cases a) as [Ea|(msg & Ea)]; rewrite Ea;
    cbn [Py.bind]; [|eauto].
  destruct F as [F|F].
  - destruct (check_array_not_finite a F) as (msg & E). congruence.
  - destruct (check_array_not_finite b F) as (msg & ->). cbn [Py.bind]. eauto.
Qed.

(** A vector of norm below the threshold is not normalised at all. *)
Example cosine_similarity_below_threshold :
  cosine_similarity [of_scaled 1 (-60)] [one] = Ok (of_scaled 1 (-60)).
Proof. vm_compute. reflexivity. Qed.

End FirmSim64Facts.

(** ** comovement_new.py *)

Module ComovementFacts.
Import Comovement.

Local Open Scope R_scope.

(** *** Fisher transform *)

Lemma sign_of_pos x : 0 < x -> sign_of x = Pos.
Proof.
  intros H. unfold sign_of.
  destruct (total_order_T x 0) as [[L|E]|G]; [lra | lra | reflexivity].
Qed.

Lemma sign_of_zero : sign_of (1 + - (1)) = Zero.
Proof.
  unfold sign_of.
  destruct (total_order_T (1 + - (1)) 0) as [[L|E]|G];
    [lra | reflexivity | lra].
Qed.

(** The clipped value of a finite correlation. *)
Lemma clip_finite r :
  exists c,
    clip (-0.999999) 0.999999 (Finite r) = Finite c
    /\ -0.999999 <= c <= 0.999999
    /\ (-0.999999 <= r <= 0.999999 -> c = r)
    /\ (-1 < r < 1 -> Rabs (c - r) <= 0.000001).
Proof.
  unfold clip.
  destruct (Rlt_dec r (-0.999999)) as [L|L].
  - exists (-0.999999). repeat split; try lra.
    intros H. apply Rabs_le. lra.
  - destruct (Rlt_dec 0.999999 r) as [U|U].
    + exists 0.999999. repeat split; try lra.
      intros H. apply Rabs_le. lra.
    + exists r. repeat split; try lra.
      intros _. replace (r - r) with 0 by ring. rewrite Rabs_R0. lra.
Qed.

(** The transform of a value strictly between -1 and 1, without clip. *)
Lemma fisher_core c :
  -1 < c < 1 ->
  fmul (Finite 0.5)
       (flog (fdiv (fadd (Finite 1) (Finite c)) (fsub (Finite 1) (Finite c))))
  = Finite (0.5 * ln ((1 + c) / (1 + - c))).
Proof.
  intros H. unfold fsub, fneg, fadd, fdiv.
  rewrite (sign_of_pos (1 + - c)) by lra.
  unfold flog. rewrite sign_of_pos; [reflexivity|].
  apply Rdiv_lt_0_compat; lra.
Qed.

(** [tanh] undoes the transform. *)
Lemma tanh_half_ln c :
  -1 < c < 1 -> tanh (0.5 * ln ((1 + c) / (1 + - c))) = c.
Proof.
  intros H.
  assert (Hq : 0 < (1 + c) / (1 + - c)) by (apply Rdiv_lt_0_compat; lra).
  set (q := (1 + c) / (1 + - c)) in *.
  set (e := exp (0.5 * ln q)).
  assert (He : 0 < e) by apply exp_pos.
  assert (Hee : e * e = q).
  { unfold e. rewrite <- exp_plus.
    replace (0.5 * ln q + 0.5 * ln q) with (ln q) by lra.
    now apply exp_ln. }
  unfold tanh, sinh, cosh. rewrite exp_Ropp. fold e.
  assert (Hq1 : q * (1 + - c) = 1 + c).
  { unfold q. field. lra. }
  assert (Hform : (e - / e) / 2 / ((e + / e) / 2)
                  = (e * e - 1) / (e * e + 1)).
  { field. split; nra. }
  rewrite Hform, Hee.
  apply Rmult_eq_reg_r with (q + 1); [|lra].
  unfold Rdiv. rewrite Rmult_assoc, Rinv_l by lra. nra.
Qed.

Lemma fisher_z1_finite r :
  exists c,
    clip (-0.999999) 0.999999 (Finite r) = Finite c
    /\ fisher_z1 (Finite r) = Finite (0.5 * ln ((1 + c) / (1 + - c)))
    /\ fisher_inv (fisher_z1 (Finite r)) = Finite c.
Proof.
  destruct (clip_finite r) as (c & Hc & Hb & _).
  exists c. split; [exact Hc|].
  assert (Hz : fisher_z1 (Finite r)
               = Finite (0.5 * ln ((1 + c) / (1 + - c)))).
  { unfold fisher_z1. rewrite Hc. apply fisher_core. lra. }
  split; [exact Hz|].
  rewrite Hz. unfold fisher_inv, ftanh. f_equal. apply tanh_half_ln. lra.
Qed.

(** Whatever the input, the clipped transform is finite or NaN. *)
Lemma fisher_z1_not_infinite x :
  fisher_z1 x <> PosInf /\ fisher_z1 x <> NegInf.
Proof.
  destruct x as [r| | |].
  - destruct (fisher_z1_finite r) as (c & _ & -> & _).
    split; discriminate.
  - unfold fisher_z1. simpl clip. rewrite fisher_core by lra.
    split; discriminate.
  - unfold fisher_z1. simpl clip. rewrite fisher_core by lra.
    split; discriminate.
  - unfold fisher_z1. simpl. split; discriminate.
Qed.

(** Without the clip a correlation of exactly 1 is sent to infinity. *)
Lemma fisher_z_unclipped_at_one : fisher_z_unclipped (Finite 1) = PosInf.
Proof.
  unfold fisher_z_unclipped, fsub, fneg, fadd, fdiv.
  rewrite sign_of_zero, (sign_of_pos (1 + 1)) by lra. simpl.
  rewrite (sign_of_pos 0.5) by lra. reflexivity.
Qed.

(** C6.  For a correlation strictly between -1 and 1 the transform is a
    finite number and [tanh] of it is the correlation again, exactly when
    the clip leaves it alone and within the width of the clip (1e-6)
    otherwise; for a correlation in [-1, 1], and for every value of a
    series, the transform is never infinite. *)
Theorem fisher_round_trip :
  (forall r, -1 < r < 1 ->
     exists z r',
       fisher_z1 (Finite r) = Finite z
       /\ fisher_inv (Finite z) = Finite r'
       /\ Rabs (r' - r) <= 0.000001
       /\ (-0.999999 <= r <= 0.999999 -> r' = r))
  /\ (forall r, -1 <= r <= 1 -> exists z, fisher_z1 (Finite r) = Finite z)
  /\ (forall series d z,
        In (d, z) (fisher_z series) -> z <> PosInf /\ z <> NegInf).
Proof.
  split; [|split].
  - intros r Hr.
    destruct (fisher_z1_finite r) as (c & Hc & Hz & Hinv).
    destruct (clip_finite r) as (c' & Hc' & _ & Hsame & Hnear).
    rewrite Hc in Hc'. inversion Hc'; subst c'.
    exists (0.5 * ln ((1 + c) / (1 + - c))), c.
    rewrite Hz in Hinv. auto.
  - intros r _. destruct (fisher_z1_finite r) as (c & _ & Hz & _).
    eexists. exact Hz.
  - intros series d z Hin. unfold fisher_z in Hin.
    apply in_map_iff in Hin as ([d' v] & E & _). inversion E; subst.
    apply fisher_z1_not_infinite.
Qed.

Lemma fisher_round_trip_witness :
  (exists z r',
      fisher_z1 (Finite 0.5) = Finite z
      /\ fisher_inv (Finite z) = Finite r'
      /\ Rabs (r' - 0.5) <= 0.000001
      /\ (-0.999999 <= 0.5 <= 0.999999 -> r' = 0.5))
  /\ (exists z, fisher_z1 (Finite 1) = Finite z).
Proof.
  destruct fisher_round_trip as (H1 & H2 & _). split.
  - apply (H1 0.5). lra.
  - apply (H2 1). lra.
Defined.

(** *** Alignment of the two return series *)

Lemma get_In s d v : NoDup (index s) -> In (d, v) s -> get s d = v.
Proof.
  induction s as [|[d' v'] s IH]; simpl; intros Hnd Hin; [contradiction|].
  inversion Hnd as [|? ? Hd' Hnd']; subst.
  destruct Hin as [E|Hin].
  - inversion E; subst. now rewrite Z.eqb_refl.
  - destruct (Z.eqb_spec d d') as [->|_]; [|now apply IH].
    elim Hd'. change d' with (fst (d', v)). now apply in_map.
Qed.

Lemma get_notin s d : ~ In d (index s) -> get s d = NaN.
Proof.
  induction s as [|[d' v'] s IH]; simpl; intros H; [reflexivity|].
  destruct (Z.eqb_spec d d') as [->|_]; [elim H; now left|].
  apply IH. tauto.
Qed.

Lemma notna_get_In s d : notna (get s d) = true -> In d (index s).
Proof.
  intros H. destruct (in_dec Z.eq_dec d (index s)) as [Hin|Hn];
    [assumption|].
  rewrite (get_notin s d Hn) in H. discriminate.
Qed.

Lemma has_dup_false l : has_dup l = false <-> NoDup l.
Proof.
  induction l as [|x l IH]; simpl.
  - split; [constructor | reflexivity].
  - rewrite orb_false_iff, IH. split.
    + intros [Hx Hl]. constructor; [|assumption].
      intros Hin. assert (E : existsb (Z.eqb x) l = true).
      { apply existsb_exists. exists x. split; [assumption|].
        apply Z.eqb_refl. }
      congruence.
    + intros Hnd. inversion Hnd as [|? ? Hx Hl]; subst.
      split; [|assumption].
      destruct (existsb (Z.eqb x) l) eqn:E; [|reflexivity].
      apply existsb_exists in E as (y & Hy & Hxy).
      apply Z.eqb_eq in Hxy. subst y. contradiction.
Qed.

Lemma filter_map_length {A B : Type} (f : A -> B) (P : B -> bool) l :
  length (filter P (map f l)) = length (filter (fun x => P (f x)) l).
Proof.
  induction l as [|x l IH]; simpl; [reflexivity|].
  destruct (P (f x)); simpl; now rewrite IH.
Qed.

Lemma filter_ext_length {A : Type} (P Q : A -> bool) l :
  (forall x, In x l -> P x = Q x) ->
  length (filter P l) = length (filter Q l).
Proof.
  intros H. now rewrite (filter_ext_in P Q l H).
Qed.

Lemma map_fst_combine {A B : Type} (l : list A) (l' : list B) :
  length l = length l' -> map fst (combine l l') = l.
Proof.
  revert l'. induction l as [|x l IH]; intros [|y l'] H; simpl in *;
    try reflexivity; try discriminate.
  f_equal. apply IH. now inversion H.
Qed.

Lemma combine_same_index (a b : Series) pa pb :
  index a = index b -> In (pa, pb) (combine a b) ->
  fst pa = fst pb /\ In pb b.
Proof.
  revert b. induction a as [|x a IH]; intros [|y b] Hi Hin; simpl in *;
    try contradiction.
  inversion Hi as [[Hxy Hrest]].
  destruct Hin as [E|Hin].
  - inversion E; subst. split; [assumption | now left].
  - destruct (IH b Hrest Hin) as [H1 H2]. split; [assumption | now right].
Qed.

Lemma union_index_NoDup a b : NoDup (union_index a b).
Proof. apply isort_NoDup, NoDup_nodup. Qed.

Lemma union_index_In a b d :
  In d (union_index a b) <-> In d (index a) \/ In d (index b).
Proof.
  unfold union_index. now rewrite isort_In, nodup_In, in_app_iff.
Qed.

(** The frame the code drops the missing rows of has as many rows as the
    series share observations, and no label twice. *)
Lemma overlap_frame_spec a b :
  NoDup (index a) -> NoDup (index b) ->
  exists df,
    overlap_frame a b = Ok df
    /\ length df = overlap_count a b
    /\ NoDup (frame_index df).
Proof.
  intros Ha Hb. unfold overlap_frame, concat_axis1, same_index.
  destruct (list_eq_dec Z.eq_dec (index a) (index b)) as [E|N].
  - simpl. eexists; split; [reflexivity|]. split.
    + unfold dropna, overlap_count.
      rewrite filter_map_length. simpl.
      assert (Hlen : length a = length b).
      { apply (f_equal (@length Z)) in E. unfold index in E.
        now rewrite !length_map in E. }
      rewrite <- (map_fst_combine a b Hlen) at 2.
      rewrite filter_map_length.
      apply filter_ext_length. intros [pa pb] Hin. simpl.
      destruct (combine_same_index a b pa pb E Hin) as [Hd Hpb].
      f_equal. rewrite Hd. f_equal.
      destruct pb as [d v]. simpl. symmetry. now apply get_In.
    + unfold frame_index, dropna.
      apply NoDup_map_filter. rewrite map_map. simpl.
      assert (Hlen : length a = length b).
      { apply (f_equal (@length Z)) in E. unfold index in E.
        now rewrite !length_map in E. }
      rewrite <- (map_map fst fst), (map_fst_combine a b Hlen).
      exact Ha.
  - rewrite (proj2 (has_dup_false (index a)) Ha),
            (proj2 (has_dup_false (index b)) Hb). simpl.
    eexists; split; [reflexivity|]. split.
    + unfold dropna, overlap_count.
      rewrite filter_map_length. simpl.
      set (P := fun d => notna (get a d) && notna (get b d)).
      transitivity (length (filter P (index a))).
      * apply Permutation_length, NoDup_Permutation.
        -- apply NoDup_filter, union_index_NoDup.
        -- apply NoDup_filter, Ha.
        -- intros d. rewrite !filter_In, union_index_In. split.
           ++ intros [_ HP]. split; [|assumption].
              unfold P in HP. apply andb_true_iff in HP as [HP _].
              now apply notna_get_In.
           ++ intros [Hin HP]. split; [now left | assumption].
      * unfold index. rewrite filter_map_length.
        apply filter_ext_length. intros [d v] Hin. unfold P. simpl.
        now rewrite (get_In a d v Ha Hin).
    + unfold frame_index, dropna.
      apply NoDup_map_filter. rewrite map_map. simpl. rewrite map_id.
      apply union_index_NoDup.
Qed.

(** *** The rolling window *)

Lemma In_combine_nth_error {A B : Type} (l : list A) (l' : list B) x y :
  In (x, y) (combine l l') ->
  exists i, nth_error l i = Some x /\ nth_error l' i = Some y.
Proof.
  revert l'. induction l as [|a l IH]; intros [|b l'] H; simpl in H;
    try contradiction.
  destruct H as [E|H].
  - inversion E; subst. now exists 0%nat.
  - destruct (IH l' H) as (i & H1 & H2). now exists (S i).
Qed.

Lemma nth_error_map_seq {B : Type} (f : nat -> B) s n i v :
  nth_error (map f (seq s n)) i = Some v -> (i < n)%nat /\ v = f (s + i)%nat.
Proof.
  revert s i. induction n as [|n IH]; intros s [|i] H; simpl in H;
    try discriminate.
  - inversion H. split; [lia | now rewrite Nat.add_0_r].
  - destruct (IH (S s) i H) as [Hi Hv]. split; [lia|].
    rewrite Hv. f_equal. lia.
Qed.

Lemma rolling_at_short df w i :
  (i + 1 < w)%nat -> rolling_at df w i = NaN.
Proof.
  intros H. unfold rolling_at.
  now rewrite (proj2 (Nat.ltb_lt (i + 1) w) H).
Qed.

Lemma window_rows_full df w i :
  (i < length df)%nat -> (w <= i + 1)%nat -> length (window_rows df w i) = w.
Proof.
  intros Hi Hw. unfold window_rows.
  rewrite length_firstn, length_skipn. lia.
Qed.

(** Every value that survives [dropna] sits at a position that closes a
    full window. *)
Lemma rolling_corr_positions df w rho :
  (0 <= w)%Z ->
  rolling_corr df w = Ok rho ->
  forall d v, In (d, v) (dropna_series rho) ->
    exists i,
      (Z.to_nat w - 1 <= i < length df)%nat
      /\ nth_error (frame_index df) i = Some d
      /\ v = rolling_at df (Z.to_nat w) i
      /\ length (window_rows df (Z.to_nat w) i) = Z.to_nat w.
Proof.
  intros Hw Hr d v Hin. unfold rolling_corr in Hr.
  rewrite (proj2 (Z.ltb_ge w 0) Hw) in Hr. inversion Hr; subst rho; clear Hr.
  unfold dropna_series in Hin. apply filter_In in Hin as [Hin Hv].
  simpl in Hv.
  apply In_combine_nth_error in Hin as (i & Hd & Hval).
  apply nth_error_map_seq in Hval as [Hi Hval]. simpl in Hval.
  assert (Hfull : (Z.to_nat w <= i + 1)%nat).
  { destruct (Nat.lt_ge_cases (i + 1) (Z.to_nat w)) as [Hs|Hs];
      [|assumption].
    rewrite (rolling_at_short df _ i Hs) in Hval. subst v. discriminate. }
  exists i. repeat split; try assumption; try lia.
  now apply window_rows_full.
Qed.

(** The sample series share the dates 2, 3 and 4. *)
Example overlap_frame_sample :
  overlap_frame sample_returns_a sample_returns_b
  = Ok [(2%Z, Finite 1, Finite 2); (3%Z, Finite 2, Finite 1);
        (4%Z, Finite 4, Finite 3)].
Proof. reflexivity. Qed.

Lemma diff_from_index prev s : index (diff_from prev s) = index s.
Proof.
  revert prev. induction s as [|[d v] s IH]; intros prev; simpl;
    [reflexivity | now rewrite IH].
Qed.

(** Returns are labelled by the dates of the prices. *)
Lemma to_log_returns_index px : index (to_log_returns px) = index px.
Proof.
  unfold to_log_returns. destruct px as [|[d v] px]; simpl; [reflexivity|].
  rewrite diff_from_index. unfold index. now rewrite map_map.
Qed.

(** C7.  For two return series with one value per date: when they share
    fewer observations than the window, the computation raises
    InsufficientOverlap; when they share at least [window] of them, it
    returns, every value it returns sits at a position of the overlap
    where [window] observations are there, and the dates of the first
    [window - 1] positions are not in the result. *)
Theorem compute_rolling_corr_overlap :
  forall ret_a ret_b window,
    NoDup (index ret_a) -> NoDup (index ret_b) ->
    ((Z.of_nat (overlap_count ret_a ret_b) < window)%Z ->
       compute_rolling_corr ret_a ret_b window = Raise InsufficientOverlap)
    /\ ((0 <= window <= Z.of_nat (overlap_count ret_a ret_b))%Z ->
        exists df rho,
          overlap_frame ret_a ret_b = Ok df
          /\ length df = overlap_count ret_a ret_b
          /\ compute_rolling_corr ret_a ret_b window = Ok rho
          /\ (forall d v, In (d, v) rho ->
                exists i,
                  (Z.to_nat window - 1 <= i < length df)%nat
                  /\ nth_error (frame_index df) i = Some d
                  /\ length (window_rows df (Z.to_nat window) i)
                     = Z.to_nat window)
          /\ (forall i d,
                (i < Z.to_nat window - 1)%nat ->
                nth_error (frame_index df) i = Some d ->
                ~ In d (index rho))).
Proof.
  intros ret_a ret_b window Ha Hb.
  destruct (overlap_frame_spec ret_a ret_b Ha Hb) as (df & Hdf & Hlen & Hnd).
  split.
  - intros Hlt. unfold compute_rolling_corr. rewrite Hdf. simpl.
    rewrite Hlen. now rewrite (proj2 (Z.ltb_lt _ _) Hlt).
  - intros [Hw0 Hw].
    assert (Hrho : rolling_corr df window
                   = Ok (combine (frame_index df)
                           (map (rolling_at df (Z.to_nat window))
                                (seq 0 (length df))))).
    { unfold rolling_corr. now rewrite (proj2 (Z.ltb_ge window 0) Hw0). }
    assert (Hpos : forall d v,
               In (d, v)
                  (dropna_series
                     (combine (frame_index df)
                        (map (rolling_at df (Z.to_nat window))
                             (seq 0 (length df))))) ->
               exists i,
                 (Z.to_nat window - 1 <= i < length df)%nat
                 /\ nth_error (frame_index df) i = Some d
                 /\ length (window_rows df (Z.to_nat window) i)
                    = Z.to_nat window).
    { intros d v Hin.
      destruct (rolling_corr_positions df window _ Hw0 Hrho d v Hin)
        as (i & Hi & Hd & _ & Hfull).
      now exists i. }
    exists df. eexists. split; [exact Hdf|]. split; [exact Hlen|].
    split; [|split].
    + unfold compute_rolling_corr. rewrite Hdf. simpl. rewrite Hlen.
      rewrite (proj2 (Z.ltb_ge _ _) Hw), Hrho. reflexivity.
    + exact Hpos.
    + intros i d Hi Hd Hin. unfold index in Hin.
      apply in_map_iff in Hin as ([d' v] & E & Hin). simpl in E. subst d'.
      destruct (Hpos d v Hin) as (j & Hj & Hdj & _).
      assert (E : i = j).
      { apply (proj1 (NoDup_nth_error (frame_index df)) Hnd).
        - apply nth_error_Some. congruence.
        - congruence. }
      lia.
Qed.

Lemma sample_returns_index : NoDup (index sample_returns_a)
                             /\ NoDup (index sample_returns_b).
Proof.
  split; simpl; repeat constructor; simpl; intuition discriminate.
Qed.

Lemma compute_rolling_corr_overlap_witness :
  compute_rolling_corr sample_returns_a sample_returns_b 5
  = Raise InsufficientOverlap
  /\ exists rho,
       compute_rolling_corr sample_returns_a sample_returns_b 2 = Ok rho
       /\ ~ In 2%Z (index rho).
Proof.
  destruct sample_returns_index as [Ha Hb].
  destruct (compute_rolling_corr_overlap sample_returns_a sample_returns_b 5
              Ha Hb) as [Hshort _].
  destruct (compute_rolling_corr_overlap sample_returns_a sample_returns_b 2
              Ha Hb) as [_ Hfull].
  split.
  - apply Hshort. unfold overlap_count. simpl. lia.
  - destruct Hfull as (df & rho & Hdf & _ & Hrho & _ & Hfirst).
    + unfold overlap_count. simpl. lia.
    + exists rho. split; [exact Hrho|].
      apply (Hfirst 0%nat 2%Z).
      * simpl. lia.
      * unfold overlap_frame in Hdf. simpl in Hdf.
        inversion Hdf; subst df. reflexivity.
Defined.

End ComovementFacts.

(** ** pdf_reader.py *)

Module PdfReaderFacts.
Import PdfReader.

Local Open Scope string_scope.
Local Open Scope nat_scope.

(** *** [strip] *)

Lemma rstrip_empty s : rstrip s = "" <-> whitespace_only s = true.
Proof.
  induction s as [|c s IH]; simpl; [tauto|].
  destruct (rstrip s) as [|c' t].
  - destruct (is_space c); simpl.
    + rewrite <- IH. tauto.
    + split; discriminate.
  - rewrite andb_true_iff, <- IH. split; [discriminate|].
    intros [_ H]. discriminate.
Qed.

Lemma lstrip_whitespace_only s :
  whitespace_only (lstrip s) = whitespace_only s.
Proof.
  induction s as [|c s IH]; simpl; [reflexivity|].
  destruct (is_space c) eqn:E; simpl; [assumption | now rewrite E].
Qed.

(** [not text.strip()] holds exactly for the texts made of whitespace. *)
Lemma strip_empty s : strip s = "" <-> whitespace_only s = true.
Proof.
  unfold strip. now rewrite rstrip_empty, lstrip_whitespace_only.
Qed.

(** *** The search for the quarter label *)

Lemma match_here_label s m :
  match_here s = Some m <-> is_period_label m /\ occurs_at "" m s.
Proof.
  unfold occurs_at. split.
  - unfold match_here. intros H.
    destruct s as [|q [|c [|sp [|d1 [|d2 [|d3 [|d4 post]]]]]]];
      try discriminate.
    destruct (Ascii.eqb q "Q") eqn:Eq; [|discriminate].
    destruct (is_quarter_digit c) eqn:Ec; [|discriminate].
    destruct (Ascii.eqb sp " ") eqn:Esp; [|discriminate].
    destruct (is_digit d1) eqn:E1; [|discriminate].
    destruct (is_digit d2) eqn:E2; [|discriminate].
    destruct (is_digit d3) eqn:E3; [|discriminate].
    destruct (is_digit d4) eqn:E4; [|discriminate].
    simpl in H. inversion H; subst m; clear H.
    apply Ascii.eqb_eq in Eq, Esp. subst q sp. split.
    + exists c, d1, d2, d3, d4. auto 10.
    + exists post. reflexivity.
  - intros [(c & d1 & d2 & d3 & d4 & -> & Hc & H1 & H2 & H3 & H4)
              [post ->]].
    simpl. now rewrite Hc, H1, H2, H3, H4.
Qed.

Lemma occurs_at_cons c pre m s :
  occurs_at (String c pre) m (String c s) <-> occurs_at pre m s.
Proof.
  unfold occurs_at. split; intros [post H]; exists post; simpl in *.
  - now inversion H.
  - now rewrite H.
Qed.

Lemma occurs_at_inv pre m s :
  occurs_at pre m s ->
  pre = "" \/ exists c pre' s',
              pre = String c pre' /\ s = String c s' /\ occurs_at pre' m s'.
Proof.
  destruct pre as [|c pre]; [now left|]. intros [post H]. right.
  simpl in H. exists c, pre, (pre ++ m ++ post). repeat split; try assumption.
  now exists post.
Qed.

Lemma search_cons c s :
  search (String c s)
  = match match_here (String c s) with
    | Some m => Some m
    | None => search s
    end.
Proof. reflexivity. Qed.

Lemma search_some s m : search s = Some m -> first_period_label s m.
Proof.
  revert m. induction s as [|c s IH]; intros m H.
  - simpl in H. discriminate.
  - rewrite search_cons in H.
    destruct (match_here (String c s)) as [m0|] eqn:E.
    + assert (Em : m0 = m) by congruence. rewrite Em in E.
      apply match_here_label in E as [Hl Ho].
      exists "". repeat split; try assumption.
      intros pre' m' _ _. simpl. lia.
    + destruct (IH m H) as (pre & Ho & Hl & Hfirst).
      exists (String c pre). split; [now apply occurs_at_cons|].
      split; [assumption|].
      intros pre' m' Ho' Hl'.
      destruct (occurs_at_inv _ _ _ Ho') as [->|(c' & pre'' & s' & -> & Es & Ho'')].
      * assert (E' : match_here (String c s) = Some m')
          by now apply match_here_label.
        congruence.
      * inversion Es; subst c' s'. simpl.
        apply le_n_S. now apply (Hfirst pre'' m').
Qed.

Lemma search_none s : search s = None -> no_period_label s.
Proof.
  induction s as [|c s IH]; intros H pre m Ho Hl.
  - destruct Ho as [post Ho].
    destruct Hl as (c & d1 & d2 & d3 & d4 & -> & _).
    destruct pre; simpl in Ho; discriminate.
  - rewrite search_cons in H.
    destruct (match_here (String c s)) as [m0|] eqn:E; [discriminate|].
    destruct (occurs_at_inv _ _ _ Ho) as [->|(c' & pre' & s' & -> & Es & Ho')].
    + assert (E' : match_here (String c s) = Some m)
        by now apply match_here_label.
      congruence.
    + inversion Es; subst c' s'. exact (IH H pre' m Ho' Hl).
Qed.

Example search_sample :
  search "FY Q5 2020, Q1 1999 and Q2 2000" = Some "Q1 1999"
  /\ search "Q12020 q1 2020 Q4 20" = None.
Proof. split; reflexivity. Qed.

Example strip_sample :
  strip (String (ascii_of_nat 10) "  call  ") = "call".
Proof. reflexivity. Qed.

(** The period is the first quarter label of the text, or the empty
    string when the text has none. *)
Lemma period_of_spec text :
  first_period_label text (period_of text)
  \/ (no_period_label text /\ period_of text = "").
Proof.
  unfold period_of. destruct (search text) as [m|] eqn:E.
  - left. now apply search_some.
  - right. split; [now apply search_none | reflexivity].
Qed.

(** *** The generator *)

Lemma document_of_In ticker f doc :
  In doc (document_of ticker f) <->
  whitespace_only (extract_text_from_pdf f) = false
  /\ doc = mkDocument ticker (file_name f) (extract_text_from_pdf f)
             (period_of (extract_text_from_pdf f)).
Proof.
  unfold document_of.
  pose proof (strip_empty (extract_text_from_pdf f)) as Hs.
  destruct (strip (extract_text_from_pdf f)) as [|c t].
  - simpl. split; [tauto|]. intros [Hw _].
    rewrite (proj1 Hs eq_refl) in Hw. discriminate.
  - simpl. split.
    + intros [<-|[]]. split; [|reflexivity].
      destruct (whitespace_only (extract_text_from_pdf f)); [|reflexivity].
      destruct Hs as [_ Hs]. discriminate (Hs eq_refl).
    + intros [_ ->]. now left.
Qed.

Lemma glob_pdf_In d f :
  In f (glob_pdf d) <->
  In f (files d) /\ endswith (file_name f) ".pdf" = true.
Proof. unfold glob_pdf. now rewrite isort_In, filter_In. Qed.

Lemma iter_documents_In root doc :
  In doc (iter_documents root) <->
  exists d f,
    In d root /\ is_dir d = true /\ In f (glob_pdf d)
    /\ In doc (document_of (Str.upper (name d)) f).
Proof.
  unfold iter_documents. rewrite in_flat_map. split.
  - intros (d & Hd & Hin). apply isort_In in Hd.
    destruct (is_dir d) eqn:E; simpl in Hin; [|contradiction].
    apply in_flat_map in Hin as (f & Hf & Hdoc).
    now exists d, f.
  - intros (d & f & Hd & Hdir & Hf & Hdoc).
    exists d. split; [now apply isort_In|].
    rewrite Hdir. simpl. apply in_flat_map. now exists f.
Qed.

(** C8.  A PDF file of an entity directory gives a Document exactly when
    its extracted text is not made of whitespace only; and every Document
    the extractor yields comes from such a file, carries the upper-cased
    name of its directory as entity id, and has for period the first
    quarter label of its text, or the empty string when there is none. *)
Theorem iter_documents_spec :
  forall root,
    (forall d f,
        In d root -> is_dir d = true ->
        In f (files d) -> endswith (file_name f) ".pdf" = true ->
        (In (mkDocument (Str.upper (name d)) (file_name f)
                        (extract_text_from_pdf f)
                        (period_of (extract_text_from_pdf f)))
            (iter_documents root)
         <-> whitespace_only (extract_text_from_pdf f) = false))
    /\ (forall doc,
          In doc (iter_documents root) ->
          exists d f,
            In d root /\ is_dir d = true /\ In f (files d)
            /\ endswith (file_name f) ".pdf" = true
            /\ ticker doc = Str.upper (name d)
            /\ doc_id doc = file_name f
            /\ text doc = extract_text_from_pdf f
            /\ whitespace_only (text doc) = false
            /\ (first_period_label (text doc) (period doc)
                \/ (no_period_label (text doc) /\ period doc = ""))).
Proof.
  intros root. split.
  - intros d f Hd Hdir Hf Hpdf. split.
    + intros Hin. apply iter_documents_In in Hin as (d' & f' & _ & _ & _ & H).
      apply document_of_In in H as [Hw E].
      apply (f_equal text) in E. simpl in E. now rewrite E.
    + intros Hw. apply iter_documents_In. exists d, f.
      repeat split; try assumption.
      * now apply glob_pdf_In.
      * now apply document_of_In.
  - intros doc Hin.
    apply iter_documents_In in Hin as (d & f & Hd & Hdir & Hf & H).
    apply glob_pdf_In in Hf as [Hf Hpdf].
    apply document_of_In in H as [Hw ->]. simpl.
    exists d, f. repeat split; try assumption.
    apply period_of_spec.
Qed.

(** The sample tree: the scanned file and the text file give nothing, the
    two transcripts come out in the order of the directory names. *)
Example iter_documents_sample :
  iter_documents sample_root
  = [mkDocument "KO" "call.pdf" "Coca-Cola earnings call" "";
     mkDocument "PEP" "call.pdf"
       (extract_text_from_pdf sample_transcript) "Q2 2021"].
Proof. reflexivity. Qed.

Lemma iter_documents_spec_witness :
  In (mkDocument "PEP" "call.pdf" (extract_text_from_pdf sample_transcript)
                 (period_of (extract_text_from_pdf sample_transcript)))
     (iter_documents sample_root)
  /\ exists d f,
       In d sample_root /\ In f (files d)
       /\ Str.upper (name d) = "KO" /\ file_name f = "call.pdf".
Proof.
  destruct (iter_documents_spec sample_root) as [Hfile Hdoc]. split.
  - apply (Hfile (mkEntry "pep" true [sample_transcript]) sample_transcript).
    + simpl. auto.
    + reflexivity.
    + simpl. auto.
    + reflexivity.
    + reflexivity.
  - destruct (Hdoc (mkDocument "KO" "call.pdf" "Coca-Cola earnings call" ""))
      as (d & f & Hd & _ & Hf & _ & Ht & Hid & _).
    + rewrite iter_documents_sample. now left.
    + exists d, f. simpl in Ht, Hid. auto.
Defined.

End PdfReaderFacts.

(** ** pipeline.py *)

Module PipelineFacts.
Import Pipeline.

(** *** Lists by index *)

Lemma flat_map_ext_in {A B : Type} (f g : A -> list B) l :
  (forall x, In x l -> f x = g x) -> flat_map f l = flat_map g l.
Proof.
  induction l as [|x l IH]; intros H; simpl; [reflexivity|].
  rewrite (H x) by now left. f_equal. apply IH. intros y Hy. apply H.
  now right.
Qed.

Lemma select_all {A : Type} (l : list A) :
  flat_map (select l) (seq 0 (length l)) = l.
Proof.
  induction l as [|x l IH] using rev_ind; [reflexivity|].
  rewrite length_app. simpl length. rewrite Nat.add_1_r, seq_S, flat_map_app.
  simpl. rewrite app_nil_r.
  rewrite (flat_map_ext_in (select (l ++ [x])) (select l)).
  - rewrite IH. f_equal. unfold select.
    now rewrite nth_error_app2, Nat.sub_diag by lia.
  - intros i Hi. apply in_seq in Hi. unfold select.
    now rewrite nth_error_app1 by lia.
Qed.

Lemma select_In {A : Type} (l : list A) i x : In x (select l i) -> In x l.
Proof.
  unfold select. destruct (nth_error l i) as [y|] eqn:E; [|contradiction].
  intros [<-|[]]. now apply nth_error_In with i.
Qed.

Lemma nth_error_combine {A B : Type} (l : list A) (l' : list B) i x y :
  nth_error l i = Some x -> nth_error l' i = Some y ->
  nth_error (combine l l') i = Some (x, y).
Proof.
  revert l l'. induction i as [|i IH]; intros [|a l] [|b l'] Hx Hy;
    simpl in *; try discriminate.
  - now inversion Hx; inversion Hy.
  - now apply IH.
Qed.

Lemma nth_error_iter_rows n d elems i :
  i < n ->
  nth_error (Store.iter_rows n d elems) i
  = Some (firstn d (skipn (i * d) elems)).
Proof.
  revert elems i. induction n as [|n IH]; intros elems [|i] Hi; try lia.
  - reflexivity.
  - simpl. rewrite IH by lia. now rewrite skipn_skipn, Nat.add_comm.
Qed.

Lemma iter_rows_flat_map {A : Type} (f : A -> list R) d l :
  (forall x, In x l -> length (f x) = d) ->
  Store.iter_rows (length l) d (flat_map f l) = map f l.
Proof.
  induction l as [|x l IH]; intros H; simpl; [reflexivity|].
  assert (Hx : length (f x) = d) by (apply H; now left).
  assert (E1 : firstn d (f x ++ flat_map f l) = f x).
  { rewrite <- Hx, firstn_app, Nat.sub_diag, firstn_all. simpl.
    apply app_nil_r. }
  assert (E2 : skipn d (f x ++ flat_map f l) = flat_map f l).
  { rewrite <- Hx, skipn_app, Nat.sub_diag, skipn_all. reflexivity. }
  rewrite E1, E2. f_equal. apply IH. intros y Hy. apply H. now right.
Qed.

Lemma zip4_maps {A B C D E : Type} (f : A -> B) (g : A -> C) (h : A -> D)
      (l : list A) (r : list E) :
  zip4 (map f l) (map g l) (map h l) r
  = map (fun p => (f (fst p), g (fst p), h (fst p), snd p)) (combine l r).
Proof.
  revert r. induction l as [|x l IH]; intros [|e r]; simpl;
    try reflexivity.
  now rewrite IH.
Qed.

(** *** The groups of indices *)

Lemma append_index_concat t idx groups :
  Permutation (concat (map snd (append_index t idx groups)))
              (concat (map snd groups) ++ [idx]).
Proof.
  induction groups as [|[t' l] groups IH]; simpl; [apply Permutation_refl|].
  destruct (String.eqb t t'); simpl.
  - rewrite <- !app_assoc. apply Permutation_app_head.
    apply Permutation_app_comm.
  - rewrite <- app_assoc. now apply Permutation_app_head.
Qed.

Lemma append_index_In t idx groups t' l i :
  In (t', l) (append_index t idx groups) -> In i l ->
  (t' = t /\ i = idx) \/ exists l0, In (t', l0) groups /\ In i l0.
Proof.
  induction groups as [|[t0 l0] groups IH]; simpl.
  - intros [E|[]] Hi. inversion E; subst. destruct Hi as [<-|[]]. now left.
  - destruct (String.eqb_spec t t0) as [->|N]; simpl.
    + intros [E|Hin] Hi.
      * inversion E; subst. apply in_app_iff in Hi as [Hi|[<-|[]]].
        -- right. exists l0. split; [now left | assumption].
        -- now left.
      * right. exists l. split; [now right | assumption].
    + intros [E|Hin] Hi.
      * inversion E; subst. right. exists l. split; [now left | assumption].
      * destruct (IH Hin Hi) as [H|(l1 & H1 & H2)]; [now left|].
        right. exists l1. split; [now right | assumption].
Qed.

Lemma combine_app_same {A B : Type} (l1 l2 : list A) (r1 r2 : list B) :
  length l1 = length r1 ->
  combine (l1 ++ l2) (r1 ++ r2) = combine l1 r1 ++ combine l2 r2.
Proof.
  revert r1. induction l1 as [|x l1 IH]; intros [|y r1] H; simpl in *;
    try discriminate; [reflexivity|].
  f_equal. apply IH. now inversion H.
Qed.

Lemma enumerate_snoc {A : Type} (l : list A) x :
  enumerate (l ++ [x]) = enumerate l ++ [(length l, x)].
Proof.
  unfold enumerate. rewrite length_app. simpl length.
  rewrite Nat.add_1_r, seq_S. simpl.
  rewrite combine_app_same by now rewrite length_seq. reflexivity.
Qed.

Lemma ticker_to_indices_snoc docs d :
  ticker_to_indices (docs ++ [d])
  = append_index (PdfReader.ticker d) (length docs) (ticker_to_indices docs).
Proof.
  unfold ticker_to_indices. rewrite enumerate_snoc, fold_left_app.
  reflexivity.
Qed.

(** Every index of the documents is in one group, once. *)
Lemma ticker_to_indices_concat docs :
  Permutation (concat (map snd (ticker_to_indices docs)))
              (seq 0 (length docs)).
Proof.
  induction docs as [|d docs IH] using rev_ind; [apply Permutation_refl|].
  rewrite ticker_to_indices_snoc, length_app. simpl length.
  rewrite Nat.add_1_r, seq_S. simpl.
  eapply perm_trans; [apply append_index_concat|].
  now apply Permutation_app_tail.
Qed.

(** The indices under a ticker are those of documents of that ticker. *)
Lemma ticker_to_indices_In docs t l i :
  In (t, l) (ticker_to_indices docs) -> In i l ->
  exists d, nth_error docs i = Some d /\ PdfReader.ticker d = t.
Proof.
  revert t l i. induction docs as [|d docs IH] using rev_ind;
    intros t l i Hin Hi; [contradiction|].
  rewrite ticker_to_indices_snoc in Hin.
  destruct (append_index_In _ _ _ _ _ i Hin Hi) as [[-> ->]|(l0 & H0 & Hi0)].
  - exists d. split; [|reflexivity].
    now rewrite nth_error_app2, Nat.sub_diag by lia.
  - destruct (IH t l0 i H0 Hi0) as (d' & Hd' & Ht). exists d'.
    split; [|assumption].
    rewrite nth_error_app1; [assumption|].
    apply nth_error_Some. congruence.
Qed.

(** *** Storing the embeddings *)

Section Storing.

Variable db_accepts : Store.Row -> bool.
Variable docs : list PdfReader.Document.
Variable emb : Store.ndarray.
Variable d : nat.
Hypothesis Hshape : Store.shape emb = [length docs; d].
Hypothesis Hwf : well_formed emb.

Lemma block_size_matrix : block_size emb = d.
Proof. unfold block_size. rewrite Hshape. simpl. lia. Qed.

Lemma block_length i : i < length docs -> length (block emb i) = d.
Proof.
  intros Hi. unfold block. rewrite block_size_matrix.
  rewrite length_firstn, length_skipn.
  unfold well_formed in Hwf. rewrite Hshape in Hwf. simpl in Hwf.
  rewrite Hwf. nia.
Qed.

Lemma rows_of_nth i :
  i < length docs -> nth_error (Store.rows_of emb) i = Some (block emb i).
Proof.
  intros Hi. unfold Store.rows_of, Store.shape_at. rewrite Hshape. simpl.
  rewrite nth_error_iter_rows by assumption.
  unfold block. now rewrite block_size_matrix.
Qed.

Lemma pairs_nth i doc :
  nth_error docs i = Some doc ->
  select (combine docs (Store.rows_of emb)) i = [(doc, block emb i)].
Proof.
  intros Hdoc. unfold select.
  rewrite (nth_error_combine docs (Store.rows_of emb) i doc (block emb i));
    [reflexivity | assumption |].
  apply rows_of_nth. apply nth_error_Some. congruence.
Qed.

Lemma take_rows_matrix idxs :
  (forall i, In i idxs -> i < length docs) ->
  take_rows emb idxs
  = Ok (Store.mkArray [length idxs; d] (flat_map (block emb) idxs))
  /\ Store.rows_of (Store.mkArray [length idxs; d]
                      (flat_map (block emb) idxs))
     = map (block emb) idxs.
Proof.
  intros H. split.
  - unfold take_rows. rewrite Hshape.
    replace (forallb (fun i => i <? length docs) idxs) with true;
      [reflexivity|].
    symmetry. apply forallb_forall. intros i Hi. apply Nat.ltb_lt.
    now apply H.
  - unfold Store.rows_of, Store.shape_at. simpl.
    apply iter_rows_flat_map. intros i Hi. apply block_length. now apply H.
Qed.

Lemma traverse_getitem idxs :
  (forall i, In i idxs -> i < length docs) ->
  exists sub,
    traverse (getitem docs) idxs = Ok sub
    /\ map Some sub = map (nth_error docs) idxs.
Proof.
  induction idxs as [|i idxs IH]; intros H; simpl.
  - now exists [].
  - destruct IH as (sub & -> & Hsub); [intros j Hj; apply H; now right|].
    unfold getitem.
    destruct (nth_error docs i) as [doc|] eqn:E.
    + simpl. exists (doc :: sub). simpl. now rewrite Hsub.
    + apply nth_error_None in E. specialize (H i (or_introl eq_refl)). lia.
Qed.

(** The statements of one ticker are the rows of its documents. *)
Lemma group_statements t idxs sub :
  map Some sub = map (nth_error docs) idxs ->
  (forall i doc, In i idxs -> nth_error docs i = Some doc ->
                 PdfReader.ticker doc = t) ->
  Store.statements t (map PdfReader.doc_id sub) (map PdfReader.text sub)
    (map PdfReader.period sub)
    (Store.mkArray [length idxs; d] (flat_map (block emb) idxs))
  = map (fun p => document_row (fst p) (snd p))
        (flat_map (select (combine docs (Store.rows_of emb))) idxs).
Proof.
  intros Hsub Ht.
  assert (Hin : forall i, In i idxs -> i < length docs).
  { intros i Hi. apply nth_error_Some.
    assert (In (nth_error docs i) (map (nth_error docs) idxs))
      by now apply in_map.
    rewrite <- Hsub in H. apply in_map_iff in H as (x & <- & _).
    discriminate. }
  unfold Store.statements.
  rewrite (proj2 (take_rows_matrix idxs Hin)), zip4_maps, map_map.
  clear Hin. revert sub Hsub Ht.
  induction idxs as [|i idxs IH]; intros [|doc sub] Hsub Ht;
    simpl in Hsub; try discriminate; [reflexivity|].
  inversion Hsub as [[Hdoc Hrest]]. symmetry in Hdoc.
  simpl. rewrite (pairs_nth i doc Hdoc). simpl.
  rewrite (IH sub Hrest) by (intros j dj Hj; apply Ht; now right).
  f_equal. unfold document_row.
  now rewrite (Ht i doc (or_introl eq_refl) Hdoc).
Qed.

Lemma store_groups_all groups :
  (forall t idxs i, In (t, idxs) groups -> In i idxs ->
     exists doc, nth_error docs i = Some doc /\ PdfReader.ticker doc = t) ->
  (forall r, In r (document_rows docs emb) -> db_accepts r = true) ->
  forall store,
    Z.of_nat d = Store.embed_dim store ->
    store_groups db_accepts store groups docs emb
    = (Ok tt,
       Store.mkStore (Store.embed_dim store)
         (Store.table store
          ++ map (fun p => document_row (fst p) (snd p))
               (flat_map (select (combine docs (Store.rows_of emb)))
                         (concat (map snd groups))))).
Proof.
  intros Hg Hacc.
  induction groups as [|[t idxs] groups IH]; intros store Hd; simpl.
  - rewrite app_nil_r. now destruct store.
  - assert (Hin : forall i, In i idxs -> i < length docs).
    { intros i Hi. destruct (Hg t idxs i (or_introl eq_refl) Hi)
        as (doc & Hdoc & _).
      apply nth_error_Some. congruence. }
    assert (Ht : forall i doc, In i idxs -> nth_error docs i = Some doc ->
                               PdfReader.ticker doc = t).
    { intros i doc Hi Hdoc.
      destruct (Hg t idxs i (or_introl eq_refl) Hi) as (doc' & Hdoc' & E).
      congruence. }
    unfold group_batch.
    destruct (traverse_getitem idxs Hin) as (sub & -> & Hsub). simpl.
    rewrite (proj1 (take_rows_matrix idxs Hin)). simpl.
    rewrite StoreFacts.insert_documents_commits.
    + rewrite (group_statements t idxs sub Hsub Ht).
      rewrite IH.
      * simpl. rewrite flat_map_app, map_app, <- app_assoc. reflexivity.
      * intros t' l i Hl Hi. apply (Hg t' l i); [now right | assumption].
      * exact Hd.
    + unfold Store.shape_ok, Store.ndim, Store.shape_at. simpl.
      now rewrite Hd, Z.eqb_refl.
    + rewrite (group_statements t idxs sub Hsub Ht).
      apply forallb_forall. intros r Hr. apply Hacc.
      apply in_map_iff in Hr as (p & <- & Hp).
      apply in_flat_map in Hp as (i & _ & Hp). apply select_In in Hp.
      unfold document_rows. apply in_map_iff. now exists p.
Qed.

End Storing.

(** For a matrix with one row of the store's dimension per document, and
    rows the database takes, [store_embeddings] returns and the table
    gains one row per document, which carries the document's ticker, id,
    text and period and the embedding at the document's position; the
    rows of a ticker are inserted together, so the order is that of the
    documents up to this regrouping. *)
Theorem store_embeddings_stores_each_document :
  forall db_accepts store docs embeddings d,
    Store.shape embeddings = [length docs; d] ->
    well_formed embeddings ->
    Z.of_nat d = Store.embed_dim store ->
    (forall r, In r (document_rows docs embeddings) -> db_accepts r = true) ->
    exists rows,
      store_embeddings db_accepts store docs embeddings
      = (Ok tt, Store.mkStore (Store.embed_dim store)
                  (Store.table store ++ rows))
      /\ Permutation rows (document_rows docs embeddings).
Proof.
  intros db_accepts store docs emb d Hshape Hwf Hd Hacc.
  eexists. split.
  - unfold store_embeddings.
    apply (store_groups_all db_accepts docs emb d Hshape Hwf); try assumption.
    intros t idxs i. apply ticker_to_indices_In.
  - unfold document_rows. apply Permutation_map.
    assert (Hlen : length (combine docs (Store.rows_of emb)) = length docs).
    { rewrite length_combine, StoreFacts.rows_of_length.
      unfold Store.shape_at. rewrite Hshape. simpl. apply Nat.min_id. }
    rewrite <- (select_all (combine docs (Store.rows_of emb))) at 2.
    rewrite Hlen. apply Permutation_flat_map, ticker_to_indices_concat.
Qed.

(** The sample: the rows of KO come first, then the row of PEP. *)
Example store_embeddings_sample :
  store_embeddings (fun _ => true) (Store.mkStore 2 []) sample_docs
                   sample_embeddings
  = (Ok tt,
     Store.mkStore 2
       [Store.mkRow "KO" "k1.pdf" "first" "Q1 2020" [1; 0]%R;
        Store.mkRow "KO" "k2.pdf" "third" "Q2 2020" [1; 1]%R;
        Store.mkRow "PEP" "p1.pdf" "second" "Q1 2020" [0; 1]%R]).
Proof. reflexivity. Qed.

Lemma store_embeddings_stores_each_document_witness :
  exists rows,
    store_embeddings (fun _ => true) (Store.mkStore 2 []) sample_docs
                     sample_embeddings
    = (Ok tt, Store.mkStore 2 ([] ++ rows))
    /\ Permutation rows (document_rows sample_docs sample_embeddings).
Proof.
  apply (store_embeddings_stores_each_document (fun _ => true)
           (Store.mkStore 2 []) sample_docs sample_embeddings 2).
  - reflexivity.
  - reflexivity.
  - reflexivity.
  - reflexivity.
Defined.

(** *** One transaction per ticker *)

Lemma insert_documents_returns db_accepts store t ids contents periods emb u :
  fst (Store.insert_documents db_accepts store t ids contents periods emb)
  = Ok u ->
  snd (Store.insert_documents db_accepts store t ids contents periods emb)
  = Store.mkStore (Store.embed_dim store)
      (Store.table store ++ Store.statements t ids contents periods emb).
Proof.
  unfold Store.insert_documents.
  destruct (negb _ || negb _); [discriminate|].
  destruct (Store.execute_all db_accepts []
              (Store.statements t ids contents periods emb)) as [pending|e]
    eqn:E; [|discriminate].
  intros _. simpl.
  destruct (forallb db_accepts (Store.statements t ids contents periods emb))
    eqn:A.
  - rewrite StoreFacts.execute_all_accepted in E by assumption.
    inversion E. reflexivity.
  - rewrite StoreFacts.execute_all_refused in E by assumption. discriminate.
Qed.

Lemma store_groups_prefix db_accepts docs emb groups :
  forall store,
  exists k,
    k <= length groups
    /\ snd (store_groups db_accepts store groups docs emb)
       = Store.mkStore (Store.embed_dim store)
           (Store.table store
            ++ flat_map (group_rows docs emb) (firstn k groups))
    /\ (fst (store_groups db_accepts store groups docs emb) = Ok tt
        <-> k = length groups).
Proof.
  induction groups as [|[t idxs] groups IH]; intros store; simpl.
  - exists 0. simpl. rewrite app_nil_r. destruct store. simpl. intuition.
  - destruct (group_batch docs emb idxs) as [[sub sub_emb]|e] eqn:B.
    + destruct (Store.insert_documents db_accepts store t
                  (map PdfReader.doc_id sub) (map PdfReader.text sub)
                  (map PdfReader.period sub) sub_emb) as [[u|e] store']
        eqn:I.
      * pose proof (insert_documents_returns db_accepts store t
                      (map PdfReader.doc_id sub) (map PdfReader.text sub)
                      (map PdfReader.period sub) sub_emb u) as Hret.
        rewrite I in Hret. simpl in Hret. specialize (Hret eq_refl).
        destruct (IH store') as (k & Hk & Hsnd & Hfst).
        exists (S k). split; [lia|]. split.
        -- rewrite Hsnd, Hret. simpl. unfold group_rows at 2. simpl.
           rewrite B. now rewrite <- app_assoc.
        -- rewrite Hfst. split; [now intros -> | now intros [= ->]].
      * exists 0. simpl. rewrite app_nil_r.
        pose proof (StoreFacts.insert_documents_atomic db_accepts store t
                      (map PdfReader.doc_id sub) (map PdfReader.text sub)
                      (map PdfReader.period sub) sub_emb e) as Hat.
        rewrite I in Hat. simpl in Hat. rewrite (Hat eq_refl).
        split; [lia|]. split; [now destruct store|].
        split; [discriminate | lia].
    + exists 0. simpl. rewrite app_nil_r.
      split; [lia|]. split; [now destruct store|].
      split; [discriminate | lia].
Qed.

(** Each ticker is stored in a transaction of its own: whatever the
    outcome, the table after [store_embeddings] is the table before it
    followed by the rows of the first [k] tickers, in the order in which
    the tickers first appear among the documents; the call returns
    exactly when [k] counts all of them.  Rows stored for the tickers
    before a failing one stay in the table. *)
Theorem store_embeddings_commits_by_ticker :
  forall db_accepts store docs embeddings,
  exists k,
    k <= length (ticker_to_indices docs)
    /\ snd (store_embeddings db_accepts store docs embeddings)
       = Store.mkStore (Store.embed_dim store)
           (Store.table store
            ++ flat_map (group_rows docs embeddings)
                        (firstn k (ticker_to_indices docs)))
    /\ (fst (store_embeddings db_accepts store docs embeddings) = Ok tt
        <-> k = length (ticker_to_indices docs)).
Proof.
  intros db_accepts store docs emb. apply store_groups_prefix.
Qed.

(** With a database that refuses the transcript of PEP, the two rows of
    KO are stored and stay. *)
Example store_embeddings_partial :
  store_embeddings
    (fun r => negb (String.eqb (Store.ticker r) "PEP"))
    (Store.mkStore 2 []) sample_docs sample_embeddings
  = (Raise (DatabaseError "INSERT refused"),
     Store.mkStore 2
       [Store.mkRow "KO" "k1.pdf" "first" "Q1 2020" [1; 0]%R;
        Store.mkRow "KO" "k2.pdf" "third" "Q2 2020" [1; 1]%R]).
Proof. reflexivity. Qed.

(** *** The vectorizer of the pipeline *)

Section Embedding.

Variable analyze : string -> list string.
Variable tfidf_weight :
  list (list string) -> list string -> list string -> string -> R.

Lemma Finance_init_fitted rt name device normalize batch v :
  Vectorizer.Finance_init rt name device normalize batch = Ok v ->
  Vectorizer.finance_fitted v = true
  /\ Vectorizer._dim v
     = Vectorizer.get_sentence_embedding_dimension (Vectorizer.model v).
Proof.
  unfold Vectorizer.Finance_init. intros H.
  destruct (try_except _ _); simpl in H; [|discriminate].
  destruct (Vectorizer.SentenceTransformer rt name); simpl in H;
    [|discriminate].
  destruct (Vectorizer.move_to_device rt a0 device); simpl in H;
    [|discriminate].
  inversion H; subst. simpl. auto.
Qed.

(** What [fit_vectorizer] returns is a pretrained vectorizer. *)
Lemma fit_vectorizer_returns rt tfidf_fallback_dim docs vec :
  fit_vectorizer analyze rt tfidf_fallback_dim docs = Ok vec ->
  exists v,
    vec = Vectorizer.Finance v
    /\ Vectorizer.Finance_init rt "FinLang/finance-embeddings-investopedia"
         None true 32 = Ok v.
Proof.
  unfold fit_vectorizer, Vectorizer.get_vectorizer. intros H.
  destruct (Vectorizer.Finance_init rt _ None true 32) as [v|e] eqn:E;
    simpl in H.
  - destruct (Finance_init_fitted _ _ _ _ _ _ E) as [Hf _].
    unfold Vectorizer.Finance_fit in H. destruct v; simpl in *.
    subst. inversion H. eauto.
  - destruct (is_Exception e); discriminate.
Qed.

(** [fit_vectorizer] builds the pretrained variant or raises what its
    construction raises: the fallback dimension of the configuration and
    the corpus have no part in the result. *)
Theorem fit_vectorizer_pretrained_only :
  forall rt tfidf_fallback_dim docs,
    fit_vectorizer analyze rt tfidf_fallback_dim docs
    = match Vectorizer.Finance_init rt
              "FinLang/finance-embeddings-investopedia" None true 32 with
      | Ok v => Ok (Vectorizer.Finance v)
      | Raise e => Raise e
      end.
Proof.
  intros rt dim docs. unfold fit_vectorizer, Vectorizer.get_vectorizer.
  destruct (Vectorizer.Finance_init rt _ None true 32) as [v|e] eqn:E;
    simpl.
  - destruct (Finance_init_fitted _ _ _ _ _ _ E) as [Hf _].
    unfold Vectorizer.Finance_fit. destruct v; simpl in *. now rewrite Hf.
  - now destruct (is_Exception e).
Qed.

Lemma Finance_init_settings rt name device normalize batch v :
  Vectorizer.Finance_init rt name device normalize batch = Ok v ->
  Vectorizer._normalize v = normalize /\ Vectorizer._batch_size v = batch.
Proof.
  unfold Vectorizer.Finance_init. intros H.
  destruct (try_except _ _); simpl in H; [|discriminate].
  destruct (Vectorizer.SentenceTransformer rt name); simpl in H;
    [|discriminate].
  destruct (Vectorizer.move_to_device rt a0 device); simpl in H;
    [|discriminate].
  inversion H; subst. simpl. auto.
Qed.

(** With the vectorizer that [fit_vectorizer] returns, [embed_documents]
    does not fail for want of a fit: without documents it returns the
    empty matrix and does not call the model; otherwise it returns what
    [model.encode] returns for the texts of the documents, and raises
    what it raises, the model being called with batches of 32 and
    normalisation on. *)
Theorem embed_documents_after_fit :
  forall rt tfidf_fallback_dim corpus vec docs,
    fit_vectorizer analyze rt tfidf_fallback_dim corpus = Ok vec ->
    exists v,
      vec = Vectorizer.Finance v
      /\ embed_documents analyze tfidf_weight vec docs
         = match docs with
           | [] => Ok []
           | _ => Vectorizer.encode (Vectorizer.model v)
                    (map PdfReader.text docs) 32 true
           end.
Proof.
  intros rt dim corpus vec docs H.
  apply fit_vectorizer_returns in H as (v & -> & E).
  exists v. split; [reflexivity|].
  destruct (Finance_init_fitted _ _ _ _ _ _ E) as [Hf _].
  destruct (Finance_init_settings _ _ _ _ _ _ E) as [Hn Hb].
  unfold embed_documents. simpl. unfold Vectorizer.Finance_transform.
  rewrite Hf, Hn, Hb. simpl. now destruct docs.
Qed.

End Embedding.

Lemma embed_documents_after_fit_witness :
  exists v,
    Vectorizer.Finance (Vectorizer.mkFinance sample_model 2 true 32 true)
    = Vectorizer.Finance v
    /\ embed_documents (Vectorizer.word_analyzer Vectorizer.english_sample)
         (fun _ _ _ _ => 0%R)
         (Vectorizer.Finance (Vectorizer.mkFinance sample_model 2 true 32 true))
         sample_docs
       = Vectorizer.encode (Vectorizer.model v)
           (map PdfReader.text sample_docs) 32 true.
Proof.
  apply (embed_documents_after_fit
           (Vectorizer.word_analyzer Vectorizer.english_sample)
           (fun _ _ _ _ => 0%R) sample_runtime 512 sample_docs
           (Vectorizer.Finance
              (Vectorizer.mkFinance sample_model 2 true 32 true))
           sample_docs).
  reflexivity.
Defined.

Example embed_documents_model_error :
  embed_documents (Vectorizer.word_analyzer Vectorizer.english_sample)
    (fun _ _ _ _ => 0%R)
    (Vectorizer.Finance
       (Vectorizer.mkFinance
          (Vectorizer.mkModel 2
             (fun _ _ _ => Raise (RuntimeError "CUDA out of memory")))
          2 true 32 true))
    sample_docs
  = Raise (RuntimeError "CUDA out of memory").
Proof. reflexivity. Qed.

End PipelineFacts.

(** ** Sorting *)

Section SortFacts.
Context {A : Type}.
Variable le : A -> A -> bool.
Hypothesis le_total : forall x y, le x y = true \/ le y x = true.

Lemma insert_by_HdRel x y l :
  le y x = true ->
  HdRel (fun a b => le a b = true) y l ->
  HdRel (fun a b => le a b = true) y (insert_by le x l).
Proof.
  intros Hyx Hl. destruct l as [|z l]; simpl.
  - now constructor.
  - destruct (le x z); constructor; [assumption|].
    now inversion Hl.
Qed.

Lemma insert_by_Sorted x l :
  Sorted (fun a b => le a b = true) l ->
  Sorted (fun a b => le a b = true) (insert_by le x l).
Proof.
  induction 1 as [|y l Hl IH Hhd]; simpl.
  - repeat constructor.
  - destruct (le x y) eqn:E.
    + constructor; [now constructor | now constructor].
    + constructor; [assumption|].
      apply insert_by_HdRel; [|assumption].
      destruct (le_total x y) as [H|H]; [congruence | assumption].
Qed.

Lemma isort_Sorted l : Sorted (fun a b => le a b = true) (isort le l).
Proof.
  induction l as [|x l IH]; simpl; [constructor|].
  now apply insert_by_Sorted.
Qed.

End SortFacts.

Lemma isort_map {A B : Type} (f : A -> B) (leA : A -> A -> bool)
      (leB : B -> B -> bool) l :
  (forall x y, leA x y = leB (f x) (f y)) ->
  map f (isort leA l) = isort leB (map f l).
Proof.
  intros H. induction l as [|x l IH]; simpl; [reflexivity|].
  rewrite <- IH. generalize (isort leA l). intros s.
  induction s as [|y s IHs]; simpl; [reflexivity|].
  rewrite <- H. destruct (leA x y); simpl; [reflexivity|].
  now rewrite IHs.
Qed.

(** ** firm_sim_by_period.py, similarity_lineplot.py, heatmap_updated.py *)

Module PlotFacts.
Import FirmSim.

Local Open Scope R_scope.

Lemma vstack_returns vs m : vstack vs = Ok m -> m = vs.
Proof.
  unfold vstack. destruct vs as [|v rest]; [discriminate|].
  destruct (forallb (fun w => (length w =? length v)%nat) rest);
    [now intros [= <-] | discriminate].
Qed.

Lemma cosine_similarity_returns a b s :
  cosine_similarity a b = Ok s -> s = dot (normalize a) (normalize b).
Proof.
  unfold cosine_similarity.
  destruct (length a =? 0)%nat; [discriminate|].
  destruct (negb _); [discriminate | now intros [= <-]].
Qed.

(** What the loop adds for one period, when it does not raise. *)
Lemma period_record_returns p sub o :
  period_record p sub = Ok o ->
  o = if qualifies sub
      then Some (mkSim p "KO" "PEP" (Heatmap.group_similarity sub))
      else None.
Proof.
  unfold period_record. destruct (qualifies sub); simpl;
    [|now intros [= <-]].
  unfold firm_vec.
  destruct (vstack (map vec (filter (fun r => String.eqb (ticker_x r) "KO")
                                    sub))) as [ko|] eqn:Eko;
    simpl; [|discriminate].
  destruct (vstack (map vec (filter (fun r => String.eqb (ticker_x r) "PEP")
                                    sub))) as [pep|] eqn:Epep;
    simpl; [|discriminate].
  apply vstack_returns in Eko, Epep. subst ko pep.
  destruct (cosine_similarity _ _) as [s|] eqn:Es; simpl; [|discriminate].
  apply cosine_similarity_returns in Es. intros [= <-].
  unfold Heatmap.group_similarity. now rewrite Es.
Qed.

Lemma loop_returns groups :
  forall acc rows,
    loop groups acc = Ok rows ->
    rows = acc ++ map Heatmap.group_record
                    (filter (fun g => qualifies (snd g)) groups).
Proof.
  induction groups as [|[p sub] groups IH]; intros acc rows H; simpl in *.
  - inversion H. now rewrite app_nil_r.
  - destruct (period_record p sub) as [o|] eqn:E; simpl in H;
      [|discriminate].
    apply period_record_returns in E. subst o.
    destruct (qualifies sub).
    + apply IH in H. rewrite H, <- app_assoc. reflexivity.
    + now apply IH in H.
Qed.

Lemma group_record_In meta docs r :
  In r (map Heatmap.group_record
            (filter (fun g => qualifies (snd g))
                    (groupby_period (notna_embedding (merge meta docs))))) ->
  r = Heatmap.group_record
        (sim_period r,
         filter (period_is (sim_period r))
                (notna_embedding (merge meta docs))).
Proof.
  intros H. apply in_map_iff in H as ([p sub] & <- & Hg).
  apply filter_In in Hg as [Hg _].
  apply FirmSimFacts.groupby_period_group in Hg as [-> _]. reflexivity.
Qed.

(** Whatever the tables, the output of [main] is never an empty frame;
    its records come in ascending order of period with no period twice;
    each compares KO with PEP, and its similarity is the value computed
    from the two mean vectors of its period. *)
Theorem main_output_ordered :
  forall meta docs,
    main meta docs <> Ok []
    /\ Sorted (fun r s => String.leb (sim_period r) (sim_period s) = true)
              (emitted (main meta docs))
    /\ NoDup (map sim_period (emitted (main meta docs)))
    /\ forall r, In r (emitted (main meta docs)) ->
         ticker1 r = "KO"%string /\ ticker2 r = "PEP"%string
         /\ sim_value r
            = Heatmap.group_similarity
                (filter (period_is (sim_period r))
                        (notna_embedding (merge meta docs))).
Proof.
  intros meta docs. unfold main.
  destruct (loop (groupby_period (notna_embedding (merge meta docs))) [])
    as [recs|e] eqn:E; simpl.
  2:{ repeat split; try constructor; try discriminate; contradiction. }
  apply loop_returns in E. simpl in E.
  assert (Hnd : NoDup (map sim_period recs)).
  { rewrite E, map_map. simpl. apply NoDup_map_filter.
    unfold groupby_period. rewrite map_map. simpl. rewrite map_id.
    unfold group_keys. apply isort_NoDup, NoDup_nodup. }
  unfold sort_values_period. destruct recs as [|x recs].
  { repeat split; try constructor; try discriminate; contradiction. }
  unfold emitted. split; [|split; [|split]].
  - intros H. injection H as H.
    apply (f_equal (@length SimilarityRecord)) in H.
    rewrite insert_by_length in H. discriminate.
  - apply isort_Sorted. intros a b. apply String.leb_total.
  - apply (Permutation_NoDup (l := map sim_period (x :: recs)));
      [|exact Hnd].
    apply Permutation_map, Permutation_sym, isort_Permutation.
  - intros r Hr. apply isort_In in Hr. rewrite E in Hr.
    apply group_record_In in Hr.
    rewrite Hr at 1 2 3. simpl.
    repeat split.
Qed.

(** *** The line plot *)

Lemma period_row_record p group :
  Lineplot.period_row p group
  = match period_record p group with
    | Ok o => Ok (option_map Lineplot.series_point o)
    | Raise e => Raise e
    end.
Proof.
  unfold Lineplot.period_row, period_record, qualifies, Lineplot.avg_vec,
    firm_vec.
  destruct (negb _); [reflexivity|].
  destruct (vstack (map vec (filter (fun r => String.eqb (ticker_x r) "KO")
                                    group))); simpl; [|reflexivity].
  destruct (vstack (map vec (filter (fun r => String.eqb (ticker_x r) "PEP")
                                    group))); simpl; [|reflexivity].
  destruct (cosine_similarity _ _); reflexivity.
Qed.

Lemma lineplot_loop groups :
  forall acc,
    Lineplot.loop groups (map Lineplot.series_point acc)
    = match loop groups acc with
      | Ok rows => Ok (map Lineplot.series_point rows)
      | Raise e => Raise e
      end.
Proof.
  induction groups as [|[p g] groups IH]; intros acc; simpl; [reflexivity|].
  rewrite period_row_record.
  destruct (period_record p g) as [[r|]|e]; simpl; [| apply IH | reflexivity].
  rewrite <- IH, map_app. reflexivity.
Qed.

(** The series of the line plot is the series [main] saves: for the same
    two tables [compute_similarity_timeseries] raises when [main] raises,
    with the same error, and otherwise returns the periods and the
    similarities of the records of [main], in the same order. *)
Theorem lineplot_series_is_main :
  forall meta docs,
    Lineplot.compute_similarity_timeseries meta docs
    = match main meta docs with
      | Ok rows => Ok (map (fun r => (sim_period r, sim_value r)) rows)
      | Raise e => Raise e
      end.
Proof.
  intros meta docs.
  unfold Lineplot.compute_similarity_timeseries, main.
  change (@nil (string * R)) with (map Lineplot.series_point []).
  rewrite lineplot_loop.
  destruct (loop (groupby_period (notna_embedding (merge meta docs))) [])
    as [rows|e]; simpl; [|reflexivity].
  unfold sort_values_period. destruct rows as [|x rows]; [reflexivity|].
  rewrite <- (isort_map Lineplot.series_point
                (fun r s => String.leb (sim_period r) (sim_period s))
                (fun r s => String.leb (fst r) (fst s)) (x :: rows))
    by reflexivity.
  reflexivity.
Qed.

(** *** The heat map *)

Lemma filter_filter_and {A : Type} (f g : A -> bool) l :
  filter f (filter g l) = filter (fun x => f x && g x) l.
Proof.
  induction l as [|x l IH]; simpl; [reflexivity|].
  destruct (g x); simpl.
  - rewrite andb_true_r. destruct (f x); now rewrite IH.
  - now rewrite andb_false_r.
Qed.

(** The rows of the period are the group of the period in [main]. *)
Lemma in_period_group meta docs p :
  filter (Heatmap.in_period p) (merge meta docs)
  = filter (period_is p) (notna_embedding (merge meta docs)).
Proof. unfold notna_embedding. now rewrite filter_filter_and. Qed.

Lemma traverse_map {A B : Type} (f : A -> result B) (g : A -> B) l :
  (forall x, In x l -> f x = Ok (g x)) ->
  Pipeline.traverse f l = Ok (map g l).
Proof.
  induction l as [|x l IH]; intros H; simpl; [reflexivity|].
  rewrite (H x) by now left. simpl.
  rewrite IH by (intros y Hy; apply H; now right). reflexivity.
Qed.

Lemma traverse_length {A B : Type} (f : A -> result B) l ys :
  Pipeline.traverse f l = Ok ys -> length ys = length l.
Proof.
  revert ys. induction l as [|x l IH]; intros ys H; simpl in H.
  - now inversion H.
  - destruct (f x); simpl in H; [|discriminate].
    destruct (Pipeline.traverse f l); simpl in H; [|discriminate].
    inversion H. simpl. f_equal. now apply IH.
Qed.

Lemma lookup_map (g : string -> vector) keys f :
  In f keys -> Heatmap.lookup (map (fun t => (t, g t)) keys) f = Ok (g f).
Proof.
  induction keys as [|k keys IH]; intros H; [contradiction|]. simpl.
  destruct (String.eqb_spec f k) as [->|N]; [reflexivity|].
  apply IH. destruct H as [->|H]; [congruence | assumption].
Qed.

Lemma traverse_raises {A B : Type} (f : A -> result B) l e :
  Pipeline.traverse f l = Raise e -> exists x, In x l /\ f x = Raise e.
Proof.
  induction l as [|x l IH]; intros H; simpl in H; [discriminate|].
  destruct (f x) as [y|e'] eqn:E; simpl in H.
  - destruct (Pipeline.traverse f l) as [ys|e'']; simpl in H;
      [discriminate|].
    destruct IH as (z & Hz & Hf); [assumption|].
    exists z. split; [now right | assumption].
  - exists x. split; [now left | congruence].
Qed.

Lemma lookup_raises fv f e : Heatmap.lookup fv f = Raise e -> e = KeyError f.
Proof.
  induction fv as [|[t v] fv IH]; simpl; [now intros [= <-]|].
  destruct (String.eqb f t); [discriminate | assumption].
Qed.

Lemma vstack_raises vs e :
  vstack vs = Raise e ->
  e = ValueError "need at least one array to concatenate"
  \/ e = ValueError "all the input array dimensions must match".
Proof.
  unfold vstack. destruct vs as [|v rest]; [intros [= <-]; now left|].
  destruct (forallb (fun w => (length w =? length v)%nat) rest);
    [discriminate | intros [= <-]; now right].
Qed.

Lemma ticker_keys_In sub t :
  In t (Heatmap.ticker_keys sub) <-> has_ticker t sub = true.
Proof.
  unfold Heatmap.ticker_keys, has_ticker.
  rewrite isort_In, nodup_In, in_map_iff, existsb_exists. split.
  - intros (r & <- & Hr). exists r. split; [assumption|].
    apply String.eqb_refl.
  - intros (r & Hr & E). apply String.eqb_eq in E. now exists r.
Qed.

Section OnePeriod.

Variable d : nat.
Variable meta : list MetaRow.
Variable docs : list DocRow.
Variable p : string.
Hypothesis Hdim : fixed_dimension d docs.

Lemma period_rows_dim r :
  In r (filter (Heatmap.in_period p) (merge meta docs)) -> length (vec r) = d.
Proof.
  rewrite in_period_group. intros H. apply filter_In in H as [H _].
  now apply (FirmSimFacts.merged_vec_dim d meta docs).
Qed.

Lemma firm_vector_uniform t :
  In t (Heatmap.ticker_keys (filter (Heatmap.in_period p) (merge meta docs)))
  -> Heatmap.firm_vector (filter (Heatmap.in_period p) (merge meta docs)) t
     = Ok (t, Heatmap.firm_mean (filter (Heatmap.in_period p) (merge meta docs)) t)
     /\ length (Heatmap.firm_mean (filter (Heatmap.in_period p) (merge meta docs)) t)
        = d.
Proof.
  intros Ht. apply ticker_keys_In in Ht.
  destruct (FirmSimFacts.firm_vec_uniform d t _ Ht period_rows_dim)
    as (v & Hv & Hlen).
  unfold firm_vec in Hv. unfold Heatmap.firm_vector, Heatmap.firm_mean.
  destruct (vstack _) as [m|] eqn:E; simpl in *; [|discriminate].
  apply vstack_returns in E. subst m. inversion Hv; subst v. auto.
Qed.

(** What [build_firm_vectors_for_period] returns when the period has a
    document. *)
Lemma build_returns :
  filter (Heatmap.in_period p) (merge meta docs) <> [] ->
  Heatmap.build_firm_vectors_for_period meta docs p
  = Ok (isort String.leb
          (Heatmap.ticker_keys
             (filter (Heatmap.in_period p) (merge meta docs))),
        map (Heatmap.firm_mean (filter (Heatmap.in_period p) (merge meta docs)))
            (isort String.leb
               (Heatmap.ticker_keys
                  (filter (Heatmap.in_period p) (merge meta docs))))).
Proof.
  intros Hne. unfold Heatmap.build_firm_vectors_for_period.
  set (sub := filter (Heatmap.in_period p) (merge meta docs)) in *.
  destruct sub as [|r0 sub0] eqn:Esub; [congruence|]. rewrite <- Esub.
  rewrite (traverse_map (Heatmap.firm_vector sub)
             (fun t => (t, Heatmap.firm_mean sub t)))
    by (intros t Ht; apply firm_vector_uniform; exact Ht).
  simpl. rewrite map_map. simpl. rewrite map_id.
  rewrite (traverse_map _ (Heatmap.firm_mean sub))
    by (intros f Hf; apply lookup_map; now apply isort_In in Hf).
  simpl.
  rewrite (FirmSimFacts.vstack_uniform d).
  - reflexivity.
  - assert (Hk : In (ticker_x r0) (Heatmap.ticker_keys sub)).
    { apply ticker_keys_In. unfold has_ticker. apply existsb_exists.
      exists r0. split; [rewrite Esub; now left | apply String.eqb_refl]. }
    apply (isort_In String.leb) in Hk. intros E.
    apply (in_map (Heatmap.firm_mean sub)) in Hk. rewrite E in Hk. exact Hk.
  - intros v Hv. apply in_map_iff in Hv as (t & <- & Ht).
    apply isort_In in Ht. now apply firm_vector_uniform.
Qed.

End OnePeriod.

Lemma period_rows_empty meta docs p :
  filter (Heatmap.in_period p) (merge meta docs) = []
  <-> forall t, ~ has_vector meta docs t p.
Proof.
  rewrite in_period_group. split.
  - intros E t Ht. apply FirmSimFacts.has_ticker_group in Ht.
    rewrite E in Ht. discriminate.
  - intros H.
    destruct (filter (period_is p) (notna_embedding (merge meta docs)))
      as [|r sub] eqn:E; [reflexivity|].
    exfalso. apply (H (ticker_x r)). apply FirmSimFacts.has_ticker_group.
    rewrite E. simpl. now rewrite String.eqb_refl.
Qed.

(** [build_firm_vectors_for_period] raises "No documents found" exactly
    when no firm has a document vector in the period.  Otherwise, for
    embeddings of one dimension, it returns the firms that have one, each
    once and in ascending order, with one mean vector of that dimension
    per firm. *)
Theorem build_firm_vectors_spec :
  forall d meta docs p,
    (Heatmap.build_firm_vectors_for_period meta docs p
     = Raise (ValueError "No documents found for period")
     <-> forall t, ~ has_vector meta docs t p)
    /\ (fixed_dimension d docs ->
        (exists t, has_vector meta docs t p) ->
        exists firms vecs,
          Heatmap.build_firm_vectors_for_period meta docs p = Ok (firms, vecs)
          /\ (forall t, In t firms <-> has_vector meta docs t p)
          /\ NoDup firms
          /\ Sorted (fun a b => String.leb a b = true) firms
          /\ length vecs = length firms
          /\ forall v, In v vecs -> length v = d).
Proof.
  intros d meta docs p. split.
  - rewrite <- period_rows_empty. unfold Heatmap.build_firm_vectors_for_period.
    destruct (filter (Heatmap.in_period p) (merge meta docs)) as [|r sub];
      [tauto|].
    split; [|discriminate]. intros H. exfalso.
    destruct (Pipeline.traverse _ _) as [fv|e] eqn:T1; simpl in H.
    + destruct (Pipeline.traverse (Heatmap.lookup fv) _) as [rows|e'] eqn:T2;
        simpl in H.
      * destruct (vstack rows) as [m|e''] eqn:V; simpl in H; [discriminate|].
        apply vstack_raises in V. destruct V as [-> | ->]; discriminate.
      * apply traverse_raises in T2 as (f & _ & L).
        apply lookup_raises in L. subst e'. discriminate.
    + apply traverse_raises in T1 as (t & _ & F).
      unfold Heatmap.firm_vector in F.
      destruct (vstack _) as [m|e''] eqn:V; simpl in F; [discriminate|].
      apply vstack_raises in V. inversion F; subst e.
      destruct V as [-> | ->]; discriminate.
  - intros Hdim [t0 Ht0].
    assert (Hne : filter (Heatmap.in_period p) (merge meta docs) <> []).
    { intros E. apply (proj1 (period_rows_empty meta docs p) E t0 Ht0). }
    rewrite (build_returns d meta docs p Hdim Hne).
    eexists; eexists. split; [reflexivity|].
    split; [|split; [|split; [|split]]].
    + intros t. rewrite isort_In, ticker_keys_In, in_period_group.
      apply FirmSimFacts.has_ticker_group.
    + apply isort_NoDup. unfold Heatmap.ticker_keys.
      apply isort_NoDup, NoDup_nodup.
    + apply isort_Sorted. apply String.leb_total.
    + apply length_map.
    + intros v Hv. apply in_map_iff in Hv as (t & <- & Ht).
      apply isort_In in Ht. now apply firm_vector_uniform.
Qed.

Lemma build_lengths meta docs p firms vecs :
  Heatmap.build_firm_vectors_for_period meta docs p = Ok (firms, vecs) ->
  length vecs = length firms.
Proof.
  unfold Heatmap.build_firm_vectors_for_period.
  destruct (filter (Heatmap.in_period p) (merge meta docs)); [discriminate|].
  destruct (Pipeline.traverse _ _) as [fv|]; simpl; [|discriminate].
  destruct (Pipeline.traverse (Heatmap.lookup fv) _) as [rows|] eqn:T;
    simpl; [|discriminate].
  destruct (vstack rows) as [stacked|] eqn:V; simpl; [|discriminate].
  apply vstack_returns in V. subst stacked. intros [= <- <-].
  now apply traverse_length in T.
Qed.

Lemma cosine_similarity_matrix_returns X Y m :
  Heatmap.cosine_similarity_matrix X Y = Ok m ->
  m = map (fun x => map (fun y => dot (normalize x) (normalize y)) Y) X.
Proof.
  unfold Heatmap.cosine_similarity_matrix.
  destruct X as [|x X]; [discriminate|]. destruct Y as [|y Y];
    [discriminate|].
  destruct (_ || _); [discriminate|].
  destruct (negb _); [discriminate | now intros [= <-]].
Qed.

(** The matrix of the heat map has one row and one column per firm, in
    the order of the firms, and it is symmetric: the entry of two firms
    does not depend on which of them names the row. *)
Theorem heatmap_cells_symmetric :
  forall meta docs p firms cells,
    Heatmap.heatmap_cells meta docs p = Ok (firms, cells) ->
    length cells = length firms
    /\ (forall row, In row cells -> length row = length firms)
    /\ forall i j, Heatmap.cell cells i j = Heatmap.cell cells j i.
Proof.
  intros meta docs p firms cells H. unfold Heatmap.heatmap_cells in H.
  destruct (Heatmap.build_firm_vectors_for_period meta docs p)
    as [[firms' vecs]|] eqn:B; simpl in H; [|discriminate].
  destruct (Heatmap.cosine_similarity_matrix vecs vecs) as [m|] eqn:C;
    simpl in H; [|discriminate].
  inversion H; subst firms' m; clear H.
  apply cosine_similarity_matrix_returns in C. subst cells.
  apply build_lengths in B.
  split; [now rewrite length_map|]. split.
  - intros row Hrow. apply in_map_iff in Hrow as (a & <- & _).
    now rewrite length_map.
  - intros i j. unfold Heatmap.cell. rewrite !nth_error_map.
    destruct (nth_error vecs i) as [a|] eqn:Hi,
             (nth_error vecs j) as [b|] eqn:Hj; simpl;
      rewrite ?nth_error_map, ?Hi, ?Hj; simpl; try reflexivity.
    f_equal. apply FirmSimFacts.dot_comm.
Qed.

(** The sample tables in the second quarter of 2020. *)
Example heatmap_cells_sample :
  Heatmap.heatmap_cells sample_meta sample_docs "2020Q2"
  = Ok (["KO"; "PEP"]%string,
        [[dot (normalize [1 / INR 1; 1 / INR 1])
              (normalize [1 / INR 1; 1 / INR 1]);
          dot (normalize [1 / INR 1; 1 / INR 1])
              (normalize [0 / INR 1; 1 / INR 1])];
         [dot (normalize [0 / INR 1; 1 / INR 1])
              (normalize [1 / INR 1; 1 / INR 1]);
          dot (normalize [0 / INR 1; 1 / INR 1])
              (normalize [0 / INR 1; 1 / INR 1])]]).
Proof. reflexivity. Qed.

Lemma build_firm_vectors_spec_witness :
  Heatmap.build_firm_vectors_for_period sample_meta sample_docs "2021Q1"
  = Raise (ValueError "No documents found for period")
  /\ exists firms vecs,
       Heatmap.build_firm_vectors_for_period sample_meta sample_docs "2020Q2"
       = Ok (firms, vecs)
       /\ length vecs = length firms.
Proof.
  split.
  - apply (build_firm_vectors_spec 2 sample_meta sample_docs "2021Q1").
    intros t (m & doc & v & Hm & _ & _ & _ & Hp & _).
    simpl in Hm. destruct Hm as [<-|[<-|[<-|[]]]]; simpl in Hp; discriminate.
  - destruct (build_firm_vectors_spec 2 sample_meta sample_docs "2020Q2")
      as [_ H].
    destruct (H FirmSimFacts.sample_docs_dimension) as (firms & vecs & B & R).
    + exists "KO"%string.
      apply (FirmSimFacts.sample_has_vector "KO" "2020Q2"
               (mkMeta "KO_Q2.pdf" "KO" (Some "2020Q2"%string))
               (mkDoc "ko_q2.pdf" (Some [1; 1]) "KO") [1; 1]);
        simpl; auto.
    + exists firms, vecs. split; [exact B | apply R].
Defined.

Lemma heatmap_cells_symmetric_witness :
  exists cells,
    Heatmap.heatmap_cells sample_meta sample_docs "2020Q2"
    = Ok (["KO"; "PEP"]%string, cells)
    /\ length cells = 2%nat
    /\ Heatmap.cell cells 0 1 = Heatmap.cell cells 1 0.
Proof.
  eexists. split; [apply heatmap_cells_sample|].
  destruct (heatmap_cells_symmetric sample_meta sample_docs "2020Q2"
              ["KO"; "PEP"]%string _ heatmap_cells_sample)
    as (Hlen & _ & Hsym).
  split; [exact Hlen | apply Hsym].
Defined.

End PlotFacts.

(** ** db.py, further properties *)

Module StoreInvariantFacts.
Import Store StoreInvariant.

Local Open Scope Z_scope.

Lemma insert_documents_cases db_accepts self ticker doc_ids contents period
      embeddings :
  insert_documents db_accepts self ticker doc_ids contents period embeddings
  = if shape_ok self embeddings then
      if forallb db_accepts
           (statements ticker doc_ids contents period embeddings)
      then (Ok tt,
            mkStore (embed_dim self)
              (table self
               ++ statements ticker doc_ids contents period embeddings))
      else (Raise (DatabaseError "INSERT refused"), self)
    else (Raise DimensionMismatch, self).
Proof.
  destruct (shape_ok self embeddings) eqn:S.
  - destruct (forallb db_accepts _) eqn:A.
    + now apply StoreFacts.insert_documents_commits.
    + unfold insert_documents. unfold shape_ok in S.
      apply andb_true_iff in S as [-> ->]. simpl.
      now rewrite StoreFacts.execute_all_refused.
  - unfold insert_documents. unfold shape_ok in S.
    rewrite <- negb_andb, S. reflexivity.
Qed.

(** One call is all or nothing.  It returns exactly when the batch has
    the shape of the store and the database takes every statement, and
    then all the statements are appended to the table; in every other
    case it raises and the store is the one it was called on, also when a
    statement was refused after others had been executed. *)
Theorem insert_documents_all_or_nothing :
  forall db_accepts self ticker doc_ids contents period embeddings,
    (fst (insert_documents db_accepts self ticker doc_ids contents period
                           embeddings) = Ok tt
     <-> shape_ok self embeddings = true
         /\ forallb db_accepts
              (statements ticker doc_ids contents period embeddings) = true)
    /\ snd (insert_documents db_accepts self ticker doc_ids contents period
                             embeddings)
       = match fst (insert_documents db_accepts self ticker doc_ids contents
                                     period embeddings) with
         | Ok _ =>
             mkStore (embed_dim self)
               (table self
                ++ statements ticker doc_ids contents period embeddings)
         | Raise _ => self
         end.
Proof.
  intros db_accepts self ticker doc_ids contents period embeddings.
  rewrite insert_documents_cases.
  destruct (shape_ok self embeddings);
    [destruct (forallb db_accepts _)|]; simpl;
    (split; [split; [intros H; try discriminate; auto
                    | intros [H1 H2]; try discriminate; auto]
            | reflexivity]).
Qed.

Lemma zip4_In_4 {A B C D : Type} (la : list A) (lb : list B) (lc : list C)
      (ld : list D) a b c d :
  In (a, b, c, d) (zip4 la lb lc ld) -> In d ld.
Proof.
  revert lb lc ld.
  induction la as [|x la IH]; intros [|y lb] [|z lc] [|w ld] H;
    simpl in H; try contradiction.
  destruct H as [E|H]; [inversion E; now left | right; eapply IH; eauto].
Qed.

Lemma iter_rows_row_length n d elems row :
  (n * d <= length elems)%nat ->
  In row (iter_rows n d elems) -> length row = d.
Proof.
  revert elems. induction n as [|n IH]; intros elems Hlen H; simpl in H;
    [contradiction|].
  destruct H as [<-|H].
  - rewrite length_firstn. lia.
  - apply (IH (skipn d elems)); [|assumption].
    rewrite length_skipn. lia.
Qed.

(** The table keeps its invariant: after a call with a well-formed array,
    returned or raised, every row still holds an embedding of the
    dimension of the store. *)
Theorem insert_documents_keeps_dimension :
  forall db_accepts self ticker doc_ids contents period embeddings,
    Pipeline.well_formed embeddings ->
    rows_have_dimension self ->
    rows_have_dimension
      (snd (insert_documents db_accepts self ticker doc_ids contents period
                             embeddings)).
Proof.
  intros db_accepts self ticker doc_ids contents period emb Hwf Hinv.
  rewrite insert_documents_cases.
  destruct (shape_ok self emb) eqn:S; [|exact Hinv].
  destruct (forallb db_accepts _); [|exact Hinv].
  intros r Hr. simpl in *. apply in_app_iff in Hr as [Hr|Hr];
    [now apply Hinv|].
  unfold statements in Hr. apply in_map_iff in Hr as ([[[a b] c] e] & <- & Hz).
  simpl. apply zip4_In_4 in Hz.
  apply StoreFacts.shape_ok_spec in S as (n & d & Hs & Hd).
  rewrite <- Hd. f_equal.
  unfold rows_of, shape_at in Hz. rewrite Hs in Hz. simpl in Hz.
  apply (iter_rows_row_length n d (data emb)); [|assumption].
  unfold Pipeline.well_formed in Hwf. rewrite Hs in Hwf. simpl in Hwf.
  rewrite Hwf. lia.
Qed.

Lemma insert_documents_keeps_dimension_witness :
  rows_have_dimension
    (snd (insert_documents (fun _ => true) (mkStore 2 []) "KO"
            ["a.pdf"; "b.pdf"]%string ["text"; "more"]%string
            ["Q1 2020"; "Q2 2020"]%string
            (mkArray [2%nat; 2%nat] [1; 0; 0; 1]%R))).
Proof.
  apply (insert_documents_keeps_dimension (fun _ => true) (mkStore 2 [])
           "KO"%string ["a.pdf"; "b.pdf"]%string ["text"; "more"]%string
           ["Q1 2020"; "Q2 2020"]%string
           (mkArray [2%nat; 2%nat] [1; 0; 0; 1]%R)).
  - reflexivity.
  - intros r [].
Defined.

(** The store has no notion of a document already stored: a batch that
    was stored once is stored again by a second call, and the table then
    holds each of its rows twice. *)
Theorem insert_documents_twice_duplicates :
  forall db_accepts self ticker doc_ids contents period embeddings self1,
    insert_documents db_accepts self ticker doc_ids contents period embeddings
    = (Ok tt, self1) ->
    insert_documents db_accepts self1 ticker doc_ids contents period
                     embeddings
    = (Ok tt,
       mkStore (embed_dim self)
         (table self
          ++ statements ticker doc_ids contents period embeddings
          ++ statements ticker doc_ids contents period embeddings)).
Proof.
  intros db_accepts self ticker doc_ids contents period emb self1 H.
  rewrite insert_documents_cases in H.
  rewrite insert_documents_cases.
  destruct (shape_ok self emb) eqn:S; [|discriminate].
  destruct (forallb db_accepts _) eqn:A; [|discriminate].
  inversion H; subst self1.
  assert (S' : shape_ok
                 (mkStore (embed_dim self)
                    (table self
                     ++ statements ticker doc_ids contents period emb)) emb
               = true) by exact S.
  rewrite S'. simpl. now rewrite <- app_assoc.
Qed.

Lemma insert_documents_twice_duplicates_witness :
  insert_documents (fun _ => true)
    (mkStore 2 [mkRow "KO" "a.pdf" "text" "Q1 2020" [1; 0]%R]) "KO"
    ["a.pdf"%string] ["text"%string] ["Q1 2020"%string]
    (mkArray [1%nat; 2%nat] [1; 0]%R)
  = (Ok tt,
     mkStore 2 ([] ++ statements "KO" ["a.pdf"%string] ["text"%string]
                        ["Q1 2020"%string] (mkArray [1%nat; 2%nat] [1; 0]%R)
                   ++ statements "KO" ["a.pdf"%string] ["text"%string]
                        ["Q1 2020"%string] (mkArray [1%nat; 2%nat] [1; 0]%R))).
Proof.
  apply (insert_documents_twice_duplicates (fun _ => true) (mkStore 2 [])
           "KO"%string ["a.pdf"%string] ["text"%string] ["Q1 2020"%string]
           (mkArray [1%nat; 2%nat] [1; 0]%R)).
  reflexivity.
Defined.

End StoreInvariantFacts.

(** ** vectorizer.py, further properties *)

Module VectorizerMoreFacts.
Import Vectorizer VectorizerSamples.

Local Open Scope Z_scope.

Section Fallback.

Variable analyze : string -> list string.
Variable tfidf_weight :
  list (list string) -> list string -> list string -> string -> R.

(** The rows of the fallback are never wider than [dim], and as wide as
    [dim] exactly when the fitted corpus has at least [dim] distinct
    terms after analysis. *)
Theorem tfidf_width_at_most_dim :
  forall max_features corpus self texts,
    Tfidf_fit analyze (Tfidf_init max_features) corpus = Ok self ->
    exists m,
      Tfidf_transform analyze tfidf_weight self texts = Ok m
      /\ length m = length texts
      /\ forall row, In row m ->
           Z.of_nat (length row) <= Tfidf_dim self
           /\ (Z.of_nat (length row) = Tfidf_dim self
               <-> Tfidf_dim self
                   <= Z.of_nat (length (corpus_terms (map analyze corpus)))).
Proof.
  intros cap corpus self texts H.
  destruct (VectorizerFacts.Tfidf_transform_width analyze tfidf_weight
              _ _ _ texts H) as (m & Hm & Hl & Hw).
  destruct (VectorizerFacts.Tfidf_fit_ok analyze _ _ _ H)
    as (_ & Hmf & Hpos & _).
  simpl in Hmf, Hpos, Hw.
  exists m. split; [exact Hm|]. split; [exact Hl|].
  intros row Hin. rewrite (Hw row Hin). unfold Tfidf_dim. rewrite Hmf.
  split; [lia|]. split; lia.
Qed.

End Fallback.

Lemma tfidf_width_at_most_dim_witness :
  exists m,
    Tfidf_transform (word_analyzer english_sample) (fun _ _ _ _ => 0%R)
      (mkTfidf 1 (mkSk 1 [["alpha"; "beta"]%string] (Some ["alpha"%string]))
               true)
      ["beta"%string] = Ok m
    /\ length m = 1%nat
    /\ forall row, In row m ->
         Z.of_nat (length row) <= 1
         /\ (Z.of_nat (length row) = 1 <-> 1 <= 2).
Proof.
  apply (tfidf_width_at_most_dim (word_analyzer english_sample)
           (fun _ _ _ _ => 0%R) 1 ["alpha beta"%string]
           (mkTfidf 1 (mkSk 1 [["alpha"; "beta"]%string]
                         (Some ["alpha"%string])) true)
           ["beta"%string]).
  reflexivity.
Defined.

(** From the factory to the matrix, for the pretrained variant: a
    vectorizer the factory returns is usable at once, [fit] leaves it as
    it is whatever the corpus, and with a model that gives one row of its
    dimension per text, [transform] returns one row per text, each of
    width [dim]. *)
Theorem finance_width_is_dim :
  forall analyze tfidf_weight rt tfidf_dim finance_model device normalize
         batch_size v corpus texts,
    get_vectorizer rt true tfidf_dim finance_model device normalize
                   batch_size = Ok v ->
    (forall fv, v = Finance fv -> model_well_formed (model fv)) ->
    fit analyze v corpus = Ok v
    /\ exists m,
         transform analyze tfidf_weight v texts = Ok m
         /\ length m = length texts
         /\ forall row, In row m -> Z.of_nat (length row) = dim v.
Proof.
  intros analyze w rt tdim name device normalize batch v corpus texts H Hwf.
  unfold get_vectorizer in H.
  destruct (Finance_init rt name device normalize batch) as [fv|e] eqn:E;
    simpl in H; [|destruct (is_Exception e); discriminate].
  inversion H; subst v; clear H.
  destruct (PipelineFacts.Finance_init_fitted _ _ _ _ _ _ E) as [Hf _].
  split.
  - simpl. unfold Finance_fit. destruct fv; simpl in *. now subst.
  - simpl.
    eapply (VectorizerFacts.Finance_transform_width analyze); [exact E|].
    now apply Hwf.
Qed.

Lemma finance_width_is_dim_witness :
  fit (word_analyzer english_sample)
      (Finance (mkFinance unit_model 3 true 32 true)) ["alpha"%string]
  = Ok (Finance (mkFinance unit_model 3 true 32 true))
  /\ exists m,
       transform (word_analyzer english_sample) (fun _ _ _ _ => 0%R)
                 (Finance (mkFinance unit_model 3 true 32 true))
                 ["beta"; "gamma"]%string = Ok m
       /\ length m = 2%nat
       /\ forall row, In row m -> Z.of_nat (length row) = 3.
Proof.
  apply (finance_width_is_dim (word_analyzer english_sample)
           (fun _ _ _ _ => 0%R) plain_runtime 512
           "FinLang/finance-embeddings-investopedia"%string None true 32
           (Finance (mkFinance unit_model 3 true 32 true))
           ["alpha"%string] ["beta"; "gamma"]%string).
  - reflexivity.
  - intros fv Hfv. inversion Hfv; subst fv. intros texts batch norm. simpl.
    eexists. split; [reflexivity|]. split; [now rewrite length_map|].
    intros row Hin. apply in_map_iff in Hin as (t & <- & _). reflexivity.
Defined.

End VectorizerMoreFacts.

(** ** comovement_new.py, further properties *)

Module ComovementMainFacts.
Import Comovement ComovementMain.

Local Open Scope R_scope.

(** *** [detect_period_column] *)

Lemma has_column_In columns c : has_column columns c = true <-> In c columns.
Proof.
  unfold has_column. rewrite existsb_exists. split.
  - intros (x & Hx & E). apply String.eqb_eq in E. now subst.
  - intros H. exists c. split; [exact H | apply String.eqb_refl].
Qed.

Lemma find_split {A : Type} (f : A -> bool) l x :
  find f l = Some x ->
  exists pre post,
    l = pre ++ x :: post /\ f x = true /\ forall k, In k pre -> f k = false.
Proof.
  induction l as [|a l IH]; simpl; [discriminate|].
  destruct (f a) eqn:E.
  - intros H. inversion H; subst. exists [], l. simpl. intuition.
  - intros H. destruct (IH H) as (pre & post & -> & Hx & Hpre).
    exists (a :: pre), post. simpl. split; [reflexivity|].
    split; [exact Hx|]. intros k [<-|Hk]; auto.
Qed.

(** The period column is a column of the frame: the first name of the
    candidate list that the frame has, wherever it stands among the
    columns, and the first column when the frame has none of them.  Only
    a frame without columns makes the function raise. *)
Theorem detect_period_column_spec :
  forall columns,
    match detect_period_column columns with
    | Ok c =>
        In c columns
        /\ ((exists pre post,
                candidates = pre ++ c :: post
                /\ forall k, In k pre -> ~ In k columns)
            \/ ((forall k, In k candidates -> ~ In k columns)
                /\ hd_error columns = Some c))
    | Raise e =>
        columns = []
        /\ e = Pipeline.IndexError
                 "index 0 is out of bounds for axis 0 with size 0"
    end.
Proof.
  intros columns. unfold detect_period_column.
  destruct (find (has_column columns) candidates) as [c|] eqn:F.
  - destruct (find_split _ _ _ F) as (pre & post & E & Hc & Hpre).
    split; [now apply has_column_In|]. left. exists pre, post.
    split; [exact E|]. intros k Hk Hin.
    apply has_column_In in Hin. rewrite (Hpre k Hk) in Hin. discriminate.
  - destruct columns as [|c columns]; [now split|].
    split; [now left|]. right. split; [|reflexivity].
    intros k Hk Hin. apply has_column_In in Hin.
    apply (find_none _ _ F) in Hk. congruence.
Qed.

(** *** [to_log_returns] *)

Lemma diff_from_nth prev s i d d' p q :
  nth_error s i = Some (d', q) ->
  nth_error s (S i) = Some (d, p) ->
  nth_error (diff_from prev s) (S i) = Some (d, fsub p q).
Proof.
  revert prev i. induction s as [|[e v] s IH]; intros prev i H1 H2.
  - destruct i; discriminate.
  - destruct i as [|i]; simpl in *.
    + inversion H1; subst. destruct s as [|[e' v'] s]; [discriminate|].
      simpl in *. now inversion H2.
    + now apply IH.
Qed.

Lemma diff_nth s i d d' p q :
  nth_error s i = Some (d', q) ->
  nth_error s (S i) = Some (d, p) ->
  nth_error (diff s) (S i) = Some (d, fsub p q).
Proof.
  destruct s as [|[e v] s]; [destruct i; discriminate|].
  intros H1 H2. destruct i as [|i]; simpl in *.
  - inversion H1; subst. destruct s as [|[e' v'] s]; [discriminate|].
    simpl in *. now inversion H2.
  - now apply diff_from_nth with d'.
Qed.

(** The return of a day is the logarithm of the ratio of its price to
    the price of the row before, when both prices are positive; the
    first row of a series has no return. *)
Theorem to_log_returns_ratio :
  forall px i d d' p q,
    nth_error px i = Some (d', Finite q) ->
    nth_error px (S i) = Some (d, Finite p) ->
    0 < q -> 0 < p ->
    nth_error (to_log_returns px) (S i) = Some (d, Finite (ln (p / q)))
    /\ exists d0, nth_error (to_log_returns px) 0 = Some (d0, NaN).
Proof.
  intros px i d d' p q H1 H2 Hq Hp. split.
  - unfold to_log_returns.
    rewrite (diff_nth (map (fun p => (fst p, flog (snd p))) px) i d d'
               (flog (Finite p)) (flog (Finite q))).
    + unfold flog. rewrite !ComovementFacts.sign_of_pos by assumption.
      unfold fsub, fneg, fadd, Rdiv.
      rewrite ln_mult, ln_Rinv by (try apply Rinv_0_lt_compat; assumption).
      reflexivity.
    + rewrite nth_error_map, H1. reflexivity.
    + rewrite nth_error_map, H2. reflexivity.
  - destruct px as [|[d0 v0] px]; [destruct i; discriminate|].
    exists d0. reflexivity.
Qed.

Lemma to_log_returns_ratio_witness :
  nth_error (to_log_returns sample_prices_a) 2 = Some (3%Z, Finite (ln (4 / 2)))
  /\ exists d0, nth_error (to_log_returns sample_prices_a) 0 = Some (d0, NaN).
Proof.
  apply (to_log_returns_ratio sample_prices_a 1 3%Z 2%Z 4 2);
    [reflexivity | reflexivity | lra | lra].
Defined.

(** A price that is zero or negative, as a price that is missing,
    leaves no finite return on its day nor on the day after. *)
Theorem to_log_returns_bad_price :
  forall px i d d' x v,
    nth_error px i = Some (d', Finite x) ->
    nth_error px (S i) = Some (d, v) ->
    x <= 0 ->
    finite_value (snd (nth i (to_log_returns px) (d', NaN))) = None
    /\ finite_value (snd (nth (S i) (to_log_returns px) (d, NaN))) = None.
Proof.
  intros px i d d' x v H1 H2 Hx.
  assert (Hlog : flog (Finite x) = NegInf \/ flog (Finite x) = NaN).
  { unfold flog. destruct (sign_of x) eqn:S; auto.
    unfold sign_of in S. destruct (total_order_T x 0) as [[L|E]|G];
      try discriminate. lra. }
  split.
  - destruct i as [|i].
    + destruct px as [|[e w] px]; [discriminate|]. reflexivity.
    + destruct (nth_error px i) as [[e w]|] eqn:H0.
      2:{ apply nth_error_None in H0.
          assert (nth_error px (S i) <> None) by congruence.
          apply nth_error_Some in H. lia. }
      unfold to_log_returns.
      rewrite (nth_error_nth _ _ _
                 (diff_nth (map (fun p => (fst p, flog (snd p))) px) i d' e
                    (flog (Finite x)) (flog w)
                    ltac:(rewrite nth_error_map, H0; reflexivity)
                    ltac:(rewrite nth_error_map, H1; reflexivity))).
      cbn [snd]. destruct Hlog as [-> | ->]; destruct (flog w); reflexivity.
  - unfold to_log_returns.
    rewrite (nth_error_nth _ _ _
               (diff_nth (map (fun p => (fst p, flog (snd p))) px) i d d'
                  (flog v) (flog (Finite x))
                  ltac:(rewrite nth_error_map, H1; reflexivity)
                  ltac:(rewrite nth_error_map, H2; reflexivity))).
    cbn [snd]. destruct Hlog as [-> | ->]; destruct (flog v); reflexivity.
Qed.

Lemma to_log_returns_bad_price_witness :
  finite_value
    (snd (nth 0 (to_log_returns [(1%Z, Finite 0); (2%Z, Finite 5)])
              (1%Z, NaN))) = None
  /\ finite_value
       (snd (nth 1 (to_log_returns [(1%Z, Finite 0); (2%Z, Finite 5)])
                 (2%Z, NaN))) = None.
Proof.
  apply (to_log_returns_bad_price [(1%Z, Finite 0); (2%Z, Finite 5)] 0%nat
           2%Z 1%Z 0 (Finite 5));
    [reflexivity | reflexivity | lra].
Defined.

(** *** [load_price_series_from_csv] *)

Lemma StronglySorted_filter {A : Type} (R : A -> A -> Prop) (f : A -> bool) l :
  StronglySorted R l -> StronglySorted R (filter f l).
Proof.
  induction 1 as [|a l Hs IH Hf]; simpl; [constructor|].
  destruct (f a); [|exact IH].
  constructor; [exact IH|].
  apply Forall_forall. intros x Hx. apply filter_In in Hx as [Hx _].
  rewrite Forall_forall in Hf. now apply Hf.
Qed.

Lemma sort_index_sorted s : StronglySorted date_le (sort_index s).
Proof.
  apply Sorted_StronglySorted.
  - intros a b c. unfold date_le. lia.
  - unfold sort_index.
    eapply Sorted_ind with
      (P := fun l => Sorted date_le l);
      [constructor | | apply (isort_Sorted
                                (fun p q : Z * float64 => Z.leb (fst p) (fst q)))].
    + intros a l _ IH Hhd. constructor; [exact IH|].
      destruct Hhd; constructor. unfold date_le. now apply Z.leb_le.
    + intros a b. destruct (Z.leb_spec (fst a) (fst b)); [now left|].
      right. apply Z.leb_le. lia.
Qed.

Section LoaderFacts.

Variable to_datetime : string -> result Z.

Lemma date_filter_spec bound keep px px' :
  date_filter to_datetime bound keep px = Ok px' ->
  (bound = EmptyString /\ px' = px)
  \/ (exists t, bound <> EmptyString /\ to_datetime bound = Ok t
                /\ px' = filter (fun p => keep (fst p) t) px).
Proof.
  unfold date_filter. destruct bound as [|c b].
  - intros H. inversion H. now left.
  - destruct (to_datetime (String c b)) as [t|e]; simpl; [|discriminate].
    intros H. inversion H. right. exists t. repeat split. discriminate.
Qed.

(** A series that [load_price_series_from_csv] returns is not empty and
    runs in ascending order of date; its rows are rows of the file, with
    the price taken from [Adj Close] whenever the file has that column,
    even beside [Close]; each date lies within the bounds that are set,
    and with no bound set every row of the file is there. *)
Theorem load_price_series_spec :
  forall name file filter_start filter_end px,
    load_price_series_from_csv to_datetime name file filter_start filter_end
    = Ok px ->
    px <> []
    /\ StronglySorted date_le px
    /\ exists df dates values,
         file = Some df
         /\ column_of df "Date" = Some (Dates dates)
         /\ price_column df name = Ok values
         /\ (forall c, column_of df "Adj Close" = Some c ->
               astype_float64 c = Ok values)
         /\ (forall p, In p px -> In p (combine dates values))
         /\ (forall t d, filter_start <> EmptyString ->
               to_datetime filter_start = Ok t ->
               In d (index px) -> (t <= d)%Z)
         /\ (forall t d, filter_end <> EmptyString ->
               to_datetime filter_end = Ok t ->
               In d (index px) -> (d <= t)%Z)
         /\ (filter_start = EmptyString -> filter_end = EmptyString ->
               Permutation px (combine dates values)).
Proof.
  intros name file fs fe px H. unfold load_price_series_from_csv in H.
  destruct file as [df|]; [|discriminate].
  destruct (column_of df "Date") as [[dates|?|?]|] eqn:HD; try discriminate.
  destruct (price_column df name) as [values|e] eqn:HP; [|discriminate].
  simpl in H.
  destruct (date_filter to_datetime fs _ _) as [px1|e] eqn:H1;
    [|discriminate].
  simpl in H.
  destruct (date_filter to_datetime fe _ px1) as [px2|e] eqn:H2;
    [|discriminate].
  simpl in H. destruct px2 as [|r px2]; [discriminate|].
  inversion H; subst px; clear H.
  apply date_filter_spec in H1, H2.
  assert (S0 := sort_index_sorted (combine dates values)).
  assert (S1 : StronglySorted date_le px1).
  { destruct H1 as [[_ ->]|(t & _ & _ & ->)];
      [exact S0 | now apply StronglySorted_filter]. }
  assert (S2 : StronglySorted date_le (r :: px2)).
  { destruct H2 as [[_ ->]|(t & _ & _ & ->)];
      [exact S1 | now apply StronglySorted_filter]. }
  assert (I1 : forall p, In p px1 -> In p (combine dates values)).
  { intros p Hp. apply (isort_In (fun p q => Z.leb (fst p) (fst q))).
    destruct H1 as [[_ ->]|(t & _ & _ & ->)];
      [exact Hp | now apply filter_In in Hp]. }
  assert (I2 : forall p, In p (r :: px2) -> In p px1).
  { intros p Hp. destruct H2 as [[_ E]|(t & _ & _ & E)];
      [now rewrite <- E|]. rewrite E in Hp. now apply filter_In in Hp. }
  split; [discriminate|]. split; [exact S2|].
  exists df, dates, values. repeat split; auto.
  - intros c Hc. unfold price_column in HP. now rewrite Hc in HP.
  - intros t d Hne Ht Hd. unfold index in Hd.
    apply in_map_iff in Hd as (p & <- & Hp). apply I2 in Hp.
    destruct H1 as [[E _]|(t' & _ & Ht' & ->)]; [contradiction|].
    apply filter_In in Hp as [_ Hp]. apply Z.leb_le in Hp. congruence.
  - intros t d Hne Ht Hd. unfold index in Hd.
    apply in_map_iff in Hd as (p & <- & Hp).
    destruct H2 as [[E _]|(t' & _ & Ht' & E)]; [contradiction|].
    rewrite E in Hp.
    apply filter_In in Hp as [_ Hp]. apply Z.leb_le in Hp. congruence.
  - intros Es Ee.
    destruct H1 as [[_ ->]|(t & Hne & _)]; [|contradiction].
    destruct H2 as [[_ E]|(t & Hne & _)]; [|contradiction].
    rewrite E. apply isort_Permutation.
Qed.

End LoaderFacts.

Lemma load_price_series_spec_witness :
  sample_prices_a <> []
  /\ StronglySorted date_le sample_prices_a
  /\ exists df dates values,
       Some sample_file_a = Some df
       /\ column_of df "Date" = Some (Dates dates)
       /\ price_column df "KO.csv" = Ok values
       /\ (forall c, column_of df "Adj Close" = Some c ->
             astype_float64 c = Ok values)
       /\ (forall p, In p sample_prices_a -> In p (combine dates values))
       /\ (forall t d, EmptyString <> EmptyString ->
             Raise (A := Z) (ValueError "no date") = Ok t ->
             In d (index sample_prices_a) -> (t <= d)%Z)
       /\ (forall t d, EmptyString <> EmptyString ->
             Raise (A := Z) (ValueError "no date") = Ok t ->
             In d (index sample_prices_a) -> (d <= t)%Z)
       /\ (EmptyString = EmptyString -> EmptyString = EmptyString ->
             Permutation sample_prices_a (combine dates values)).
Proof.
  apply (load_price_series_spec (fun _ => Raise (ValueError "no date"))
           "KO.csv"%string (Some sample_file_a) FILTER_START_DATE
           FILTER_END_DATE sample_prices_a).
  reflexivity.
Defined.

(** *** From prices to rolling correlations *)

Lemma diff_from_finite s x :
  (forall p, In p s -> exists y, snd p = Finite y) ->
  forall p, In p (diff_from (Finite x) s) -> notna (snd p) = true.
Proof.
  revert x. induction s as [|[d v] s IH]; intros x Hs p Hp; simpl in Hp;
    [contradiction|].
  destruct (Hs (d, v) (or_introl eq_refl)) as (y & Hy). simpl in Hy. subst v.
  destruct Hp as [<-|Hp]; [reflexivity|].
  apply (IH y); [|exact Hp]. intros q Hq. apply Hs. now right.
Qed.

(** The returns of positive prices: nothing on the first day, a number
    on every other day. *)
Lemma to_log_returns_positive px :
  positive_prices px ->
  match to_log_returns px with
  | [] => px = []
  | (d, v) :: rest =>
      v = NaN /\ length rest = pred (length px)
      /\ forall p, In p rest -> notna (snd p) = true
  end.
Proof.
  intros Hpos. destruct px as [|[d0 v0] px]; [reflexivity|].
  unfold to_log_returns. simpl. split; [reflexivity|].
  destruct (Hpos d0 v0 (or_introl eq_refl)) as (x0 & -> & Hx0).
  split.
  - assert (L : length (index (diff_from (flog (Finite x0))
                                 (map (fun p => (fst p, flog (snd p))) px)))
                = length px).
    { rewrite ComovementFacts.diff_from_index. unfold index.
      now rewrite !length_map. }
    unfold index in L. now rewrite length_map in L.
  - unfold flog at 1. rewrite ComovementFacts.sign_of_pos by exact Hx0.
    apply diff_from_finite. intros p Hp.
    apply in_map_iff in Hp as ([d v] & <- & Hin).
    destruct (Hpos d v (or_intror Hin)) as (x & -> & Hx). simpl.
    unfold flog. rewrite ComovementFacts.sign_of_pos by exact Hx. eauto.
Qed.

Lemma filter_all {A : Type} (f : A -> bool) l :
  (forall x, In x l -> f x = true) -> filter f l = l.
Proof.
  induction l as [|a l IH]; intros H; simpl; [reflexivity|].
  rewrite (H a (or_introl eq_refl)). f_equal. apply IH. intros x Hx.
  apply H. now right.
Qed.

Lemma filter_cons_false {A : Type} (f : A -> bool) x l :
  f x = false -> filter f (x :: l) = filter f l.
Proof. intros H. simpl. now rewrite H. Qed.

Lemma overlap_count_returns pa pb :
  index pa = index pb -> NoDup (index pa) ->
  positive_prices pa -> positive_prices pb ->
  overlap_count (to_log_returns pa) (to_log_returns pb) = pred (length pa).
Proof.
  intros Hidx Hnd Ha Hb.
  assert (Hri : index (to_log_returns pa) = index (to_log_returns pb))
    by now rewrite !ComovementFacts.to_log_returns_index.
  assert (Hrn : NoDup (index (to_log_returns pb)))
    by (rewrite ComovementFacts.to_log_returns_index, <- Hidx; exact Hnd).
  apply to_log_returns_positive in Ha, Hb.
  destruct (to_log_returns pa) as [|[da va] ra].
  { subst pa. reflexivity. }
  destruct (to_log_returns pb) as [|[db vb] rb]; [discriminate|].
  destruct Ha as (-> & La & Ha). destruct Hb as (-> & _ & Hb).
  unfold overlap_count.
  rewrite filter_cons_false by reflexivity.
  rewrite <- La. f_equal.
  apply filter_all. intros [d v] Hin. cbn [fst snd].
  assert (Hv := Ha _ Hin). cbn [snd] in Hv. rewrite Hv. cbn [andb].
  simpl in Hri. inversion Hri as [[Hd Hr]].
  assert (Hd' : In d (index rb)).
  { rewrite <- Hr. unfold index. apply in_map_iff. now exists (d, v). }
  unfold index in Hd'. apply in_map_iff in Hd' as ([d' w] & E & Hw).
  simpl in E. subst d'.
  rewrite (ComovementFacts.get_In ((db, NaN) :: rb) d w Hrn
             (or_intror Hw)).
  apply (Hb _ Hw).
Qed.

Lemma compute_rolling_corr_cases ret_a ret_b window :
  NoDup (index ret_a) -> NoDup (index ret_b) ->
  ((Z.of_nat (overlap_count ret_a ret_b) < window)%Z
   /\ compute_rolling_corr ret_a ret_b window = Raise InsufficientOverlap)
  \/ ((0 <= window <= Z.of_nat (overlap_count ret_a ret_b))%Z
      /\ exists rho, compute_rolling_corr ret_a ret_b window = Ok rho)
  \/ ((window < 0)%Z
      /\ compute_rolling_corr ret_a ret_b window
         = Raise (ValueError "window must be an integer 0 or greater")).
Proof.
  intros Ha Hb.
  destruct (ComovementFacts.overlap_frame_spec ret_a ret_b Ha Hb)
    as (df & Hdf & Hlen & _).
  unfold compute_rolling_corr. rewrite Hdf. simpl. rewrite Hlen.
  destruct (Z.ltb_spec (Z.of_nat (overlap_count ret_a ret_b)) window)
    as [L|L]; [now left|].
  right. unfold rolling_corr.
  destruct (Z.ltb_spec window 0) as [N|N]; simpl.
  - right. now split.
  - left. split; [lia|]. eauto.
Qed.

(** Two price files with positive prices on the same [n] distinct days
    share [n - 1] returns: the rolling correlation is refused for
    insufficient overlap exactly when the window is longer than that,
    and is computed for every window from 0 to [n - 1]. *)
Theorem rolling_corr_needs_one_more_day :
  forall pa pb window,
    index pa = index pb -> NoDup (index pa) ->
    positive_prices pa -> positive_prices pb ->
    overlap_count (to_log_returns pa) (to_log_returns pb)
    = pred (length pa)
    /\ (compute_rolling_corr (to_log_returns pa) (to_log_returns pb) window
        = Raise InsufficientOverlap
        <-> (Z.of_nat (pred (length pa)) < window)%Z)
    /\ ((0 <= window <= Z.of_nat (pred (length pa)))%Z ->
        exists rho,
          compute_rolling_corr (to_log_returns pa) (to_log_returns pb)
                               window = Ok rho).
Proof.
  intros pa pb window Hidx Hnd Ha Hb.
  assert (Hc := overlap_count_returns pa pb Hidx Hnd Ha Hb).
  assert (Na : NoDup (index (to_log_returns pa)))
    by now rewrite ComovementFacts.to_log_returns_index.
  assert (Nb : NoDup (index (to_log_returns pb)))
    by (rewrite ComovementFacts.to_log_returns_index, <- Hidx; exact Hnd).
  split; [exact Hc|].
  destruct (compute_rolling_corr_cases _ _ window Na Nb)
    as [[L E]|[[L (rho & E)]|[L E]]]; try rewrite Hc in L; rewrite E.
  - split; [tauto|]. intros; lia.
  - split; [split; [discriminate | lia]|]. eauto.
  - split; [split; [intros H; inversion H | lia]|]. lia.
Qed.

Lemma rolling_corr_needs_one_more_day_witness :
  overlap_count (to_log_returns sample_prices_a)
                (to_log_returns sample_prices_b) = 3%nat
  /\ (compute_rolling_corr (to_log_returns sample_prices_a)
                           (to_log_returns sample_prices_b) 3
      = Raise InsufficientOverlap
      <-> (3 < 3)%Z)
  /\ ((0 <= 3 <= 3)%Z ->
      exists rho,
        compute_rolling_corr (to_log_returns sample_prices_a)
                             (to_log_returns sample_prices_b) 3 = Ok rho).
Proof.
  apply (rolling_corr_needs_one_more_day sample_prices_a sample_prices_b 3).
  - reflexivity.
  - repeat constructor; simpl; intuition lia.
  - intros d v H. simpl in H.
    repeat (destruct H as [H|H];
            [inversion H; eexists; split; [reflexivity | lra]|]).
    contradiction.
  - intros d v H. simpl in H.
    repeat (destruct H as [H|H];
            [inversion H; eexists; split; [reflexivity | lra]|]).
    contradiction.
Defined.

(** *** Aggregation by quarter *)

Lemma tanh_increasing x y : x < y -> tanh x < tanh y.
Proof.
  intros H.
  assert (Hx : 0 < exp x) by apply exp_pos.
  assert (Hy : 0 < exp y) by apply exp_pos.
  assert (Hxy : exp x < exp y) by now apply exp_increasing.
  assert (F : forall e, 0 < e ->
                (e - / e) / 2 / ((e + / e) / 2) = 1 - 2 / (e * e + 1)).
  { intros e He. field. split; nra. }
  unfold tanh, sinh, cosh. rewrite !exp_Ropp, (F _ Hx), (F _ Hy).
  assert (0 < exp x * exp x + 1) by nra.
  assert (exp x * exp x + 1 < exp y * exp y + 1) by nra.
  assert (/ (exp y * exp y + 1) < / (exp x * exp x + 1))
    by (apply Rinv_lt_contravar; nra).
  unfold Rdiv. lra.
Qed.

Lemma tanh_monotone x y : x <= y -> tanh x <= tanh y.
Proof.
  intros [H| ->]; [left; now apply tanh_increasing | right; reflexivity].
Qed.

Lemma tanh_le_inv x y : tanh x <= tanh y -> x <= y.
Proof.
  intros H. destruct (Rle_or_lt x y) as [L|L]; [exact L|].
  apply tanh_increasing in L. lra.
Qed.

(** The transform of a value that is not NaN is a number whose [tanh]
    lies within the clip. *)
Lemma fisher_z1_bounded v :
  v <> NaN ->
  exists z, fisher_z1 v = Finite z /\ -0.999999 <= tanh z <= 0.999999.
Proof.
  intros Hv. destruct v as [r| | |]; [| | |contradiction].
  - destruct (ComovementFacts.clip_finite r) as (c & Hc & Hb & _).
    destruct (ComovementFacts.fisher_z1_finite r) as (c' & Hc' & Hz & _).
    rewrite Hc in Hc'. inversion Hc'; subst c'.
    eexists; split; [exact Hz|].
    rewrite ComovementFacts.tanh_half_ln by lra. exact Hb.
  - unfold fisher_z1. simpl clip.
    rewrite ComovementFacts.fisher_core by lra.
    eexists; split; [reflexivity|].
    rewrite ComovementFacts.tanh_half_ln by lra. lra.
  - unfold fisher_z1. simpl clip.
    rewrite ComovementFacts.fisher_core by lra.
    eexists; split; [reflexivity|].
    rewrite ComovementFacts.tanh_half_ln by lra. lra.
Qed.

Lemma Rsum_bounds lo hi l :
  (forall x, In x l -> lo <= x <= hi) ->
  lo * INR (length l) <= Rsum l <= hi * INR (length l).
Proof.
  induction l as [|a l IH]; intros H.
  - simpl. lra.
  - change (length (a :: l)) with (S (length l)). rewrite S_INR.
    unfold Rsum in *. simpl fold_right.
    assert (Ha := H a (or_introl eq_refl)).
    assert (Hl := IH (fun x Hx => H x (or_intror Hx))). lra.
Qed.

Lemma mean_bounds lo hi l :
  l <> [] ->
  (forall x, In x l -> lo <= x <= hi) ->
  lo <= mean l <= hi.
Proof.
  intros Hne H. assert (B := Rsum_bounds lo hi l H).
  assert (Hn : 0 < INR (length l)).
  { apply lt_0_INR. destruct l; [contradiction | simpl; lia]. }
  unfold mean. split.
  - apply Rmult_le_reg_r with (INR (length l)); [exact Hn|].
    unfold Rdiv. rewrite Rmult_assoc, Rinv_l by lra. lra.
  - apply Rmult_le_reg_r with (INR (length l)); [exact Hn|].
    unfold Rdiv. rewrite Rmult_assoc, Rinv_l by lra. lra.
Qed.

Lemma fmean_finite zs :
  zs <> [] -> fmean (map Finite zs) = Finite (mean zs).
Proof.
  intros Hne. unfold fmean.
  rewrite filter_all
    by (intros a Ha; apply in_map_iff in Ha as (z & <- & _); reflexivity).
  destruct zs as [|z zs]; [contradiction|].
  change (map Finite (z :: zs)) with (Finite z :: map Finite zs).
  cbv iota beta.
  assert (Hs : forall l, fsum (map Finite l) = Finite (Rsum l)).
  { induction l as [|a l IH]; [reflexivity|].
    unfold fsum, Rsum in *. simpl. now rewrite IH. }
  change (Finite z :: map Finite zs) with (map Finite (z :: zs)).
  rewrite Hs, length_map. unfold fdiv.
  rewrite ComovementFacts.sign_of_pos; [reflexivity|].
  apply lt_0_INR. simpl. lia.
Qed.

Lemma all_Finite (P : R -> Prop) (l : list float64) :
  (forall a, In a l -> exists z, a = Finite z /\ P z) ->
  exists zs, l = map Finite zs /\ forall z, In z zs -> P z.
Proof.
  induction l as [|a l IH]; intros H.
  - exists []. split; [reflexivity | contradiction].
  - destruct (H a (or_introl eq_refl)) as (z & -> & Hz).
    destruct (IH (fun b Hb => H b (or_intror Hb))) as (zs & -> & Hzs).
    exists (z :: zs). split; [reflexivity|].
    intros y [<-|Hy]; auto.
Qed.

Section Aggregation.

Variable quarter_label : Z -> string.

Lemma agg_frame_rows rho_series :
  agg_frame (to_quarter_label quarter_label (index rho_series)) rho_series
            (fisher_z rho_series)
  = map (fun p => mkAgg (quarter_label (fst p)) (snd p) (fisher_z1 (snd p)))
        rho_series.
Proof.
  unfold agg_frame, to_quarter_label, index, fisher_z.
  induction rho_series as [|[d v] l IH]; [reflexivity|].
  simpl. f_equal. exact IH.
Qed.

Lemma quarter_keys_In agg q :
  In q (quarter_keys agg) <-> exists r, In r agg /\ agg_quarter r = q.
Proof.
  unfold quarter_keys. rewrite isort_In, nodup_In, in_map_iff.
  split; intros (r & H1 & H2); exists r; auto.
Qed.

Lemma quarter_keys_NoDup agg : NoDup (quarter_keys agg).
Proof. apply isort_NoDup, NoDup_nodup. Qed.

Lemma map_quarter_grouped agg :
  map quarter (group_by_quarter agg) = quarter_keys agg.
Proof.
  unfold group_by_quarter. rewrite map_map. simpl. apply map_id.
Qed.

Lemma count_key_once (k : string) keys :
  NoDup keys -> In k keys ->
  list_sum (map (fun q => if String.eqb k q then 1%nat else 0%nat) keys)
  = 1%nat.
Proof.
  induction 1 as [|a l Hna Hnd IH]; intros Hin; [contradiction|].
  simpl. destruct (String.eqb_spec k a) as [->|Hne].
  - assert (Z : list_sum (map (fun q => if String.eqb a q then 1%nat
                                        else 0%nat) l) = 0%nat).
    { clear IH Hin Hnd. induction l as [|b l IHl]; [reflexivity|].
      simpl. destruct (String.eqb_spec a b) as [->|_].
      - exfalso. apply Hna. now left.
      - apply IHl. intros H. apply Hna. now right. }
    now rewrite Z.
  - destruct Hin as [->|Hin]; [contradiction|]. now apply IH.
Qed.

Lemma list_sum_map_add {A : Type} (f g : A -> nat) l :
  list_sum (map (fun x => (f x + g x)%nat) l)
  = (list_sum (map f l) + list_sum (map g l))%nat.
Proof.
  induction l as [|a l IH]; simpl; [reflexivity|]. rewrite IH. lia.
Qed.

Lemma sum_counts keys agg :
  NoDup keys ->
  (forall r, In r agg -> In (agg_quarter r) keys) ->
  list_sum (map (fun q => length (filter (in_quarter q) agg)) keys)
  = length agg.
Proof.
  intros Hnd. induction agg as [|r agg IH]; intros Hin.
  - simpl. clear Hnd Hin. induction keys as [|k keys IHk]; simpl;
      [reflexivity | exact IHk].
  - rewrite (map_ext _ (fun q => ((if String.eqb (agg_quarter r) q
                                   then 1 else 0)
                                  + length (filter (in_quarter q) agg))%nat)).
    + rewrite list_sum_map_add, count_key_once, IH; auto.
      * intros x Hx. apply Hin. now right.
      * apply Hin. now left.
    + intros q. simpl. unfold in_quarter at 1.
      now destruct (String.eqb (agg_quarter r) q).
Qed.

(** Every window is counted in exactly one quarter: [grouped] has one
    row per quarter in which a window ends, in ascending order of the
    label; [n_windows] is the number of windows that end in the quarter,
    at least one, and the counts add up to the length of the rolling
    series. *)
Theorem aggregate_counts_every_window :
  forall rho_series,
    total_windows (aggregate quarter_label rho_series) = length rho_series
    /\ Sorted (fun a b => String.leb a b = true)
              (map quarter (aggregate quarter_label rho_series))
    /\ NoDup (map quarter (aggregate quarter_label rho_series))
    /\ (forall d, In d (index rho_series) ->
          In (quarter_label d)
             (map quarter (aggregate quarter_label rho_series)))
    /\ forall g, In g (aggregate quarter_label rho_series) ->
         (1 <= n_windows g)%nat
         /\ n_windows g
            = length (filter (fun d => String.eqb (quarter_label d)
                                                  (quarter g))
                             (index rho_series)).
Proof.
  intros rho. unfold aggregate. rewrite agg_frame_rows.
  set (agg := map _ rho).
  rewrite map_quarter_grouped.
  split; [|split; [|split; [|split]]].
  - unfold total_windows, group_by_quarter. rewrite map_map. simpl.
    rewrite sum_counts.
    + unfold agg. now rewrite length_map.
    + apply quarter_keys_NoDup.
    + intros r Hr. apply quarter_keys_In. now exists r.
  - apply isort_Sorted. apply String.leb_total.
  - apply quarter_keys_NoDup.
  - intros d Hd. apply quarter_keys_In. unfold index in Hd.
    apply in_map_iff in Hd as (p & <- & Hp).
    eexists. split; [apply in_map_iff; exists p; split;
                     [reflexivity | exact Hp]|]. reflexivity.
  - intros g Hg. unfold group_by_quarter in Hg.
    apply in_map_iff in Hg as (q & <- & Hq). simpl.
    assert (E : length (filter (in_quarter q) agg)
                = length (filter (fun d => String.eqb (quarter_label d) q)
                                 (index rho))).
    { unfold agg, index. clear. induction rho as [|p l IH]; [reflexivity|].
      simpl. unfold in_quarter at 1. simpl.
      destruct (String.eqb (quarter_label (fst p)) q); simpl; now rewrite IH. }
    split; [|exact E].
    apply quarter_keys_In in Hq as (r & Hr & Hrq).
    assert (Hf : In r (filter (in_quarter q) agg)).
    { apply filter_In. split; [exact Hr|]. unfold in_quarter.
      now apply String.eqb_eq. }
    destruct (filter (in_quarter q) agg); [contradiction | simpl; lia].
Qed.

Lemma dropna_series_no_nan s : no_nan (dropna_series s).
Proof.
  intros d v H E. unfold dropna_series in H. apply filter_In in H as [_ H].
  simpl in H. now subst v.
Qed.

Lemma compute_rolling_corr_no_nan ret_a ret_b window rho :
  compute_rolling_corr ret_a ret_b window = Ok rho -> no_nan rho.
Proof.
  unfold compute_rolling_corr. intros H.
  destruct (overlap_frame ret_a ret_b) as [df|e]; simpl in H; [|discriminate].
  destruct (Z.of_nat (length df) <? window)%Z; [discriminate|].
  destruct (rolling_corr df window) as [r|e]; simpl in H; [|discriminate].
  inversion H. apply dropna_series_no_nan.
Qed.

(** The series [compute_rolling_corr] returns holds no NaN, and for such
    a series every row of [grouped] has a finite [z_mean] and a
    [rho_from_mean_z], its [tanh], that stays within the clip of
    [fisher_z]: between -0.999999 and 0.999999, also when correlations of
    the quarter are infinite. *)
Theorem rho_from_mean_z_bounded :
  (forall ret_a ret_b window rho,
      compute_rolling_corr ret_a ret_b window = Ok rho -> no_nan rho)
  /\ forall rho_series g,
       no_nan rho_series ->
       In g (aggregate quarter_label rho_series) ->
       exists z,
         z_mean g = Finite z
         /\ rho_from_mean_z g = Finite (tanh z)
         /\ -0.999999 <= tanh z <= 0.999999.
Proof.
  split; [exact compute_rolling_corr_no_nan|].
  intros rho g Hnn Hg. unfold aggregate in Hg. rewrite agg_frame_rows in Hg.
  unfold group_by_quarter in Hg. apply in_map_iff in Hg as (q & <- & Hq).
  set (agg := map _ rho) in *.
  set (lo := 0.5 * ln ((1 + -0.999999) / (1 + - -0.999999))).
  set (hi := 0.5 * ln ((1 + 0.999999) / (1 + - (0.999999)))).
  assert (Tlo : tanh lo = -0.999999)
    by (apply ComovementFacts.tanh_half_ln; lra).
  assert (Thi : tanh hi = 0.999999)
    by (apply ComovementFacts.tanh_half_ln; lra).
  destruct (all_Finite (fun z => lo <= z <= hi)
              (map agg_z (filter (in_quarter q) agg))) as (zs & Ezs & Hzs).
  { intros a Ha. apply in_map_iff in Ha as (r & <- & Hr).
    apply filter_In in Hr as [Hr _]. unfold agg in Hr.
    apply in_map_iff in Hr as ([d v] & <- & Hp). simpl.
    destruct (fisher_z1_bounded v (Hnn d v Hp)) as (z & Hz & Hb).
    exists z. split; [exact Hz|].
    split; apply tanh_le_inv; lra. }
  assert (Hne : zs <> []).
  { apply quarter_keys_In in Hq as (r & Hr & Hrq).
    assert (Hf : In (agg_z r) (map agg_z (filter (in_quarter q) agg))).
    { apply in_map. apply filter_In. split; [exact Hr|].
      unfold in_quarter. now apply String.eqb_eq. }
    rewrite Ezs in Hf. intros ->. contradiction. }
  exists (mean zs). simpl. rewrite Ezs, fmean_finite by exact Hne.
  split; [reflexivity|]. split; [reflexivity|].
  destruct (mean_bounds lo hi zs Hne Hzs) as [L U].
  apply tanh_monotone in L, U. lra.
Qed.

End Aggregation.

Lemma rho_from_mean_z_bounded_witness :
  exists z,
    z_mean (group_row
              (map (fun p => mkAgg (sample_quarter_label (fst p)) (snd p)
                                   (fisher_z1 (snd p))) sample_rho)
              "2019Q4") = Finite z
    /\ -0.999999 <= tanh z <= 0.999999.
Proof.
  destruct (rho_from_mean_z_bounded sample_quarter_label) as [_ H].
  destruct (H sample_rho
              (group_row
                 (map (fun p => mkAgg (sample_quarter_label (fst p)) (snd p)
                                      (fisher_z1 (snd p))) sample_rho)
                 "2019Q4"))
    as (z & Hz & _ & Hb).
  - intros d v Hin. simpl in Hin.
    destruct Hin as [E|[E|[E|[]]]]; inversion E; discriminate.
  - right. left. reflexivity.
  - exists z. split; [exact Hz | exact Hb].
Defined.

(** *** [main] *)

Lemma filter_key_unique (k : string) grouped :
  NoDup (map quarter grouped) ->
  filter (fun g => String.eqb k (quarter g)) grouped = []
  \/ exists g, filter (fun g => String.eqb k (quarter g)) grouped = [g].
Proof.
  induction grouped as [|g l IH]; intros Hnd; [now left|].
  inversion Hnd as [|? ? Hni Hnd']; subst. simpl.
  destruct (String.eqb_spec k (quarter g)) as [E|_]; [|now apply IH].
  right. exists g. f_equal.
  destruct (filter (fun g0 => String.eqb k (quarter g0)) l) as [|h t] eqn:F;
    [reflexivity|].
  exfalso. apply Hni.
  assert (Hh : In h (filter (fun g0 => String.eqb k (quarter g0)) l))
    by (rewrite F; now left).
  apply filter_In in Hh as [Hh Hk]. apply String.eqb_eq in Hk.
  apply in_map_iff. exists h. split; [congruence | exact Hh].
Qed.

Lemma merge_left_rows left_on base grouped :
  NoDup (map quarter grouped) ->
  map fst (merge_left left_on base grouped) = base
  /\ forall b s, In (b, s) (merge_left left_on base grouped) ->
       match s with
       | Some g => In g grouped /\ quarter g = left_on b
       | None => forall g, In g grouped -> quarter g <> left_on b
       end.
Proof.
  intros Hnd. unfold merge_left.
  set (f := fun b : list string => _).
  assert (Hone : forall b,
             exists s, f b = [(b, s)]
                       /\ match s with
                          | Some g => In g grouped /\ quarter g = left_on b
                          | None =>
                              forall g, In g grouped -> quarter g <> left_on b
                          end).
  { intros b. unfold f.
    destruct (filter_key_unique (left_on b) grouped Hnd) as [F|(g & F)];
      rewrite F.
    - exists None. split; [reflexivity|]. intros g Hg Hq.
      assert (Hf : In g (filter (fun g => String.eqb (left_on b) (quarter g))
                                grouped)).
      { apply filter_In. split; [exact Hg|]. now apply String.eqb_eq. }
      now rewrite F in Hf.
    - exists (Some g). split; [reflexivity|].
      assert (Hf : In g (filter (fun g => String.eqb (left_on b) (quarter g))
                                grouped)) by (rewrite F; now left).
      apply filter_In in Hf as [Hg Hq]. apply String.eqb_eq in Hq. auto. }
  clearbody f. induction base as [|b base [IH1 IH2]].
  - split; [reflexivity | contradiction].
  - destruct (Hone b) as (s & Es & Hs). simpl. rewrite Es. simpl.
    rewrite IH1. split; [reflexivity|].
    intros b' s' [E|H]; [|now apply IH2].
    inversion E; subst. exact Hs.
Qed.

Section MainFacts.

Variable quarter_label : Z -> string.
Variable to_datetime : string -> result Z.

Lemma aggregate_NoDup rho_series :
  NoDup (map quarter (aggregate quarter_label rho_series)).
Proof.
  unfold aggregate. rewrite map_quarter_grouped. apply quarter_keys_NoDup.
Qed.

(** What [main] writes has the rows of the input CSV, each once and in
    the order of the input; a row carries the statistics of the quarter
    named in its period column, and no statistics when no window ends in
    that quarter or the label is no quarter at all. *)
Theorem main_keeps_input_rows :
  forall in_csv file_a file_b out,
    main quarter_label to_datetime in_csv file_a file_b = Ok out ->
    exists base period_col px_a px_b rho_series,
      in_csv = Some base
      /\ detect_period_column (base_columns base) = Ok period_col
      /\ load_price_series_from_csv to_datetime "KO.csv" file_a
           FILTER_START_DATE FILTER_END_DATE = Ok px_a
      /\ load_price_series_from_csv to_datetime "PEP.csv" file_b
           FILTER_START_DATE FILTER_END_DATE = Ok px_b
      /\ compute_rolling_corr (to_log_returns px_a) (to_log_returns px_b)
           ROLLING_WINDOW = Ok rho_series
      /\ map out_base out = base_rows base
      /\ forall o, In o out ->
           out_co_mov_tickers o = "KO-PEP"%string
           /\ out_rolling_window_days o = 120%Z
           /\ match out_stats o with
              | Some g =>
                  In g (aggregate quarter_label rho_series)
                  /\ quarter g
                     = cell_of (base_columns base) period_col (out_base o)
              | None =>
                  forall g, In g (aggregate quarter_label rho_series) ->
                    quarter g
                    <> cell_of (base_columns base) period_col (out_base o)
              end.
Proof.
  intros in_csv fa fb out H. unfold main in H.
  destruct in_csv as [base|]; [|discriminate].
  destruct (detect_period_column (base_columns base)) as [col|e] eqn:Hc;
    [|discriminate].
  simpl in H.
  destruct (load_price_series_from_csv to_datetime "KO.csv" fa _ _)
    as [px_a|e] eqn:Ha; [|discriminate].
  simpl in H.
  destruct (load_price_series_from_csv to_datetime "PEP.csv" fb _ _)
    as [px_b|e] eqn:Hb; [|discriminate].
  simpl in H.
  destruct (compute_rolling_corr _ _ ROLLING_WINDOW) as [rho|e] eqn:Hr;
    [|discriminate].
  simpl in H. inversion H; subst out; clear H.
  exists base, col, px_a, px_b, rho.
  destruct (merge_left_rows (cell_of (base_columns base) col)
              (base_rows base) (aggregate quarter_label rho)
              (aggregate_NoDup rho)) as [M1 M2].
  do 5 (split; [reflexivity || assumption|]).
  split; [now rewrite map_map|].
  intros o Ho. apply in_map_iff in Ho as ([b s] & <- & Hin). simpl.
  split; [reflexivity|]. split; [reflexivity|].
  apply (M2 b s Hin).
Qed.

End MainFacts.

Lemma NoDup_map_inj {A B : Type} (f : A -> B) l :
  (forall x y, f x = f y -> x = y) -> NoDup l -> NoDup (map f l).
Proof.
  intros Hinj. induction 1 as [|a l Hni Hnd IH]; simpl; constructor;
    [|exact IH].
  intros H. apply in_map_iff in H as (x & E & Hx). apply Hinj in E.
  now subst.
Qed.

Lemma detect_period_column_returns columns :
  columns <> [] -> exists c, detect_period_column columns = Ok c.
Proof.
  intros H. unfold detect_period_column.
  destruct (find (has_column columns) candidates); [eauto|].
  destruct columns; [contradiction | eauto].
Qed.

(** The series read from a file of [n] days at a constant price. *)
Lemma load_flat_file to_datetime name n :
  (0 < n)%nat ->
  exists px,
    load_price_series_from_csv to_datetime name (Some (flat_file n))
      FILTER_START_DATE FILTER_END_DATE = Ok px
    /\ length px = n /\ NoDup (index px) /\ positive_prices px.
Proof.
  intros Hn.
  set (s := combine (map Z.of_nat (seq 0 n))
                    (map (fun _ : nat => Finite 1) (seq 0 n))).
  assert (Hlen : length (sort_index s) = n).
  { unfold sort_index, s.
    rewrite isort_length, length_combine, !length_map, length_seq. lia. }
  exists (sort_index s). split; [|split; [exact Hlen|split]].
  - unfold load_price_series_from_csv, flat_file. simpl. fold s.
    destruct (sort_index s); [simpl in Hlen; lia | reflexivity].
  - unfold index.
    apply (Permutation_NoDup
             (l := map fst s)).
    + apply Permutation_map, Permutation_sym, isort_Permutation.
    + unfold s. rewrite ComovementFacts.map_fst_combine
        by now rewrite !length_map.
      apply NoDup_map_inj; [apply Nat2Z.inj | apply seq_NoDup].
  - intros d v H. unfold sort_index in H.
    apply (proj1 (isort_In _ _ _)) in H.
    unfold s in H. apply in_combine_r in H.
    apply in_map_iff in H as (i & <- & _). exists 1. split; [reflexivity|lra].
Qed.

Lemma main_flat_runs quarter_label to_datetime base :
  base_columns base <> [] ->
  exists out,
    main quarter_label to_datetime (Some base) (Some (flat_file 121))
         (Some (flat_file 121)) = Ok out.
Proof.
  intros Hb. unfold main.
  destruct (detect_period_column_returns (base_columns base) Hb)
    as [col ->].
  cbn [Py.bind].
  destruct (load_flat_file to_datetime "KO.csv" 121 ltac:(lia))
    as (pa & Ha & La & Na & Pa).
  destruct (load_flat_file to_datetime "PEP.csv" 121 ltac:(lia))
    as (pb & Hpb & Lb & Nb & Pb).
  rewrite Ha. cbn [Py.bind]. rewrite Hpb. cbn [Py.bind].
  assert (E : index pb = index pa).
  { unfold load_price_series_from_csv, flat_file in Ha, Hpb.
    cbn [column_of String.eqb Ascii.eqb Bool.eqb price_column astype_float64
         Py.bind date_filter FILTER_START_DATE FILTER_END_DATE] in Ha, Hpb.
    destruct (sort_index _) in Ha, Hpb; [discriminate|]. congruence. }
  destruct (compute_rolling_corr_cases (to_log_returns pa)
              (to_log_returns pb) ROLLING_WINDOW)
    as [[L _]|[[_ (rho & Er)]|[L _]]].
  - now rewrite ComovementFacts.to_log_returns_index.
  - now rewrite ComovementFacts.to_log_returns_index.
  - rewrite overlap_count_returns, La in L by auto.
    unfold ROLLING_WINDOW in L. lia.
  - rewrite Er. cbn [Py.bind]. eauto.
  - unfold ROLLING_WINDOW in L. lia.
Qed.

Lemma main_keeps_input_rows_witness :
  exists out,
    main sample_quarter_label (fun _ => Raise (ValueError "no date"))
         (Some sample_base) (Some (flat_file 121)) (Some (flat_file 121))
    = Ok out
    /\ map out_base out = base_rows sample_base.
Proof.
  destruct (main_flat_runs sample_quarter_label
              (fun _ => Raise (ValueError "no date")) sample_base
              ltac:(discriminate)) as [out H].
  exists out. split; [exact H|].
  destruct (main_keeps_input_rows sample_quarter_label
              (fun _ => Raise (ValueError "no date"))
              (Some sample_base) (Some (flat_file 121))
              (Some (flat_file 121)) out H)
    as (base & col & pa & pb & rho & Eb & _ & _ & _ & _ & Hrows & _).
  inversion Eb; subst base. exact Hrows.
Defined.

End ComovementMainFacts.

(** ** pdf_reader.py, further properties *)

Module PdfPagesFacts.
Import PdfReader PdfPages.

Local Open Scope string_scope.
Local Open Scope nat_scope.

Lemma whitespace_only_app a b :
  whitespace_only (a ++ b) = whitespace_only a && whitespace_only b.
Proof.
  induction a as [|c a IH]; simpl; [reflexivity|].
  now rewrite IH, andb_assoc.
Qed.

Lemma extract_text_cons p ps :
  ps <> [] ->
  extract_text_from_pdf (mkFile "" (p :: ps))
  = page_text p ++ newline ++ extract_text_from_pdf (mkFile "" ps).
Proof.
  unfold extract_text_from_pdf. simpl. destruct ps; [contradiction|].
  reflexivity.
Qed.

Lemma extract_text_name n n' ps :
  extract_text_from_pdf (mkFile n ps) = extract_text_from_pdf (mkFile n' ps).
Proof. reflexivity. Qed.

Lemma whitespace_only_pages ps :
  whitespace_only (extract_text_from_pdf (mkFile "" ps))
  = forallb (fun p => whitespace_only (page_text p)) ps.
Proof.
  induction ps as [|p ps IH]; [reflexivity|].
  destruct ps as [|q ps].
  - unfold extract_text_from_pdf. simpl. now rewrite andb_true_r.
  - rewrite extract_text_cons by discriminate.
    rewrite !whitespace_only_app, IH. reflexivity.
Qed.

Lemma match_here_prefix m post :
  is_period_label m -> match_here (m ++ post) = Some m.
Proof.
  intros H. apply PdfReaderFacts.match_here_label. split; [exact H|].
  now exists post.
Qed.

(** A quarter label holds no line break: one that starts before a
    line break ends before it. *)
Lemma label_before_newline m a rest post :
  is_period_label m ->
  a ++ newline ++ rest = m ++ post ->
  exists a', a = m ++ a'.
Proof.
  intros (c & d1 & d2 & d3 & d4 & -> & Hc & H1 & H2 & H3 & H4) E.
  unfold newline in E.
  destruct a as [|x1 [|x2 [|x3 [|x4 [|x5 [|x6 [|x7 a']]]]]]];
    simpl in E; inversion E; subst; try discriminate.
  now exists a'.
Qed.

Lemma append_assoc (a b c : string) : (a ++ b) ++ c = a ++ b ++ c.
Proof. induction a as [|x a IH]; simpl; [reflexivity | now rewrite IH]. Qed.

Lemma match_here_newline a rest :
  match_here (a ++ newline ++ rest) = match_here a.
Proof.
  destruct (match_here (a ++ newline ++ rest)) as [m|] eqn:E.
  - apply PdfReaderFacts.match_here_label in E as [Hl [post Ho]].
    simpl in Ho.
    destruct (label_before_newline m a rest post Hl Ho) as [a' ->].
    symmetry. now apply match_here_prefix.
  - destruct (match_here a) as [m|] eqn:E'; [|reflexivity].
    apply PdfReaderFacts.match_here_label in E' as [Hl [post Ho]].
    simpl in Ho. subst a. rewrite append_assoc in E.
    rewrite match_here_prefix in E by exact Hl. discriminate.
Qed.

Lemma search_newline a rest :
  search (a ++ newline ++ rest)
  = match search a with
    | Some m => Some m
    | None => search rest
    end.
Proof.
  induction a as [|c a IH].
  - change ("" ++ newline ++ rest) with (String (ascii_of_nat 10) rest).
    rewrite PdfReaderFacts.search_cons.
    change (String (ascii_of_nat 10) rest) with ("" ++ newline ++ rest).
    now rewrite match_here_newline.
  - change (String c a ++ newline ++ rest)
      with (String c (a ++ newline ++ rest)).
    rewrite !PdfReaderFacts.search_cons.
    change (String c (a ++ newline ++ rest))
      with (String c a ++ newline ++ rest).
    rewrite match_here_newline.
    destruct (match_here (String c a)); [reflexivity | exact IH].
Qed.

Lemma period_of_pages ps :
  period_of (extract_text_from_pdf (mkFile "" ps)) = first_page_label ps.
Proof.
  unfold period_of. induction ps as [|p ps IH]; [reflexivity|].
  destruct ps as [|q ps].
  - change (match search (page_text p) with Some m => m | None => "" end
            = match search (page_text p) with
              | Some m => m
              | None => ""
              end).
    reflexivity.
  - rewrite extract_text_cons by discriminate. rewrite search_newline.
    simpl first_page_label.
    destruct (search (page_text p)); [reflexivity | exact IH].
Qed.

(** Read page by page: a PDF file of an entity directory gives a
    Document exactly when one of its pages holds a character that is not
    whitespace; the period of the Document is the first quarter label of
    the first page that has one, so a label cut by the end of a page is
    not found. *)
Theorem iter_documents_by_page :
  forall root,
    (forall d f,
        In d root -> is_dir d = true ->
        In f (files d) -> endswith (file_name f) ".pdf" = true ->
        ((exists doc, In doc (iter_documents root)
                      /\ ticker doc = Str.upper (name d)
                      /\ doc_id doc = file_name f
                      /\ text doc = extract_text_from_pdf f)
         <-> existsb page_has_text (pages f) = true))
    /\ (forall doc,
          In doc (iter_documents root) ->
          exists d f,
            In d root /\ is_dir d = true /\ In f (files d)
            /\ doc_id doc = file_name f
            /\ text doc = extract_text_from_pdf f
            /\ existsb page_has_text (pages f) = true
            /\ period doc = first_page_label (pages f)).
Proof.
  intros root.
  assert (W : forall f,
             whitespace_only (extract_text_from_pdf f)
             = negb (existsb page_has_text (pages f))).
  { intros [n ps]. rewrite (extract_text_name n "" ps).
    rewrite whitespace_only_pages. simpl. unfold page_has_text.
    induction ps as [|p ps IH]; [reflexivity|]. simpl. rewrite IH.
    now destruct (whitespace_only (page_text p)). }
  assert (P : forall f,
             period_of (extract_text_from_pdf f)
             = first_page_label (pages f)).
  { intros [n ps]. rewrite (extract_text_name n "" ps).
    apply period_of_pages. }
  split.
  - intros d f Hd Hdir Hf Hpdf. split.
    + intros (doc & Hin & _ & _ & Ht).
      apply PdfReaderFacts.iter_documents_In in Hin
        as (d' & f' & _ & _ & _ & Hdoc).
      apply PdfReaderFacts.document_of_In in Hdoc as [Hw ->].
      simpl in Ht. rewrite Ht, W in Hw.
      now destruct (existsb page_has_text (pages f)).
    + intros He.
      exists (mkDocument (Str.upper (name d)) (file_name f)
                (extract_text_from_pdf f)
                (period_of (extract_text_from_pdf f))).
      split; [|auto].
      apply PdfReaderFacts.iter_documents_In. exists d, f.
      split; [exact Hd|]. split; [exact Hdir|].
      split; [now apply PdfReaderFacts.glob_pdf_In|].
      apply PdfReaderFacts.document_of_In. split; [|reflexivity].
      now rewrite W, He.
  - intros doc Hin.
    apply PdfReaderFacts.iter_documents_In in Hin
      as (d & f & Hd & Hdir & Hf & Hdoc).
    apply PdfReaderFacts.glob_pdf_In in Hf as [Hf _].
    apply PdfReaderFacts.document_of_In in Hdoc as [Hw ->].
    exists d, f. simpl. rewrite W in Hw.
    repeat split; auto.
    now destruct (existsb page_has_text (pages f)).
Qed.

Example broken_label_period :
  iter_documents [mkEntry "ko" true [broken_label]]
  = [mkDocument "KO" "ko.pdf" (extract_text_from_pdf broken_label)
                "Q3 2021"].
Proof. reflexivity. Qed.

(** *** The order of the documents *)

Lemma ascii_compare_trans a b c o :
  Ascii.compare a b = o -> Ascii.compare b c = o -> o <> Eq ->
  Ascii.compare a c = o.
Proof.
  unfold Ascii.compare. intros H1 H2 Ho.
  destruct o; try congruence.
  - rewrite N.compare_lt_iff in *. lia.
  - rewrite N.compare_gt_iff in *. lia.
Qed.

Lemma string_compare_trans a :
  forall b c,
    String.compare a b <> Gt -> String.compare b c <> Gt ->
    String.compare a c <> Gt.
Proof.
  induction a as [|x a IH]; intros [|y b] [|z c]; simpl; try congruence.
  destruct (Ascii.compare x y) eqn:E1; destruct (Ascii.compare y z) eqn:E2;
    try congruence.
  - apply Ascii.compare_eq_iff in E1, E2. subst.
    assert (H : Ascii.compare z z = Eq)
      by (unfold Ascii.compare; apply N.compare_refl).
    rewrite H. apply IH.
  - apply Ascii.compare_eq_iff in E1. subst. rewrite E2. congruence.
  - apply Ascii.compare_eq_iff in E2. subst. rewrite E1. congruence.
  - rewrite (ascii_compare_trans x y z Lt E1 E2); congruence.
Qed.

Lemma leb_trans a b c :
  String.leb a b = true -> String.leb b c = true -> String.leb a c = true.
Proof.
  unfold String.leb. intros H1 H2.
  assert (H : String.compare a c <> Gt).
  { apply (string_compare_trans a b c).
    - destruct (String.compare a b); congruence.
    - destruct (String.compare b c); congruence. }
  destruct (String.compare a c); congruence.
Qed.

Lemma glob_pdf_sorted d :
  StronglySorted (fun f g => String.leb (file_name f) (file_name g) = true)
                 (glob_pdf d).
Proof.
  apply Sorted_StronglySorted.
  - intros a b c. apply leb_trans.
  - unfold glob_pdf.
    apply (isort_Sorted (fun f g => String.leb (file_name f) (file_name g))).
    intros a b. apply String.leb_total.
Qed.

Lemma documents_sorted ticker l :
  StronglySorted (fun f g => String.leb (file_name f) (file_name g) = true) l ->
  StronglySorted (fun x y => String.leb (doc_id x) (doc_id y) = true)
                 (flat_map (document_of ticker) l).
Proof.
  induction 1 as [|a l Hs IH Hf]; simpl; [constructor|].
  unfold document_of at 1.
  destruct (strip (extract_text_from_pdf a)); simpl; [exact IH|].
  constructor; [exact IH|].
  apply Forall_forall. intros y Hy.
  apply in_flat_map in Hy as (f & Hfl & Hy).
  apply PdfReaderFacts.document_of_In in Hy as [_ ->]. simpl.
  rewrite Forall_forall in Hf. now apply Hf.
Qed.

Lemma iter_documents_single d :
  iter_documents [d]
  = if negb (is_dir d) then []
    else flat_map (document_of (Str.upper (name d))) (glob_pdf d).
Proof. unfold iter_documents. simpl. apply app_nil_r. Qed.

(** The documents come directory by directory, the directories in
    ascending order of their names as they are on disk, before
    upper-casing; an entry that is no directory gives nothing; the
    documents of a directory come in ascending order of file name and
    carry its upper-cased name. *)
Theorem iter_documents_order :
  forall root,
    iter_documents root
    = flat_map (fun d => iter_documents [d])
               (isort (fun d e => String.leb (name d) (name e)) root)
    /\ forall d,
         StronglySorted (fun x y => String.leb (doc_id x) (doc_id y) = true)
                        (iter_documents [d])
         /\ (forall x, In x (iter_documents [d]) ->
               ticker x = Str.upper (name d) /\ is_dir d = true)
         /\ length (iter_documents [d]) <= length (files d).
Proof.
  intros root. split.
  - unfold iter_documents at 1. apply flat_map_ext. intros d.
    now rewrite iter_documents_single.
  - intros d. rewrite iter_documents_single.
    destruct (is_dir d); simpl.
    + split; [apply documents_sorted, glob_pdf_sorted|]. split.
      * intros x Hx. apply in_flat_map in Hx as (f & _ & Hx).
        apply PdfReaderFacts.document_of_In in Hx as [_ ->]. now split.
      * apply Nat.le_trans with (length (glob_pdf d)).
        -- induction (glob_pdf d) as [|f l IH]; simpl; [lia|].
           rewrite length_app. unfold document_of at 1.
           destruct (strip (extract_text_from_pdf f)); simpl; lia.
        -- unfold glob_pdf. rewrite isort_length. apply filter_length_le.
    + split; [constructor|]. split; [contradiction | lia].
Qed.

End PdfPagesFacts.

(** ** download_data.py *)

Module DownloadFacts.
Import Download.

Local Open Scope string_scope.
Local Open Scope nat_scope.

Lemma frame_has_column_In df c : has_column df c = true <-> In c (columns df).
Proof.
  unfold has_column. rewrite existsb_exists. split.
  - intros (x & Hx & E). apply String.eqb_eq in E. now subst.
  - intros H. exists c. split; [exact H | apply String.eqb_refl].
Qed.

(** A selection that returns has the columns asked for and no other,
    and the rows of the frame. *)
Lemma select_spec df labels df' :
  select df labels = Ok df' ->
  n_rows df' = n_rows df
  /\ attrs_source df' = attrs_source df
  /\ forall c, In c (columns df') <-> In c labels.
Proof.
  unfold select. destruct (forallb (has_column df) labels) eqn:F;
    [|discriminate].
  intros H. inversion H; subst df'; clear H. simpl.
  split; [reflexivity|]. split; [reflexivity|].
  rewrite forallb_forall in F. intros c. rewrite in_flat_map. split.
  - intros (l & Hl & Hc). apply filter_In in Hc as [_ Hc].
    apply String.eqb_eq in Hc. now subst.
  - intros Hc. exists c. split; [exact Hc|]. apply filter_In.
    split; [now apply frame_has_column_In, F | apply String.eqb_refl].
Qed.

Lemma attempt_returns downloaded df :
  attempt downloaded = Ok df ->
  0 < n_rows df /\ forall c, In c (columns df) <-> In c price_columns.
Proof.
  unfold attempt. destruct downloaded as [d|e]; simpl; [|discriminate].
  destruct (empty d) eqn:E; simpl; [discriminate|].
  intros H. apply select_spec in H as (Hr & _ & Hc).
  split; [|exact Hc]. unfold empty in E.
  apply orb_false_iff in E as [E _]. apply Nat.eqb_neq in E. lia.
Qed.

Lemma retry_spec download passes :
  forall k slept,
  exists n,
    n <= passes
    /\ snd (retry download k passes slept)
       = (slept ++ map (fun i => 2 ^ i) (seq k n))%list
    /\ (forall i, k <= i < k + n ->
          exists e, attempt (download i) = Raise e /\ is_Exception e = true)
    /\ match fst (retry download k passes slept) with
       | Ok df => n < passes /\ attempt (download (k + n)) = Ok df
       | Raise e =>
           (n = passes /\ e = RuntimeError "Yahoo failed after retries.")
           \/ (n < passes /\ attempt (download (k + n)) = Raise e
               /\ is_Exception e = false)
       end.
Proof.
  induction passes as [|p IH]; intros k slept.
  - exists 0. simpl. rewrite app_nil_r.
    split; [lia|]. split; [reflexivity|]. split; [intros; lia|].
    left. split; reflexivity.
  - cbn [retry]. destruct (attempt (download k)) as [df|e] eqn:A.
    + exists 0. simpl. rewrite app_nil_r, Nat.add_0_r.
      split; [lia|]. split; [reflexivity|]. split; [intros; lia|].
      split; [lia | exact A].
    + destruct (is_Exception e) eqn:X.
      * destruct (IH (S k) (slept ++ [BACKOFF_BASE_SEC * 2 ^ k])%list)
          as (n & Hn & Hs & Hf & Hr).
        exists (S n). split; [lia|]. split; [|split].
        -- rewrite Hs, <- app_assoc. unfold BACKOFF_BASE_SEC.
           rewrite Nat.mul_1_l. reflexivity.
        -- intros i Hi. destruct (Nat.eq_dec i k) as [->|Hne]; [eauto|].
           apply Hf. lia.
        -- replace (k + S n) with (S k + n) by lia.
           destruct (fst (retry download (S k) p _)) as [df|e'].
           ++ split; [lia | tauto].
           ++ destruct Hr as [[-> ->]|(Hlt & Ha & He)]; [now left|].
              right. split; [lia | tauto].
      * exists 0. simpl. rewrite app_nil_r, Nat.add_0_r.
        split; [lia|]. split; [reflexivity|].
        split; [intros; lia|]. right. split; [lia | tauto].
Qed.

(** The retry policy of [fetch_yahoo].  With the library imported, the
    function calls Yahoo at most five times; after the failed call
    number [k] it sleeps [2 ^ k] seconds, also after the fifth, so a run
    that gives up has slept 1, 2, 4, 8 and 16 seconds.  An empty answer
    and an answer that lacks a price column count as failures.  It
    returns the first usable answer, gives up with a [RuntimeError]
    after five failures, and lets through at once an error that is no
    [Exception]. *)
Theorem fetch_yahoo_retries :
  forall w,
    import_yfinance w = Ok tt ->
    exists n,
      n <= 5
      /\ snd (fetch_yahoo w) = map (fun k => 2 ^ k) (seq 0 n)
      /\ (forall k, k < n ->
            exists e, attempt (yf_download w k) = Raise e
                      /\ is_Exception e = true)
      /\ match fst (fetch_yahoo w) with
         | Ok df => n < 5 /\ attempt (yf_download w n) = Ok df
         | Raise e =>
             (n = 5 /\ e = RuntimeError "Yahoo failed after retries.")
             \/ (n < 5 /\ attempt (yf_download w n) = Raise e
                 /\ is_Exception e = false)
         end.
Proof.
  intros w Hi. unfold fetch_yahoo. rewrite Hi.
  destruct (retry_spec (yf_download w) MAX_RETRIES 0 [])
    as (n & Hn & Hs & Hf & Hr).
  exists n. split; [exact Hn|]. split; [exact Hs|].
  split; [intros k Hk; apply Hf; lia | exact Hr].
Qed.

Lemma fetch_yahoo_retries_witness :
  exists n,
    n <= 5
    /\ snd (fetch_yahoo flaky_yahoo) = map (fun k => 2 ^ k) (seq 0 n)
    /\ (forall k, k < n ->
          exists e, attempt (yf_download flaky_yahoo k) = Raise e
                    /\ is_Exception e = true)
    /\ match fst (fetch_yahoo flaky_yahoo) with
       | Ok df => n < 5 /\ attempt (yf_download flaky_yahoo n) = Ok df
       | Raise e =>
           (n = 5 /\ e = RuntimeError "Yahoo failed after retries.")
           \/ (n < 5 /\ attempt (yf_download flaky_yahoo n) = Raise e
               /\ is_Exception e = false)
       end.
Proof.
  apply (fetch_yahoo_retries flaky_yahoo). reflexivity.
Defined.

Example fetch_yahoo_sample :
  fetch_yahoo flaky_yahoo = (Ok (mkFrame price_columns 10 None), [1; 2])
  /\ snd (fetch_yahoo yahoo_down) = [1; 2; 4; 8; 16].
Proof. split; reflexivity. Qed.

Lemma fetch_yahoo_returns w df :
  fst (fetch_yahoo w) = Ok df ->
  0 < n_rows df /\ forall c, In c (columns df) <-> In c price_columns.
Proof.
  unfold fetch_yahoo. destruct (import_yfinance w) as [[]|e];
    [|discriminate].
  intros H.
  destruct (retry_spec (yf_download w) MAX_RETRIES 0 [])
    as (n & _ & _ & _ & Hr).
  rewrite H in Hr. destruct Hr as [_ Hr]. now apply attempt_returns in Hr.
Qed.

Lemma fetch_stooq_returns w df :
  fetch_stooq w = Ok df ->
  0 < n_rows df /\ forall c, In c (columns df) <-> In c price_columns.
Proof.
  unfold fetch_stooq.
  destruct (import_pandas_datareader w); simpl; [|discriminate].
  destruct (stooq_reader w) as [d|e]; simpl; [|discriminate].
  destruct (empty d) eqn:E; [discriminate|].
  destruct (negb _); [discriminate|].
  destruct (assign_column _ _ _) as [d'|e] eqn:A; simpl; [|discriminate].
  intros H. apply select_spec in H as (Hr & _ & Hc).
  split; [|exact Hc]. rewrite Hr.
  unfold assign_column in A.
  destruct (filter _ _) as [|x [|y l]]; try discriminate.
  inversion A; subst d'. simpl.
  unfold empty in E. apply orb_false_iff in E as [E _].
  apply Nat.eqb_neq in E. lia.
Qed.

Lemma load_prices_returns w df :
  fst (load_prices w) = Ok df ->
  0 < n_rows df /\ forall c, In c (columns df) <-> In c price_columns.
Proof.
  unfold load_prices.
  destruct (fetch_yahoo w) as [[dy|yerr] slept] eqn:Y; simpl.
  - intros H. inversion H; subst dy.
    apply (fetch_yahoo_returns w). now rewrite Y.
  - destruct (is_Exception yerr); simpl; [|discriminate].
    destruct (fetch_stooq w) as [ds|serr] eqn:S; simpl.
    + intros H. inversion H; subst df. simpl.
      now apply (fetch_stooq_returns w).
    + destruct (is_Exception serr); discriminate.
Qed.

(** A frame that [load_prices] returns has rows, has each of the six
    price columns and no other column; it is the answer of Yahoo, or it
    comes from Stooq and is marked so. *)
Theorem load_prices_frame :
  forall w df,
    fst (load_prices w) = Ok df ->
    0 < n_rows df
    /\ (forall c, In c (columns df) <-> In c price_columns)
    /\ (fst (fetch_yahoo w) = Ok df
        \/ (attrs_source df = Some "stooq"
            /\ exists yerr, fst (fetch_yahoo w) = Raise yerr
                            /\ is_Exception yerr = true)).
Proof.
  intros w df. unfold load_prices.
  destruct (fetch_yahoo w) as [[dy|yerr] slept] eqn:Y; simpl.
  - intros H. inversion H; subst dy.
    assert (Hy : fst (fetch_yahoo w) = Ok df) by now rewrite Y.
    destruct (fetch_yahoo_returns w df Hy). auto.
  - destruct (is_Exception yerr) eqn:X; simpl; [|discriminate].
    destruct (fetch_stooq w) as [ds|serr] eqn:S; simpl.
    + intros H. inversion H; subst df. simpl.
      destruct (fetch_stooq_returns w ds S) as [Hr Hc].
      split; [exact Hr|]. split; [exact Hc|]. right. eauto.
    + destruct (is_Exception serr); discriminate.
Qed.

Lemma load_prices_frame_witness :
  0 < 7
  /\ (forall c, In c price_columns <-> In c price_columns)
  /\ (fst (fetch_yahoo yahoo_down)
      = Ok (mkFrame price_columns 7 (Some "stooq"))
      \/ (Some "stooq" = Some "stooq"
          /\ exists yerr, fst (fetch_yahoo yahoo_down) = Raise yerr
                          /\ is_Exception yerr = true)).
Proof.
  apply (load_prices_frame yahoo_down
           (mkFrame price_columns 7 (Some "stooq"))).
  reflexivity.
Defined.

(** The two checks of [main] after [load_prices] never fire: for a
    ticker that is not skipped, [main] saves whatever frame
    [load_prices] returns and raises whatever it raises; it neither
    warns of empty data nor reports missing columns. *)
Theorem process_ticker_checks_never_fire :
  forall w saved,
    process_ticker w saved
    = if saved then Ok Skipped
      else match fst (load_prices w) with
           | Ok df => Ok (Saved df)
           | Raise e => Raise e
           end.
Proof.
  intros w saved. unfold process_ticker. destruct saved; [reflexivity|].
  cbn [negb OVERWRITE andb].
  destruct (fst (load_prices w)) as [df|e] eqn:L; cbn [Py.bind];
    [|reflexivity].
  destruct (load_prices_returns w df L) as [Hr Hc].
  assert (E : empty df = false).
  { unfold empty. apply orb_false_iff. split; apply Nat.eqb_neq; [lia|].
    assert (H : In "Open" (columns df)) by (apply Hc; simpl; auto).
    destruct (columns df); [contradiction | simpl; lia]. }
  rewrite E.
  assert (F : filter (fun c => negb (has_column df c)) price_columns = []).
  { destruct (filter _ price_columns) as [|c l] eqn:F; [reflexivity|].
    assert (Hin : In c (filter (fun c => negb (has_column df c))
                               price_columns)) by (rewrite F; now left).
    apply filter_In in Hin as [Hcin Hn].
    apply Hc, frame_has_column_In in Hcin. rewrite Hcin in Hn. discriminate. }
  now rewrite F.
Qed.

End DownloadFacts.

(** ** scraper.py *)

Module ScraperFacts.
Import Scraper.

Local Open Scope string_scope.

Lemma replace_char_chars ch new s c :
  In c (chars_of (replace_char ch new s)) ->
  (c = new /\ In ch (chars_of s)) \/ (c <> ch /\ In c (chars_of s)).
Proof.
  induction s as [|x s IH]; simpl; [contradiction|].
  intros [E|H].
  - destruct (Ascii.eqb_spec x ch) as [->|Hne].
    + left. split; [now symmetry | now left].
    + right. subst c. split; [exact Hne | now left].
  - destruct (IH H) as [[-> Hin]|[Hne Hin]]; [left | right]; auto.
Qed.

Lemma lstrip_chars_of s c :
  In c (chars_of (PdfReader.lstrip s)) -> In c (chars_of s).
Proof.
  induction s as [|x s IH]; simpl; [contradiction|].
  destruct (PdfReader.is_space x); simpl; auto.
Qed.

Lemma rstrip_chars_of s c :
  In c (chars_of (PdfReader.rstrip s)) -> In c (chars_of s).
Proof.
  induction s as [|x s IH]; simpl; [contradiction|].
  destruct (PdfReader.rstrip s) as [|y t].
  - destruct (PdfReader.is_space x); simpl; [contradiction|].
    intros [E|[]]. now left.
  - simpl. intros [E|H]; [now left|]. right. apply IH. exact H.
Qed.

Lemma strip_chars_of s c :
  In c (chars_of (PdfReader.strip s)) -> In c (chars_of s).
Proof.
  unfold PdfReader.strip. intros H.
  now apply lstrip_chars_of, rstrip_chars_of.
Qed.

(** After the loop over the characters [done ++ todo], a string holds
    none of them, provided it held none of [done] before. *)
Lemma fold_replace_clean todo :
  forall s c,
    ~ In "_"%char todo ->
    In c (chars_of (fold_left (fun name ch => replace_char ch "_" name)
                              todo s)) ->
    ~ In c todo /\ (c = "_"%char \/ In c (chars_of s)).
Proof.
  induction todo as [|ch todo IH]; intros s c Hu H; simpl in *.
  - split; [tauto | now right].
  - destruct (IH _ c (fun X => Hu (or_intror X)) H) as [Hn Hc].
    split.
    + intros [E|Hin]; [|contradiction]. subst ch.
      destruct Hc as [->|Hc]; [apply Hu; now left|].
      apply replace_char_chars in Hc as [[-> _]|[Hne _]];
        [apply Hu; now left | congruence].
    + destruct Hc as [->|Hc]; [now left|].
      apply replace_char_chars in Hc as [[-> _]|[_ Hc]]; auto.
Qed.

Lemma rstrip_idempotent s :
  PdfReader.rstrip (PdfReader.rstrip s) = PdfReader.rstrip s.
Proof.
  induction s as [|x s IH]; simpl; [reflexivity|].
  destruct (PdfReader.rstrip s) as [|y t] eqn:E.
  - destruct (PdfReader.is_space x) eqn:S; simpl; [reflexivity|].
    now rewrite S.
  - simpl in *. now rewrite IH.
Qed.

Lemma rstrip_head s c t :
  PdfReader.rstrip s = String c t ->
  exists s', s = String c s'.
Proof.
  destruct s as [|x s]; simpl; [discriminate|].
  destruct (PdfReader.rstrip s).
  - destruct (PdfReader.is_space x); [discriminate|].
    intros H. inversion H. eauto.
  - intros H. inversion H. eauto.
Qed.

Lemma lstrip_head s :
  match PdfReader.lstrip s with
  | String c _ => PdfReader.is_space c = false
  | EmptyString => True
  end.
Proof.
  induction s as [|x s IH]; simpl; [exact I|].
  destruct (PdfReader.is_space x) eqn:E; [exact IH | exact E].
Qed.

Lemma strip_idempotent s :
  PdfReader.strip (PdfReader.strip s) = PdfReader.strip s.
Proof.
  unfold PdfReader.strip.
  assert (H : PdfReader.lstrip (PdfReader.rstrip (PdfReader.lstrip s))
              = PdfReader.rstrip (PdfReader.lstrip s)).
  { pose proof (lstrip_head s) as Hh.
    destruct (PdfReader.rstrip (PdfReader.lstrip s)) as [|c t] eqn:E;
      [reflexivity|].
    destruct (rstrip_head _ _ _ E) as [s' Es]. rewrite Es in Hh.
    simpl. now rewrite Hh. }
  rewrite H. apply rstrip_idempotent.
Qed.

Section Names.

Variable search_filename_star : string -> option string.
Variable search_filename : string -> option string.
Variable unquote : string -> string.
Variable url_path : string -> string.
Variable basename : string -> string.

(** Whatever the URL, the header and the libraries give, the path
    returned is the parent folder joined with a name that holds none of
    the characters of [invalid_chars] (the slash, the space and the
    comma among them), and that
    neither starts nor ends with whitespace; every character of the name
    is an underscore or a character of the name found in the header or
    in the URL.  The name is never taken from an empty header name: the
    URL, then [downloaded_file], stand in. *)
Theorem get_sanitized_filename_clean :
  forall url cd parent_folder,
    exists name,
      get_sanitized_filename search_filename_star search_filename unquote
                             url_path basename url cd parent_folder
      = path_join parent_folder name
      /\ name = sanitize (raw_filename search_filename_star search_filename
                                       unquote url_path basename url cd)
      /\ (forall c, In c (chars_of name) ->
            ~ In c invalid_chars
            /\ (c = "_"%char
                \/ In c (chars_of (raw_filename search_filename_star
                                     search_filename unquote url_path
                                     basename url cd))))
      /\ PdfReader.strip name = name
      /\ starts_with_sep name = false
      /\ raw_filename search_filename_star search_filename unquote url_path
                      basename url cd <> "".
Proof.
  intros url cd parent.
  set (raw := raw_filename _ _ _ _ _ url cd).
  assert (Hclean : forall c, In c (chars_of (sanitize raw)) ->
             ~ In c invalid_chars
             /\ (c = "_"%char \/ In c (chars_of raw))).
  { intros c Hc. unfold sanitize in Hc. apply strip_chars_of in Hc.
    apply fold_replace_clean in Hc; [exact Hc|].
    unfold invalid_chars. simpl.
    intros H. repeat (destruct H as [H|H]; [discriminate|]). exact H. }
  exists (sanitize raw). split; [reflexivity|]. split; [reflexivity|].
  split; [exact Hclean|]. split; [apply strip_idempotent|]. split.
  - destruct (sanitize raw) as [|c t] eqn:E; [reflexivity|]. simpl.
    destruct (Ascii.eqb_spec c "/") as [->|]; [|reflexivity].
    exfalso. destruct (Hclean "/"%char) as [Hn _]; [now left|].
    apply Hn. unfold invalid_chars. simpl. tauto.
  - unfold raw, raw_filename.
    destruct (header_filename _ _ _ cd) as [[|c s]|];
      try discriminate;
      destruct (basename (unquote (url_path url))); discriminate.
Qed.

End Names.

Example sanitize_sample :
  sanitize "Q3 2021: KO/PEP, call?.pdf" = "Q3_2021__KO_PEP__call_.pdf"
  /\ path_join "out" (sanitize "a b") = "out/a_b"
  /\ sanitize (String (ascii_of_nat 9) "") = "".
Proof. repeat split; reflexivity. Qed.

End ScraperFacts.
